(** * smallsh: job control of a small shell

    A shallow embedding of [smallsh.c]: the argument vector
    ([struct CommandLine]), the registry of live children
    ([struct ChildrenPids]), the decoding of wait statuses, the background
    sweep, the built-in commands, the SIGTSTP handler, one iteration of the
    command loop of [main] and [execHandle] in the forked child; then the
    properties of the job-control design, proved of these definitions or,
    in two places, refuted by a run, and further properties of the code.

    Conventions.
    - A C [int] or [pid_t] is a [Z]; [++], [--] and [*= 2] are followed by
      [wrap_int], the two's complement wrap-around of a 32-bit [int].
    - A [char*] is an [option string]: [None] is the null pointer.
    - A function that may dereference a null pointer, index outside an
      allocation, read a variable nothing has written or fail an [assert]
      returns an [option]: [None] is the run that does not come back.
    - System calls are the fields of [Sys], and the status macros of
      <sys/wait.h> the fields of [WaitMacros]: the code is modelled for
      every system. Every call is recorded in the trace of the [World], in
      the order the program makes them.
    - SIGTSTP is delivered between two iterations of the command loop
      ([step]); the handler touches [BGAllowed] and the output only, and an
      iteration reads [BGAllowed] once. *)

From Stdlib Require Import ZArith List String Ascii Lia Bool DecimalString.
From stdpp Require Import base option list strings.

Local Open Scope Z_scope.

(** ** Machine integers *)

Definition INT_MAX : Z := 2147483647.

Definition wrap_int (z : Z) : Z := (z + 2147483648) mod 4294967296 - 2147483648.

(** ** struct CommandLine *)

Record CommandLine := mkCommandLine {
  capacity : Z;
  size : Z;
  bg : Z;
  inputFile : option string;
  outputFile : option string;
  arr : list (option string)
}.

(** The index [z] of a C array of [n] cells, when it lies inside it. *)
Definition index_in (z : Z) (n : nat) : option nat :=
  if (0 <=? z) && (z <? Z.of_nat n) then Some (Z.to_nat z) else None.

(** [malloc(capacity * sizeof(char* ))], every cell set to NULL.  A negative
    [capacity] is a huge [size_t]: the allocation fails and the [assert]
    stops the program. *)
Definition initCommandLine (cap : Z) : option CommandLine :=
  if cap <? 0 then None
  else Some {| capacity := cap; size := 0; bg := 0;
               inputFile := None; outputFile := None;
               arr := replicate (Z.to_nat cap) None |}.

(** The loop [for (i=0; i < r->size; i++) temp[i] = copy of r->arr[i]] of
    [addCommandLine]; [k] counts the iterations left. *)
Fixpoint copy_strings (k : nat) (i : nat) (src temp : list (option string))
  : option (list (option string)) :=
  match k with
  | O => Some temp
  | S k' =>
      match src !! i with
      | Some (Some s) =>
          if (i <? length temp)%nat
          then copy_strings k' (S i) src (<[i := Some s]> temp)
          else None
      | _ => None
      end
  end.

Definition addCommandLine (r : CommandLine) (str : string) : option CommandLine :=
  r1 ← (if size r =? capacity r - 1 then
          let n := wrap_int (2 * capacity r) in
          if n <? 0 then None
          else if size r <? 0 then None
          else
            temp ← copy_strings (Z.to_nat (size r)) 0 (arr r)
                                (replicate (Z.to_nat n) None);
            Some {| capacity := wrap_int (capacity r * 2); size := size r;
                    bg := bg r; inputFile := inputFile r;
                    outputFile := outputFile r; arr := temp |}
        else Some r);
  i ← index_in (size r1) (length (arr r1));
  Some {| capacity := capacity r1; size := wrap_int (size r1 + 1);
          bg := bg r1; inputFile := inputFile r1;
          outputFile := outputFile r1;
          arr := <[i := Some str]> (arr r1) |}.

(** A run of [addCommandLine] calls, one per string. *)
Fixpoint addCommandLines (r : CommandLine) (strs : list string) : option CommandLine :=
  match strs with
  | [] => Some r
  | s :: strs' => r' ← addCommandLine r s; addCommandLines r' strs'
  end.

(** ** Reading a line: strtok_r, expandShellPid, parseLine *)

(** The successive results of [strtok_r(rest, " ", &rest)]: the maximal runs
    of characters other than the space. [cur] is the run being read, in
    reverse. *)
Fixpoint strtok_all (cur : list ascii) (line : list ascii) : list string :=
  let flush (k : list string) :=
    match cur with [] => k | _ :: _ => string_of_list_ascii (rev cur) :: k end in
  match line with
  | [] => flush []
  | c :: line' =>
      if Ascii.eqb c " "%char then flush (strtok_all [] line')
      else strtok_all (c :: cur) line'
  end.

(** [strstr(str, "$$") != 0] *)
Fixpoint has_pid_mark (str : string) : bool :=
  match str with
  | String "$" ((String "$" _) as rest) => true
  | String _ rest => has_pid_mark rest
  | EmptyString => false
  end.

(** Replaces the first "$$" of [str] by [pidStr]. *)
Fixpoint expandShellPid (pidStr : string) (str : string) : string :=
  match str with
  | String "$" (String "$" rest) => pidStr +:+ rest
  | String c rest => String c (expandShellPid pidStr rest)
  | EmptyString => EmptyString
  end.

(** [while (strstr(expanded, "$$") != 0) expanded = expandShellPid(expanded)] *)
Fixpoint expand_loop (fuel : nat) (pidStr : string) (expanded : string) : option string :=
  if has_pid_mark expanded then
    match fuel with
    | O => None
    | S fuel' => expand_loop fuel' pidStr (expandShellPid pidStr expanded)
    end
  else Some expanded.

(** The [while] loop of [parseLine] over the tokens of the line. A "<" or
    ">" at the end of the line hands NULL to [strlen]. *)
Fixpoint parse_tokens (pidStr : string) (toks : list string) (commands : CommandLine)
  : option CommandLine :=
  match toks with
  | [] => Some commands
  | token :: rest =>
      if String.eqb token "<" then
        match rest with
        | [] => None
        | token' :: rest' =>
            parse_tokens pidStr rest'
              {| capacity := capacity commands; size := size commands;
                 bg := bg commands; inputFile := Some token';
                 outputFile := outputFile commands; arr := arr commands |}
        end
      else if String.eqb token ">" then
        match rest with
        | [] => None
        | token' :: rest' =>
            parse_tokens pidStr rest'
              {| capacity := capacity commands; size := size commands;
                 bg := bg commands; inputFile := inputFile commands;
                 outputFile := Some token'; arr := arr commands |}
        end
      else if has_pid_mark token then
        expanded ← expand_loop (String.length token) pidStr
                      (expandShellPid pidStr token);
        commands' ← addCommandLine commands expanded;
        parse_tokens pidStr rest commands'
      else
        commands' ← addCommandLine commands token;
        parse_tokens pidStr rest commands'
  end.

(** The tail of [parseLine]: a last word "&" asks for the background. *)
Definition set_background (commands : CommandLine) : option CommandLine :=
  if 0 <? size commands then
    i ← index_in (size commands - 1) (length (arr commands));
    match arr commands !! i with
    | Some (Some last) =>
        if String.eqb "&" last then
          Some {| capacity := capacity commands;
                  size := wrap_int (size commands - 1);
                  bg := 1;
                  inputFile := match inputFile commands with
                               | None => Some "/dev/null"%string
                               | Some f => Some f
                               end;
                  outputFile := match outputFile commands with
                                | None => Some "/dev/null"%string
                                | Some f => Some f
                                end;
                  arr := <[i := None]> (arr commands) |}
        else Some commands
    | _ => None
    end
  else Some commands.

Definition parseLine (pidStr : string) (line : string) : option CommandLine :=
  commands ← initCommandLine 10;
  commands' ← parse_tokens pidStr (strtok_all [] (list_ascii_of_string line)) commands;
  set_background commands'.

(** ** struct Link and struct ChildrenPids *)

(** A [struct Link] without its [next] pointer: the chain of [next] pointers
    is the order of the list that holds the links. [command] points to the
    [CommandLine] of the line; nothing writes to it once it is registered. *)
Record Link := mkLink {
  pidNo : Z;
  command : CommandLine;
  builtIn : Z
}.

Record ChildrenPids := mkChildrenPids {
  cp_size : Z;            (* children->size *)
  cp_list : list Link     (* children->list, NULL is [] *)
}.

Definition initLink (p : Z) (c : CommandLine) (b : Z) : Link :=
  {| pidNo := p; command := c; builtIn := b |}.

Definition initChildrenPids : ChildrenPids :=
  {| cp_size := 0; cp_list := [] |}.

(** [while (temp->next) temp = temp->next; temp->next = l;] from the link
    [temp], whose successors are [rest]. *)
Fixpoint link_at_end (temp : Link) (rest : list Link) (l : Link) : list Link :=
  match rest with
  | [] => [temp; l]
  | nxt :: rest' => temp :: link_at_end nxt rest' l
  end.

Definition addChildrenPids (children : ChildrenPids) (p : Z) (c : CommandLine) (b : Z)
  : option ChildrenPids :=
  let l := initLink p c b in
  if cp_size children =? 0 then
    Some {| cp_size := wrap_int (cp_size children + 1); cp_list := [l] |}
  else
    match cp_list children with
    | [] => None
    | temp :: rest =>
        Some {| cp_size := wrap_int (cp_size children + 1);
                cp_list := link_at_end temp rest l |}
    end.

(** [while (temp) { if (temp->pidNo == num) return 1; temp = temp->next; }] *)
Fixpoint search_links (temp : list Link) (num : Z) : Z :=
  match temp with
  | [] => 0
  | l :: rest => if pidNo l =? num then 1 else search_links rest num
  end.

Definition inChildrenPids (children : ChildrenPids) (num : Z) : Z :=
  if cp_size children =? 0 then 0 else search_links (cp_list children) num.

(** The [else] branch of [deleteChildrenPids]: from [temp], unlink the first
    successor that holds [num]. When the chain ends first, [junk] was never
    set and [freeLink(junk)] is undefined. *)
Fixpoint unlink_next (temp : Link) (rest : list Link) (num : Z) : option (list Link) :=
  match rest with
  | [] => None
  | nxt :: rest' =>
      if pidNo nxt =? num then Some (temp :: rest')
      else
        tl ← unlink_next nxt rest' num;
        Some (temp :: tl)
  end.

Definition deleteChildrenPids (children : ChildrenPids) (num : Z)
  : option (ChildrenPids * Z) :=
  let in_ := inChildrenPids children num in
  if in_ =? 0 then Some (children, 0)
  else
    match cp_list children with
    | [] => None
    | first :: rest =>
        l' ← (if pidNo first =? num then Some rest
              else unlink_next first rest num);
        Some ({| cp_size := wrap_int (cp_size children - 1); cp_list := l' |}, 1)
    end.

(** ** The system interface *)

Inductive signal := SIGINT | SIGTSTP | SIGTERM.
Inductive how := SIG_BLOCK | SIG_UNBLOCK.
Inductive wait_options := WAIT_0 | WNOHANG.
Inductive disposition := SIG_DFL | SIG_IGN.

(** The status macros of <sys/wait.h>, which the repository does not
    define: parameters of the model. Each yields an [int]. *)
Class WaitMacros := {
  WIFEXITED : Z -> Z;
  WEXITSTATUS : Z -> Z;
  WIFSIGNALED : Z -> Z;
  WTERMSIG : Z -> Z
}.

(** The two shapes of a wait status, as <sys/wait.h> tells them apart. *)
Definition exitedWithCode {WM : WaitMacros} (status c : Z) : Prop :=
  WIFEXITED status <> 0 /\ WEXITSTATUS status = c.

Definition signaledWith {WM : WaitMacros} (status s : Z) : Prop :=
  WIFEXITED status = 0 /\ WIFSIGNALED status <> 0 /\ WTERMSIG status = s.

(** The system calls of the shell. Each takes the state of the system and
    returns the next one with the value the call returns. [sys_waitpid] also
    gives the status it stored through its second argument, if it stored
    one. *)
Class Sys := {
  OS : Type;
  sys_fork : OS -> OS * Z;
  sys_waitpid : OS -> Z -> wait_options -> OS * (Z * option Z);
  sys_kill : OS -> Z -> signal -> OS * Z;
  sys_sigprocmask : OS -> how -> list signal -> OS * Z;
  sys_chdir : OS -> string -> OS * Z;
  sys_getenv_HOME : option string;
  sys_getpid : Z
}.

(** The lines written with [printf]; the arguments of the format are the
    arguments of the constructor. *)
Inductive Notice :=
| NPrompt                           (* ": " *)
| NBackgroundStarts (pid : Z)       (* "Background process %d starts\n" *)
| NBackgroundFinished (pid : Z)     (* "Background process %d has finished: " *)
| NExitValue (v : Z)                (* "exit value %d\n", "exit value 0\n" *)
| NExitedValue (v : Z)              (* "exited value %d\n" *)
| NTerminatedBySignal (sig : Z)     (* "terminated by signal %d\n" *)
| NForegroundSignal (pid sig : Z)   (* "Foreground process %d is terminated by signal %d\n" *)
| NErrorStrerror (v : Z)            (* "Error: %s\n", strerror(exitStatus) *)
| NProcessTerminated (pid : Z)      (* "Process %d terminated by SIGTERM\n" *)
| NSucessfullyDeleted               (* "Sucessfully deleted info for this process\n" *)
| NErrorDeleting.                   (* "Error deleting info for this process\n" *)

Inductive Event :=
| EPrintf (n : Notice)
| EPerror (msg : string)
| EWrite (fd : Z) (buf : string) (count : Z)
| EFork (ret : Z)
| EWaitpid (pid : Z) (options : wait_options) (ret : Z)
| EKill (pid : Z) (sig : signal) (ret : Z)
| ESigprocmask (h : how) (set : list signal) (ret : Z)
| EChdir (path : string) (ret : Z).

Definition STDOUT_FILENO : Z := 1.
Definition MAXCHILDREN : Z := 50.

(** The four [int]s that [decipherExitStatus] writes through its pointers. *)
Record Decoded := mkDecoded {
  exited : Z;
  exitStatus : Z;
  signaled : Z;
  termSignal : Z
}.

Section Shell.

Context {WM : WaitMacros} {SY : Sys}.

Record World := mkWorld {
  os : OS;
  trace : list Event
}.

Definition emit (e : Event) (w : World) : World :=
  {| os := os w; trace := trace w ++ [e] |}.

Definition printf (n : Notice) (w : World) : World := emit (EPrintf n) w.
Definition perror (msg : string) (w : World) : World := emit (EPerror msg) w.

Definition fork (w : World) : World * Z :=
  let '(o, ret) := sys_fork (os w) in
  (emit (EFork ret) {| os := o; trace := trace w |}, ret).

Definition waitpid (w : World) (pid : Z) (options : wait_options)
  : World * (Z * option Z) :=
  let '(o, (ret, status)) := sys_waitpid (os w) pid options in
  (emit (EWaitpid pid options ret) {| os := o; trace := trace w |}, (ret, status)).

Definition kill (w : World) (pid : Z) (sig : signal) : World * Z :=
  let '(o, ret) := sys_kill (os w) pid sig in
  (emit (EKill pid sig ret) {| os := o; trace := trace w |}, ret).

Definition sigprocmask (w : World) (h : how) (set : list signal) : World * Z :=
  let '(o, ret) := sys_sigprocmask (os w) h set in
  (emit (ESigprocmask h set ret) {| os := o; trace := trace w |}, ret).

Definition chdir (w : World) (path : string) : World * Z :=
  let '(o, ret) := sys_chdir (os w) path in
  (emit (EChdir path ret) {| os := o; trace := trace w |}, ret).

(** ** decipherExitStatus

    [out] is what the four pointers held before the call: [None] when the
    caller has not initialised them yet. A status of neither shape leaves
    them as they are. *)
Definition decipherExitStatus (childExitMethod : Z) (out : option Decoded)
  : option Decoded :=
  if negb (WIFEXITED childExitMethod =? 0) then
    Some {| exited := 1; exitStatus := WEXITSTATUS childExitMethod;
            signaled := 0; termSignal := 0 |}
  else if negb (WIFSIGNALED childExitMethod =? 0) then
    Some {| exited := 0; exitStatus := 0;
            signaled := 1; termSignal := WTERMSIG childExitMethod |}
  else out.

(** ** The state of the shell

    The global [BGAllowed] and the variables of [main] that live across the
    iterations of its loop. [decoded] is [None] until the first call of
    [decipherExitStatus] that writes them. *)
Record Shell := mkShell {
  BGAllowed : Z;
  children : ChildrenPids;
  lastFGExitMethod : Z;
  decoded : option Decoded;
  keepGoing : Z;
  world : World
}.

Definition initShell (o : OS) : Shell :=
  {| BGAllowed := 1; children := initChildrenPids; lastFGExitMethod := 0;
     decoded := None; keepGoing := 1;
     world := {| os := o; trace := [] |} |}.

(** ** parentCatchSIGTSTP

    The first notice has 44 characters: the count of 45 also writes the
    null character that ends the literal. *)

Definition enter_notice : string :=
  String.append "Enter foreground only mode (& is ignored)"
                (String "010" ": ").

Definition exit_notice : string :=
  String.append "Exit foreground only mode" (String "010" ": ").

Definition parentCatchSIGTSTP (s : Shell) : Shell :=
  if BGAllowed s =? 1 then
    {| BGAllowed := 0; children := children s;
       lastFGExitMethod := lastFGExitMethod s; decoded := decoded s;
       keepGoing := keepGoing s;
       world := emit (EWrite STDOUT_FILENO enter_notice 45) (world s) |}
  else
    {| BGAllowed := 1; children := children s;
       lastFGExitMethod := lastFGExitMethod s; decoded := decoded s;
       keepGoing := keepGoing s;
       world := emit (EWrite STDOUT_FILENO exit_notice 28) (world s) |}.

(** ** The built-in commands *)

(** [path] has 1024 bytes: a longer string overruns it. With HOME unset,
    [getenv] hands NULL to [sprintf]. *)
Definition cdHandle (c : CommandLine) (w : World) : option World :=
  path ← (if size c =? 1 then sys_getenv_HOME
          else if 2 <=? size c then
            match arr c !! 1%nat with
            | Some (Some dir) => Some dir
            | _ => None
            end
          else Some EmptyString);
  if (String.length path <? 1024)%nat then
    let '(w1, result) := chdir w path in
    Some (if result =? -1 then perror "cd error" w1 else w1)
  else None.

Definition statusHandle (exitMethod : Z) (w : World) : World :=
  if negb (WIFEXITED exitMethod =? 0) then
    let exitStatus := WEXITSTATUS exitMethod in
    let exitStatus := if negb (exitStatus =? 0) then 1 else exitStatus in
    printf (NExitValue exitStatus) w
  else if negb (WIFSIGNALED exitMethod =? 0) then
    printf (NTerminatedBySignal (WTERMSIG exitMethod)) w
  else w.

(** The loop of [exitHandle], [while (children->size != 0 && i < 50)].
    [fuel] bounds the iterations of the model; 50 is enough. *)
Fixpoint exitHandle_loop (fuel : nat) (w : World) (children : ChildrenPids) (i : Z)
  : option (World * ChildrenPids) :=
  if negb (cp_size children =? 0) && (i <? 50) then
    match fuel with
    | O => None
    | S fuel' =>
        match cp_list children with
        | [] => None
        | temp :: _ =>
            let '(w1, result) := kill w (pidNo temp) SIGTERM in
            if result =? 0 then
              let w2 := printf (NProcessTerminated (pidNo temp)) w1 in
              '(children', deleted) ← deleteChildrenPids children (pidNo temp);
              let w3 := if deleted =? 0 then printf NSucessfullyDeleted w2
                        else printf NErrorDeleting w2 in
              exitHandle_loop fuel' w3 children' (wrap_int (i + 1))
            else
              exitHandle_loop fuel' (perror "Exit Failure: " w1) children
                              (wrap_int (i + 1))
        end
    end
  else Some (w, children).

Definition exitHandle (w : World) (children : ChildrenPids)
  : option (World * ChildrenPids) :=
  exitHandle_loop 50 w children 0.

(** ** checkBGChildren *)

(** [while (temp) { bgChildren[i] = temp->pidNo; temp = temp->next; i++; }] *)
Fixpoint copy_pids (temp : list Link) (i : nat) (bgChildren : list Z) : option (list Z) :=
  match temp with
  | [] => Some bgChildren
  | l :: rest =>
      if (i <? length bgChildren)%nat
      then copy_pids rest (S i) (<[i := pidNo l]> bgChildren)
      else None
  end.

(** The notices after "Background process %d has finished: ". *)
Definition report_background (d : Decoded) (w : World) : World :=
  if negb (exited d =? 0) then
    let w1 := if exitStatus d =? 0 then printf (NExitValue 0) w else w in
    if negb (exitStatus d =? 0) then printf (NExitedValue (exitStatus d)) w1 else w1
  else if negb (signaled d =? 0) then
    printf (NTerminatedBySignal (termSignal d)) w
  else w.

(** The loop [for (i=0; i < children->size; i++)]. [childExitMethod] and
    [dec] are the locals of [checkBGChildren], [None] before anything is
    stored in them. *)
Fixpoint sweep_loop (fuel : nat) (w : World) (children : ChildrenPids)
    (bgChildren : list Z) (i : Z) (childExitMethod : option Z) (dec : option Decoded)
  : option (World * ChildrenPids) :=
  if i <? cp_size children then
    match fuel with
    | O => None
    | S fuel' =>
        k ← index_in i (length bgChildren);
        pid ← bgChildren !! k;
        let '(w1, (currPid, stored)) := waitpid w pid WNOHANG in
        let childExitMethod :=
          match stored with Some st => Some st | None => childExitMethod end in
        if negb (currPid =? 0) then
          '(children', _) ← deleteChildrenPids children currPid;
          let w2 := printf (NBackgroundFinished currPid) w1 in
          st ← childExitMethod;
          let dec := decipherExitStatus st dec in
          d ← dec;
          sweep_loop fuel' (report_background d w2) children' bgChildren
                     (wrap_int (i + 1)) childExitMethod dec
        else
          sweep_loop fuel' w1 children bgChildren (wrap_int (i + 1))
                     childExitMethod dec
    end
  else Some (w, children).

Definition checkBGChildren (w : World) (children : ChildrenPids)
  : option (World * ChildrenPids) :=
  if cp_size children =? 0 then None
  else if cp_size children <? 0 then None
  else
    let n := Z.to_nat (cp_size children) in
    bgChildren ← copy_pids (cp_list children) 0 (replicate n 0);
    sweep_loop n w children bgChildren 0 None None.

(** ** One iteration of the loop of [main] *)

Inductive Outcome :=
| Continue (s : Shell)      (* the end of the iteration, or a [continue] *)
| Exit (code : Z) (s : Shell)                       (* [exit(code)] *)
| Aborted (s : Shell)                               (* [abort()] *)
| InChild (acts : list (signal * disposition)) (c : CommandLine)
      (* the forked child: its [sigaction] calls, then [execHandle(c)] *)
| Undefined.

Definition set_bg (c : CommandLine) (b : Z) : CommandLine :=
  {| capacity := capacity c; size := size c; bg := b;
     inputFile := inputFile c; outputFile := outputFile c; arr := arr c |}.

(** Lines 819 to 826: the background flag the command is run with. *)
Definition resolve_background (procType : Z) (bgAllowed : Z) (commands : CommandLine)
  : CommandLine :=
  if negb (procType =? 0) then set_bg commands 0
  else if bgAllowed =? 0 then set_bg commands 0
  else commands.

Definition perror_unless_zero (ret : Z) (msg : string) (w : World) : World :=
  if negb (ret =? 0) then perror msg w else w.

(** Lines 889 to 904: the notices after the wait for a foreground child. *)
Definition report_foreground (spawnPid : Z) (d : Decoded) (w : World) : World :=
  if negb (exited d =? 0) then
    if negb (exitStatus d =? 0)
    then printf (NErrorStrerror (exitStatus d)) w else w
  else if negb (signaled d =? 0) then
    printf (NForegroundSignal spawnPid (termSignal d)) w
  else w.

(** Lines 863 to 888: the wait for a foreground child. [sigemptyset] and
    [sigaddset] on a local set and SIGTSTP do not fail: [toBlock] is the set
    that holds SIGTSTP. *)
Definition foreground_wait (spawnPid : Z) (s : Shell) (children1 : ChildrenPids)
    (w : World) : Outcome :=
  let toBlock := [SIGTSTP] in
  let '(w1, r1) := sigprocmask w SIG_BLOCK toBlock in
  let w1 := perror_unless_zero r1 "SIGTSTP is not blocked in foreground child process" w1 in
  let '(w2, (_, stored)) := waitpid w1 spawnPid WAIT_0 in
  let childExitMethod := match stored with Some st => st | None => -5 end in
  let '(w3, r3) := sigprocmask w2 SIG_UNBLOCK toBlock in
  let w3 := perror_unless_zero r3 "SIGTSTP is not unblocked" w3 in
  match deleteChildrenPids children1 spawnPid with
  | None => Undefined
  | Some (children2, _) =>
      let dec := decipherExitStatus childExitMethod (decoded s) in
      match dec with
      | None => Undefined
      | Some d =>
          Continue {| BGAllowed := BGAllowed s; children := children2;
                      lastFGExitMethod := childExitMethod; decoded := dec;
                      keepGoing := keepGoing s;
                      world := report_foreground spawnPid d w3 |}
      end
  end.

(** Lines 815 to 906: resolve the background flag, fork, and in the parent
    register the child and either announce it or wait for it. *)
Definition dispatch (procType : Z) (commands : CommandLine) (s : Shell) : Outcome :=
  let commands := resolve_background procType (BGAllowed s) commands in
  let '(w1, spawnPid) := fork (world s) in
  if spawnPid =? -1 then
    Exit 1 {| BGAllowed := BGAllowed s; children := children s;
              lastFGExitMethod := lastFGExitMethod s; decoded := decoded s;
              keepGoing := keepGoing s; world := perror "Hull Breach!" w1 |}
  else if spawnPid =? 0 then
    InChild ((if bg commands =? 0 then [(SIGINT, SIG_DFL)] else [])
               ++ [(SIGTSTP, SIG_IGN)]) commands
  else
    match addChildrenPids (children s) spawnPid commands (bg commands) with
    | None => Undefined
    | Some children1 =>
        if cp_size children1 =? MAXCHILDREN then
          Aborted {| BGAllowed := BGAllowed s; children := children1;
                     lastFGExitMethod := lastFGExitMethod s; decoded := decoded s;
                     keepGoing := keepGoing s; world := w1 |}
        else
          let w2 := if bg commands =? 1
                    then printf (NBackgroundStarts spawnPid) w1 else w1 in
          if bg commands =? 0 then foreground_wait spawnPid s children1 w2
          else Continue {| BGAllowed := BGAllowed s; children := children1;
                           lastFGExitMethod := lastFGExitMethod s;
                           decoded := decoded s;
                           keepGoing := keepGoing s; world := w2 |}
    end.

(** Lines 907 to 909, after a dispatch that came back in the parent. *)
Definition sweep_after (o : Outcome) : Outcome :=
  match o with
  | Continue s =>
      if negb (cp_size (children s) =? 0) then
        match checkBGChildren (world s) (children s) with
        | None => Undefined
        | Some (w, children') =>
            Continue {| BGAllowed := BGAllowed s; children := children';
                        lastFGExitMethod := lastFGExitMethod s;
                        decoded := decoded s;
                        keepGoing := keepGoing s; world := w |}
        end
      else Continue s
  | _ => o
  end.

Definition with_world (s : Shell) (w : World) : Shell :=
  {| BGAllowed := BGAllowed s; children := children s;
     lastFGExitMethod := lastFGExitMethod s; decoded := decoded s;
     keepGoing := keepGoing s; world := w |}.

Definition first_char_is (c : ascii) (str : string) : bool :=
  match str with
  | String c' _ => Ascii.eqb c' c
  | EmptyString => false
  end.

Definition pid_to_string (pid : Z) : string :=
  NilZero.string_of_int (Z.to_int pid).

(** The body of [while (keepGoing)], on the line that [readLine] returned,
    its newline removed. *)
Definition main_iteration (line : string) (s : Shell) : Outcome :=
  let w0 := printf NPrompt (world s) in
  match parseLine (pid_to_string sys_getpid) line with
  | None => Undefined
  | Some commands =>
      if size commands =? 0 then Continue (with_world s w0)
      else
        match arr commands !! 0%nat with
        | Some (Some arr0) =>
            if first_char_is "#" arr0 then Continue (with_world s w0)
            else if String.eqb arr0 "cd" then
              match cdHandle commands w0 with
              | None => Undefined
              | Some w1 => Continue (with_world s w1)
              end
            else if String.eqb arr0 "status" then
              Continue (with_world s (statusHandle (lastFGExitMethod s) w0))
            else if String.eqb arr0 "exit" then
              match exitHandle w0 (children s) with
              | None => Undefined
              | Some (w1, children') =>
                  Continue {| BGAllowed := BGAllowed s; children := children';
                              lastFGExitMethod := lastFGExitMethod s;
                              decoded := decoded s;
                              keepGoing := 0; world := w1 |}
              end
            else sweep_after (dispatch 0 commands (with_world s w0))
        | _ => Undefined
        end
  end.

(** The shell moves when SIGTSTP is delivered and when a line has been
    handled. *)
Inductive step : Shell -> Shell -> Prop :=
| step_toggle s : step s (parentCatchSIGTSTP s)
| step_line line s s' :
    keepGoing s <> 0 ->
    main_iteration line s = Continue s' ->
    step s s'.

Inductive reachable (o : OS) : Shell -> Prop :=
| reachable_init : reachable o (initShell o)
| reachable_step s s' : reachable o s -> step s s' -> reachable o s'.

End Shell.

(** ** Registry operations in sequence *)

Inductive RegistryOp :=
| OpAdd (pid : Z) (c : CommandLine) (b : Z)
| OpRemove (pid : Z).

(** Runs the operations in order; the second component collects what each
    [deleteChildrenPids] returned, with the identifier it was asked for. *)
Fixpoint run_registry (ops : list RegistryOp) (children : ChildrenPids)
    (returned : list (Z * Z)) : option (ChildrenPids * list (Z * Z)) :=
  match ops with
  | [] => Some (children, returned)
  | OpAdd p c b :: ops' =>
      children' ← addChildrenPids children p c b;
      run_registry ops' children' returned
  | OpRemove p :: ops' =>
      '(children', ret) ← deleteChildrenPids children p;
      run_registry ops' children' (returned ++ [(p, ret)])
  end.

Fixpoint added_pids (ops : list RegistryOp) : list Z :=
  match ops with
  | [] => []
  | OpAdd p _ _ :: ops' => p :: added_pids ops'
  | OpRemove _ :: ops' => added_pids ops'
  end.

Definition successful_removes (returned : list (Z * Z)) : list (Z * Z) :=
  filter (fun pr => snd pr = 1) returned.

(** ** A system to run the model on

    The status macros as the GNU C library defines them on Linux, and a
    process table: every child has the status it ends with and a mark that
    tells whether it has ended. *)

Definition signed_char (z : Z) : Z := (z + 128) mod 256 - 128.

#[export] Instance linux_wait : WaitMacros := {|
  WIFEXITED status := if Z.land status 127 =? 0 then 1 else 0;
  WEXITSTATUS status := Z.shiftr (Z.land status 65280) 8;
  WIFSIGNALED status :=
    if 0 <? Z.shiftr (signed_char (Z.land status 127 + 1)) 1 then 1 else 0;
  WTERMSIG status := Z.land status 127
|}.

Record Proc := mkProc {
  proc_pid : Z;
  proc_status : Z;
  proc_ended : bool
}.

Record Table := mkTable {
  procs : list Proc;        (* the children not waited for yet *)
  upcoming : list Proc      (* the children the next forks create *)
}.

Definition find_proc (t : Table) (pid : Z) : option Proc :=
  head (filter (fun p => proc_pid p = pid) (procs t)).

Definition drop_proc (t : Table) (pid : Z) : Table :=
  {| procs := filter (fun p => proc_pid p <> pid) (procs t);
     upcoming := upcoming t |}.

Definition table_fork (t : Table) : Table * Z :=
  match upcoming t with
  | [] => (t, -1)
  | p :: rest => ({| procs := procs t ++ [p]; upcoming := rest |}, proc_pid p)
  end.

Definition table_waitpid (t : Table) (pid : Z) (options : wait_options)
  : Table * (Z * option Z) :=
  match find_proc t pid with
  | None => (t, (-1, None))
  | Some p =>
      match options, proc_ended p with
      | WNOHANG, false => (t, (0, None))
      | _, _ => (drop_proc t pid, (pid, Some (proc_status p)))
      end
  end.

Definition table_kill (t : Table) (pid : Z) (sig : signal) : Table * Z :=
  match find_proc t pid with
  | None => (t, -1)
  | Some _ =>
      ({| procs := map (fun p => if decide (proc_pid p = pid)
                                 then (if proc_ended p then p
                                       else mkProc pid 15 true)
                                 else p) (procs t);
          upcoming := upcoming t |}, 0)
  end.

#[export] Instance table_sys : Sys := {|
  OS := Table;
  sys_fork := table_fork;
  sys_waitpid := table_waitpid;
  sys_kill := table_kill;
  sys_sigprocmask t _ _ := (t, 0);
  sys_chdir t _ := (t, 0);
  sys_getenv_HOME := Some "/root"%string;
  sys_getpid := 4242
|}.

(** A command that is not a built-in, for the records of the examples. *)
Definition sleep_command (b : Z) : CommandLine :=
  {| capacity := 10; size := 2; bg := b;
     inputFile := if b =? 1 then Some "/dev/null"%string else None;
     outputFile := if b =? 1 then Some "/dev/null"%string else None;
     arr := [Some "sleep"%string; Some "5"%string] ++ replicate 8 None |}.

Definition registry_of (pids : list Z) : ChildrenPids :=
  {| cp_size := Z.of_nat (length pids);
     cp_list := map (fun p => initLink p (sleep_command 1) 1) pids |}.

(** ** execHandle, in the forked child

    The calls of the child are the fields of [ChildSys]. [open] and [dup2]
    return their value with the [errno] they leave; [execvp] either replaces
    the program image ([None]) or returns a value with its [errno]. *)

Inductive open_how :=
| OPEN_RDONLY                     (* O_RDONLY *)
| OPEN_WRONLY_CREAT_TRUNC_0644.   (* O_WRONLY | O_CREAT | O_TRUNC, 0644 *)

Class ChildSys := {
  COS : Type;
  child_open : COS -> string -> open_how -> COS * (Z * Z);
  child_dup2 : COS -> Z -> Z -> COS * (Z * Z);
  child_execvp : COS -> string -> list (option string) -> option (COS * (Z * Z))
}.

Inductive ChildEvent :=
| CEOpen (path : string) (h : open_how) (ret : Z)
| CEDup2 (oldfd newfd : Z) (ret : Z)
| CEExecvp (file : string) (argv : list (option string)).

Inductive ChildEnd :=
| Replaced          (* [execvp] took over: the program runs *)
| ChildExit (code : Z)            (* [exit(errno)] *)
| Returned          (* [execHandle] came back to [main] *)
| ChildUndefined.   (* [c->arr[0]] outside the array or NULL *)

(** One redirection: [open], [exit(errno)] on -1, [dup2] onto [target],
    [exit(errno)] on -1. [inl] is the exit code, [inr] the state to go on
    with. *)
Definition redirect {CS : ChildSys} (o : COS) (tr : list ChildEvent)
    (path : string) (h : open_how) (target : Z)
  : (list ChildEvent * Z) + (COS * list ChildEvent) :=
  let '(o1, (fd, errno1)) := child_open o path h in
  let tr1 := tr ++ [CEOpen path h fd] in
  if fd =? -1 then inl (tr1, errno1)
  else
    let '(o2, (result, errno2)) := child_dup2 o1 fd target in
    let tr2 := tr1 ++ [CEDup2 fd target result] in
    if result =? -1 then inl (tr2, errno2)
    else inr (o2, tr2).

Definition execHandle {CS : ChildSys} (c : CommandLine) (o : COS)
  : list ChildEvent * ChildEnd :=
  let after_input :=
    match inputFile c with
    | Some path => redirect o [] path OPEN_RDONLY 0
    | None => inr (o, [])
    end in
  match after_input with
  | inl (tr, code) => (tr, ChildExit code)
  | inr (o1, tr1) =>
      let after_output :=
        match outputFile c with
        | Some path => redirect o1 tr1 path OPEN_WRONLY_CREAT_TRUNC_0644 1
        | None => inr (o1, tr1)
        end in
      match after_output with
      | inl (tr, code) => (tr, ChildExit code)
      | inr (o2, tr2) =>
          match arr c !! 0%nat with
          | Some (Some file) =>
              let tr3 := tr2 ++ [CEExecvp file (arr c)] in
              match child_execvp o2 file (arr c) with
              | None => (tr3, Replaced)
              | Some (_, (ret, errno3)) =>
                  if ret <? 0 then (tr3, ChildExit errno3)
                  else (tr3, Returned)
              end
          | _ => (tr2, ChildUndefined)
          end
      end
  end.

(** A file system for the examples: the paths that can be opened, and the
    programs [execvp] finds. A missing path or program leaves ENOENT (2). *)
Record Files := mkFiles {
  openable : list string;
  programs : list string;
  next_fd : Z
}.

#[export] Instance files_sys : ChildSys := {|
  COS := Files;
  child_open f path h :=
    if bool_decide (path ∈ openable f)
       || match h with OPEN_WRONLY_CREAT_TRUNC_0644 => true | OPEN_RDONLY => false end
    then ({| openable := openable f; programs := programs f;
             next_fd := next_fd f + 1 |}, (next_fd f, 0))
    else (f, (-1, 2));
  child_dup2 f oldfd newfd := (f, (newfd, 0));
  child_execvp f file argv :=
    if bool_decide (file ∈ programs f) then None else Some (f, (-1, 2))
|}.

(** ** Predicates of the statements *)

Definition pids (children : ChildrenPids) : list Z := map pidNo (cp_list children).

(** The size field counts the links, and the count fits an [int]. *)
Definition registry_ok (children : ChildrenPids) : Prop :=
  cp_size children = Z.of_nat (length (cp_list children)) /\
  Z.of_nat (length (cp_list children)) <= INT_MAX.

(** The list without its first link that holds [num]. *)
Fixpoint remove_first (num : Z) (l : list Link) : list Link :=
  match l with
  | [] => []
  | x :: rest => if pidNo x =? num then rest else x :: remove_first num rest
  end.

(** How many events of a trace satisfy [f]. *)
Fixpoint count_events (f : Event -> bool) (evs : list Event) : nat :=
  match evs with
  | [] => 0
  | e :: evs' => (if f e then 1 else 0) + count_events f evs'
  end.

Definition is_error_deleting (e : Event) : bool :=
  match e with EPrintf NErrorDeleting => true | _ => false end.

Definition is_sucessfully_deleted (e : Event) : bool :=
  match e with EPrintf NSucessfullyDeleted => true | _ => false end.

Definition is_failure_notice (e : Event) : bool :=
  match e with EPerror _ => true | _ => false end.

Definition terminated_pid (e : Event) : option Z :=
  match e with EPrintf (NProcessTerminated p) => Some p | _ => None end.

(** The identifiers named by the "Process %d terminated by SIGTERM" notices
    of a trace, in order. *)
Definition terminated_notices (evs : list Event) : list Z := omap terminated_pid evs.

Section Protocols.

Context {SY : Sys}.

(** One attempt of the shutdown protocol, as the specification words it:
    the first entry of the registry is sent a termination request; when the
    request succeeds the entry is removed and a notice names it, when it
    fails a failure notice is written and the registry stays as it is. *)
Inductive attempt : World * ChildrenPids -> World * ChildrenPids -> Prop :=
| attempt_success w c w' first rest :
    cp_list c = first :: rest ->
    sys_kill (os w) (pidNo first) SIGTERM = (os w', 0) ->
    trace w' = trace w ++ [EKill (pidNo first) SIGTERM 0;
                           EPrintf (NProcessTerminated (pidNo first));
                           EPrintf NErrorDeleting] ->
    attempt (w, c) (w', {| cp_size := cp_size c - 1; cp_list := rest |})
| attempt_failure w c w' first rest ret :
    cp_list c = first :: rest ->
    sys_kill (os w) (pidNo first) SIGTERM = (os w', ret) ->
    ret <> 0 ->
    trace w' = trace w ++ [EKill (pidNo first) SIGTERM ret;
                           EPerror "Exit Failure: "] ->
    attempt (w, c) (w', c).

Inductive attempts : nat -> World * ChildrenPids -> World * ChildrenPids -> Prop :=
| attempts_O x : attempts 0 x x
| attempts_S n x y z : attempt x y -> attempts n y z -> attempts (Datatypes.S n) x z.

End Protocols.

(** [initCommandLine] followed by one [addCommandLine] per string. *)
Definition buildCommandLine (cap : Z) (strs : list string) : option CommandLine :=
  r ← initCommandLine cap;
  addCommandLines r strs.

(** The array holds the strings added so far, then NULL in every cell up
    to its capacity, of which there is at least one. *)
Definition commandline_ok (r : CommandLine) (strs : list string) : Prop :=
  1 <= capacity r <= INT_MAX /\
  size r = Z.of_nat (length strs) /\
  size r < capacity r /\
  arr r = map Some strs ++ replicate (Z.to_nat (capacity r - size r)) None.

Section Waits.

Context {WM : WaitMacros} {SY : Sys}.

(** A status of one of the two shapes. *)
Definition decodable (status : Z) : Prop :=
  (exists c, exitedWithCode status c) \/ (exists sg, signaledWith status sg).

(** From the system state [o0] the parent is in after [fork], the blocking
    wait for [spawnPid] stores a status of one of the two shapes. *)
Definition foreground_wait_decodes (o0 : OS) (spawnPid : Z) : Prop :=
  exists o1 r1 o2 ret st,
    sys_sigprocmask o0 SIG_BLOCK [SIGTSTP] = (o1, r1) /\
    sys_waitpid o1 spawnPid WAIT_0 = (o2, (ret, Some st)) /\
    decodable st.

(** What [perror] adds to the trace after a call that returned [ret]. *)
Definition perror_events (ret : Z) (msg : string) : list Event :=
  if ret =? 0 then [] else [EPerror msg].

(** What [report_foreground] and [report_background] write. *)
Definition foreground_notices (spawnPid : Z) (d : Decoded) : list Event :=
  if negb (exited d =? 0) then
    if negb (exitStatus d =? 0) then [EPrintf (NErrorStrerror (exitStatus d))]
    else []
  else if negb (signaled d =? 0) then
    [EPrintf (NForegroundSignal spawnPid (termSignal d))]
  else [].

Definition background_notices (d : Decoded) : list Event :=
  if negb (exited d =? 0) then
    if exitStatus d =? 0 then [EPrintf (NExitValue 0)]
    else [EPrintf (NExitedValue (exitStatus d))]
  else if negb (signaled d =? 0) then
    [EPrintf (NTerminatedBySignal (termSignal d))]
  else [].

(** A command that is none of the three built-in commands, on a line that
    is not a comment. *)
Definition is_external (commands : CommandLine) : Prop :=
  exists arr0,
    size commands <> 0 /\
    arr commands !! 0%nat = Some (Some arr0) /\
    first_char_is "#" arr0 = false /\
    arr0 <> "cd"%string /\ arr0 <> "status"%string /\ arr0 <> "exit"%string.

(** The state an outcome carries, when the process is still the shell. *)
Definition outcome_state (o : Outcome) : option Shell :=
  match o with
  | Continue s | Exit _ s | Aborted s => Some s
  | InChild _ _ | Undefined => None
  end.

End Waits.

(** ** Inputs of the examples *)

Definition three_children : Table :=
  {| procs := [mkProc 100 0 false; mkProc 200 0 false; mkProc 300 0 true];
     upcoming := [] |}.

Definition three_children_world : World :=
  {| os := three_children; trace := [] |}.

(** No child yet; the next fork creates child 300, which ends with
    [status]. *)
Definition one_upcoming (status : Z) : Table :=
  {| procs := []; upcoming := [mkProc 300 status false] |}.

Definition child_300 (status : Z) : Table :=
  {| procs := [mkProc 300 status false]; upcoming := [] |}.

Definition child_300_world (status : Z) : World :=
  {| os := child_300 status; trace := [] |}.

Definition no_child : Table := {| procs := []; upcoming := [] |}.

Definition two_ended : Table :=
  {| procs := [mkProc 100 0 true; mkProc 200 0 true]; upcoming := [] |}.

Definition two_ended_world : World := {| os := two_ended; trace := [] |}.

(** Child 300 has ended with [status] and is not waited for yet. *)
Definition ended_300_world (status : Z) : World :=
  {| os := {| procs := [mkProc 300 status true]; upcoming := [] |};
     trace := [] |}.

(** The shell at start, and after one SIGTSTP. *)
Definition fresh_shell (status : Z) : Shell := initShell (one_upcoming status).

Definition foreground_only_shell : Shell := parentCatchSIGTSTP (fresh_shell 0).

Definition example_ops : list RegistryOp :=
  [OpAdd 100 (sleep_command 0) 0; OpAdd 200 (sleep_command 1) 1;
   OpRemove 100; OpRemove 300; OpAdd 400 (sleep_command 1) 1].

Definition example_words : list string :=
  ["ls"; "-l"; "a"; "b"; "c"; "d"; "e"; "f"; "g"; "h"; "i"]%string.

(** ** Predicates of the further properties *)

(** The number of dollar signs of a string. *)
Fixpoint dollars (s : string) : nat :=
  match s with
  | EmptyString => 0
  | String c rest => (if Ascii.eqb c "$" then 1 else 0) + dollars rest
  end.

Definition no_dollar (s : string) : Prop := dollars s = 0%nat.

(** One pass from the left that replaces each "$$" it meets by [pidStr]. *)
Fixpoint replace_all (pidStr : string) (s : string) : string :=
  match s with
  | String "$" (String "$" rest) => pidStr +:+ replace_all pidStr rest
  | String c rest => String c (replace_all pidStr rest)
  | EmptyString => EmptyString
  end.

(** [expandShellPid] prints the identifier into [char pidStr[8]]: its
    decimal string has at most 7 characters. *)
Definition fits_pid_buffer (pidStr : string) : Prop :=
  (String.length pidStr < 8)%nat.

(** A word of a line: not empty and without a space. *)
Definition no_space (w : list ascii) : Prop := Forall (fun c => c <> " "%char) w.

Definition is_word (w : string) : Prop :=
  w <> EmptyString /\ no_space (list_ascii_of_string w).

(** A word that is not one of the two redirection symbols. *)
Definition argument_word (w : string) : Prop :=
  is_word w /\ w <> "<"%string /\ w <> ">"%string.

(** The tokens of a redirection, when there is one. *)
Definition redirection (symbol : string) (file : option string) : list string :=
  match file with
  | Some path => [symbol; path]
  | None => []
  end.

Definition ampersand (background : bool) : list string :=
  if background then ["&"%string] else [].

(** The words of a line, separated by single spaces. *)
Definition line_of (words : list string) : string := String.concat " " words.

(** The words of a command that is none of the three built-in commands and
    no comment. *)
Definition external_words (args : list string) : Prop :=
  exists arg0 rest,
    args = arg0 :: rest /\
    first_char_is "#" arg0 = false /\
    arg0 <> "cd"%string /\ arg0 <> "status"%string /\ arg0 <> "exit"%string.

(** An [open] or [dup2] of the child that returned -1. *)
Definition failed_redirection (e : ChildEvent) : Prop :=
  match e with
  | CEOpen _ _ ret | CEDup2 _ _ ret => ret = -1
  | CEExecvp _ _ => False
  end.

(** The files the child opened and the descriptors it duplicated onto, in
    order. *)
Definition opened (tr : list ChildEvent) : list (string * open_how) :=
  omap (fun e => match e with CEOpen path h _ => Some (path, h) | _ => None end) tr.

Definition duplicated_onto (tr : list ChildEvent) : list Z :=
  omap (fun e => match e with CEDup2 _ newfd _ => Some newfd | _ => None end) tr.

(** An [open] or [dup2] of the child that did not return -1. *)
Definition succeeded_redirection (e : ChildEvent) : Prop :=
  match e with
  | CEOpen _ _ ret | CEDup2 _ _ ret => ret <> -1
  | CEExecvp _ _ => False
  end.

(** The files [execHandle] is to open for a command and the descriptors it
    is to replace, in the order of the source. *)
Definition expected_opens (c : CommandLine) : list (string * open_how) :=
  match inputFile c with Some path => [(path, OPEN_RDONLY)] | None => [] end
  ++ match outputFile c with
     | Some path => [(path, OPEN_WRONLY_CREAT_TRUNC_0644)]
     | None => []
     end.

Definition expected_targets (c : CommandLine) : list Z :=
  match inputFile c with Some _ => [0] | None => [] end
  ++ match outputFile c with Some _ => [1] | None => [] end.

(** The events of a parent that are a [fork] or a [waitpid]. *)
Definition is_fork_or_wait (e : Event) : bool :=
  match e with
  | EFork _ | EWaitpid _ _ _ => true
  | _ => false
  end.

(** A run of events without a [fork] and without a [waitpid]. *)
Definition quiet (evs : list Event) : Prop :=
  Forall (fun e => is_fork_or_wait e = false) evs.

(** The [waitpid] calls of a trace. *)
Definition is_wait (e : Event) : bool :=
  match e with EWaitpid _ _ _ => true | _ => false end.

(** ** Further inputs of the examples *)

(** 49 children in the registry, and a fork that creates child 300. *)
Definition crowded_shell : Shell :=
  {| BGAllowed := 1;
     children := registry_of (map Z.of_nat (seq 1 49));
     lastFGExitMethod := 0; decoded := None; keepGoing := 1;
     world := {| os := one_upcoming 0; trace := [] |} |}.

(** No fork succeeds. *)
Definition exhausted_shell : Shell := initShell no_child.

(** The table as the child sees it: its [fork] has returned 0. *)
Definition child_side : Table :=
  {| procs := []; upcoming := [mkProc 0 0 false] |}.

(** The table of the child once it runs. *)
Definition forked_child : Table :=
  {| procs := [mkProc 0 0 false]; upcoming := [] |}.

(** The shell at start and after one SIGTSTP, in front of that fork. *)
Definition child_shell : Shell := initShell child_side.

Definition foreground_only_child_shell : Shell := parentCatchSIGTSTP child_shell.

(** A file system with one file to read and the program "sort". *)
Definition some_files : Files :=
  {| openable := ["in.txt"%string]; programs := ["sort"%string]; next_fd := 3 |}.

Definition sort_command (input output : option string) : CommandLine :=
  {| capacity := 10; size := 1; bg := 0;
     inputFile := input; outputFile := output;
     arr := [Some "sort"%string] ++ replicate 9 None |}.

(** What [parseLine] returns on "status" and on "cd /tmp x". *)
Definition status_command : CommandLine :=
  {| capacity := 10; size := 1; bg := 0;
     inputFile := None; outputFile := None;
     arr := [Some "status"%string] ++ replicate 9 None |}.

Definition cd_command : CommandLine :=
  {| capacity := 10; size := 3; bg := 0;
     inputFile := None; outputFile := None;
     arr := [Some "cd"%string; Some "/tmp"%string; Some "x"%string]
              ++ replicate 7 None |}.

(** The shell after a foreground child that ended with [status]. *)
Definition shell_after (status : Z) : Shell :=
  {| BGAllowed := 1; children := initChildrenPids;
     lastFGExitMethod := status; decoded := None; keepGoing := 1;
     world := {| os := no_child; trace := [] |} |}.

(** Two background children that have ended and are not waited for yet. *)
Definition busy_shell : Shell :=
  {| BGAllowed := 1; children := registry_of [100; 200];
     lastFGExitMethod := 0; decoded := None; keepGoing := 1;
     world := two_ended_world |}.

(** A registry whose children the table does not know. *)
Definition no_child_world : World := {| os := no_child; trace := [] |}.

(** The world of [busy_shell] after the line "status". *)
Definition status_answer : World :=
  {| os := two_ended; trace := [EPrintf NPrompt; EPrintf (NExitValue 0)] |}.

(** Children 100 and 200, both running. *)
Definition two_running_world : World :=
  {| os := {| procs := [mkProc 100 0 false; mkProc 200 0 false]; upcoming := [] |};
     trace := [] |}.

(** What the sweep of [two_ended_world] leaves. *)
Definition swept_world : World :=
  {| os := {| procs := [mkProc 200 0 true]; upcoming := [] |};
     trace := [EWaitpid 100 WNOHANG 100; EPrintf (NBackgroundFinished 100);
               EPrintf (NExitValue 0)] |}.

(** * Proofs *)

(** ** Machine integers *)

Lemma wrap_int_small (z : Z) :
  -2147483648 <= z <= INT_MAX -> wrap_int z = z.
Proof.
  unfold wrap_int, INT_MAX. intros Hz.
  rewrite Z.mod_small by lia. lia.
Qed.

(** ** The registry *)

Lemma link_at_end_app temp rest l :
  link_at_end temp rest l = (temp :: rest) ++ [l].
Proof.
  revert temp. induction rest as [|nxt rest IH]; intros temp; simpl; [done|].
  by rewrite IH.
Qed.

Lemma addChildrenPids_ok children p c b :
  registry_ok children ->
  Z.of_nat (length (cp_list children)) < INT_MAX ->
  addChildrenPids children p c b =
    Some {| cp_size := cp_size children + 1;
            cp_list := cp_list children ++ [initLink p c b] |}.
Proof.
  intros [Hsz Hmax] Hlt. unfold addChildrenPids.
  rewrite wrap_int_small by (unfold INT_MAX in *; lia).
  destruct (cp_size children =? 0) eqn:E.
  - apply Z.eqb_eq in E. destruct (cp_list children); [done|simpl in *; lia].
  - apply Z.eqb_neq in E. destruct (cp_list children) as [|temp rest].
    + simpl in *; lia.
    + by rewrite link_at_end_app.
Qed.

Lemma search_links_bool l num : search_links l num = 0 \/ search_links l num = 1.
Proof. induction l as [|x l IH]; simpl; [by left|]. destruct (pidNo x =? num); auto. Qed.

Lemma search_links_elem l num : search_links l num = 1 <-> num ∈ map pidNo l.
Proof.
  induction l as [|x l IH]; simpl.
  - split; [lia|]. intros H; by apply elem_of_nil in H.
  - rewrite elem_of_cons. destruct (pidNo x =? num) eqn:E.
    + apply Z.eqb_eq in E. split; auto.
    + apply Z.eqb_neq in E. rewrite IH. split; [auto|]. intros [?|?]; [congruence|done].
Qed.

Lemma inChildrenPids_elem children num :
  registry_ok children ->
  inChildrenPids children num = 1 <-> num ∈ pids children.
Proof.
  intros [Hsz _]. unfold inChildrenPids, pids.
  destruct (cp_size children =? 0) eqn:E.
  - apply Z.eqb_eq in E. destruct (cp_list children); [|simpl in *; lia].
    simpl. split; [lia|]. intros H; by apply elem_of_nil in H.
  - apply search_links_elem.
Qed.

Lemma inChildrenPids_bool children num :
  inChildrenPids children num = 0 \/ inChildrenPids children num = 1.
Proof.
  unfold inChildrenPids. destruct (cp_size children =? 0); [by left|].
  apply search_links_bool.
Qed.

Lemma inChildrenPids_not_elem children num :
  registry_ok children ->
  inChildrenPids children num = 0 <-> num ∉ pids children.
Proof.
  intros Hok. rewrite <- (inChildrenPids_elem _ _ Hok).
  destruct (inChildrenPids_bool children num) as [H|H]; rewrite H; split; (lia || done).
Qed.

Lemma unlink_next_spec temp rest num :
  search_links rest num = 1 ->
  unlink_next temp rest num = Some (temp :: remove_first num rest).
Proof.
  revert temp. induction rest as [|nxt rest IH]; intros temp; simpl; [lia|].
  destruct (pidNo nxt =? num); [done|]. intros H. by rewrite (IH nxt H).
Qed.

Lemma remove_first_length num l :
  num ∈ map pidNo l -> length l = Datatypes.S (length (remove_first num l)).
Proof.
  induction l as [|x l IH]; simpl.
  - intros H; by apply elem_of_nil in H.
  - rewrite elem_of_cons. destruct (pidNo x =? num) eqn:E; [done|].
    apply Z.eqb_neq in E. intros [?|H]; [congruence|]. simpl. by rewrite <- IH.
Qed.

Lemma remove_first_elem num l x :
  x ∈ map pidNo (remove_first num l) -> x ∈ map pidNo l.
Proof.
  induction l as [|y l IH]; simpl; [done|].
  destruct (pidNo y =? num); simpl; rewrite !elem_of_cons; intros; intuition.
Qed.

Lemma remove_first_other num l x :
  x <> num -> x ∈ map pidNo l -> x ∈ map pidNo (remove_first num l).
Proof.
  intros Hne. induction l as [|y l IH]; simpl; [done|].
  destruct (pidNo y =? num) eqn:E; simpl; rewrite !elem_of_cons.
  - apply Z.eqb_eq in E. intros [?|?]; [congruence|done].
  - intros [?|?]; auto.
Qed.

Lemma remove_first_NoDup num l :
  NoDup (map pidNo l) ->
  NoDup (map pidNo (remove_first num l)) /\ num ∉ map pidNo (remove_first num l).
Proof.
  induction l as [|y l IH]; simpl.
  - intros _. split; [constructor|]. intros H; by apply elem_of_nil in H.
  - rewrite NoDup_cons. intros [Hy Hl]. destruct (pidNo y =? num) eqn:E; simpl.
    + apply Z.eqb_eq in E. subst num. done.
    + apply Z.eqb_neq in E. destruct (IH Hl) as [IH1 IH2]. split.
      * rewrite NoDup_cons. split; [|done]. intros H; apply Hy.
        by eapply remove_first_elem.
      * rewrite elem_of_cons. intros [?|?]; [congruence|done].
Qed.

Lemma remove_first_absent num l :
  num ∉ map pidNo l -> remove_first num l = l.
Proof.
  induction l as [|y l IH]; simpl; [done|].
  rewrite elem_of_cons. intros H. destruct (pidNo y =? num) eqn:E.
  - apply Z.eqb_eq in E. exfalso; apply H; by left.
  - rewrite IH; [done|]. intros ?; apply H; by right.
Qed.

(** What [deleteChildrenPids] does on a registry whose size is right. *)
Lemma deleteChildrenPids_present children num :
  registry_ok children ->
  num ∈ pids children ->
  deleteChildrenPids children num =
    Some ({| cp_size := cp_size children - 1;
             cp_list := remove_first num (cp_list children) |}, 1).
Proof.
  intros Hok Hin. pose proof Hok as [Hsz Hmax].
  unfold deleteChildrenPids.
  rewrite (proj2 (inChildrenPids_elem _ _ Hok) Hin). simpl.
  rewrite wrap_int_small by (unfold INT_MAX in *; lia).
  unfold pids in Hin. destruct (cp_list children) as [|first rest] eqn:El.
  - by apply elem_of_nil in Hin.
  - simpl. destruct (pidNo first =? num) eqn:E; [done|].
    apply Z.eqb_neq in E. simpl in Hin. rewrite elem_of_cons in Hin.
    destruct Hin as [?|Hin]; [congruence|].
    rewrite unlink_next_spec; [done|]. by apply search_links_elem.
Qed.

Lemma deleteChildrenPids_absent children num :
  registry_ok children ->
  num ∉ pids children ->
  deleteChildrenPids children num = Some (children, 0).
Proof.
  intros Hok Hin. unfold deleteChildrenPids.
  by rewrite (proj2 (inChildrenPids_not_elem _ _ Hok) Hin).
Qed.

Lemma registry_ok_remove children num :
  registry_ok children ->
  num ∈ pids children ->
  registry_ok {| cp_size := cp_size children - 1;
                 cp_list := remove_first num (cp_list children) |}.
Proof.
  intros [Hsz Hmax] Hin. unfold registry_ok; simpl.
  rewrite (remove_first_length num (cp_list children) Hin) in Hsz, Hmax. lia.
Qed.

Lemma registry_ok_add children l :
  registry_ok children ->
  Z.of_nat (length (cp_list children)) < INT_MAX ->
  registry_ok {| cp_size := cp_size children + 1; cp_list := cp_list children ++ [l] |}.
Proof.
  intros [Hsz Hmax] Hlt. unfold registry_ok; simpl.
  rewrite length_app; simpl. lia.
Qed.

(** ** Sequences of add and remove *)

Lemma successful_removes_app r1 r2 :
  successful_removes (r1 ++ r2) = successful_removes r1 ++ successful_removes r2.
Proof. unfold successful_removes. apply filter_app. Qed.

Lemma run_registry_inv (ops : list RegistryOp) :
  forall (c : ChildrenPids) (ret0 : list (Z * Z)),
    registry_ok c ->
    Z.of_nat (length (cp_list c)) + Z.of_nat (length ops) <= INT_MAX ->
    NoDup (pids c ++ added_pids ops) ->
    (forall id, (id, 1) ∈ ret0 -> id ∉ pids c ++ added_pids ops) ->
    exists r more,
      run_registry ops c ret0 = Some (r, ret0 ++ more) /\
      registry_ok r /\
      NoDup (pids r) /\
      cp_size r = cp_size c + Z.of_nat (length (added_pids ops))
                  - Z.of_nat (length (successful_removes more)) /\
      (forall id, (id, 1) ∈ ret0 ++ more -> id ∉ pids r) /\
      (forall id, id ∈ pids c ++ added_pids ops -> (id, 1) ∉ ret0 ++ more ->
                  id ∈ pids r).
Proof.
  induction ops as [|op ops IH]; intros c ret0 Hok Hlen Hnd Hrem.
  - exists c, []. simpl in *. rewrite !app_nil_r in *.
    split_and!; try done. lia.
  - cbn [length] in Hlen. rewrite Nat2Z.inj_succ in Hlen.
    destruct op as [p cmd b|p]; simpl in Hnd, Hrem |- *.
    + rewrite addChildrenPids_ok by (done || lia). simpl.
      set (c' := {| cp_size := cp_size c + 1;
                    cp_list := cp_list c ++ [initLink p cmd b] |}).
      assert (Hp : pids c' = pids c ++ [p]).
      { unfold pids, c'; simpl. by rewrite map_app. }
      assert (Happ : pids c' ++ added_pids ops = pids c ++ p :: added_pids ops).
      { rewrite Hp, <- app_assoc. done. }
      destruct (IH c' ret0) as (r & more & Hrun & Hokr & Hndr & Hsz & Hgone & Hkept).
      * apply registry_ok_add; [done|lia].
      * unfold c'; cbn [cp_list]. rewrite length_app, Nat2Z.inj_add. simpl. lia.
      * by rewrite Happ.
      * intros id Hid. rewrite Happ. by apply Hrem.
      * exists r, more. split_and!; try done.
        -- rewrite Hsz. unfold c'; cbn [cp_size length]. lia.
        -- intros id Hid. apply Hkept. by rewrite Happ.
    + destruct (decide (p ∈ pids c)) as [Hin|Hin].
      * rewrite deleteChildrenPids_present by done. simpl.
        set (c' := {| cp_size := cp_size c - 1;
                      cp_list := remove_first p (cp_list c) |}).
        apply NoDup_app in Hnd as (Hnd1 & Hnd2 & Hnd3).
        destruct (remove_first_NoDup p (cp_list c) Hnd1) as [Hnd1' Hp'].
        destruct (IH c' (ret0 ++ [(p, 1)])) as (r & more & Hrun & Hokr & Hndr & Hsz & Hgone & Hkept).
        -- by apply registry_ok_remove.
        -- unfold c'; simpl.
           pose proof (remove_first_length p (cp_list c) Hin). lia.
        -- apply NoDup_app. split_and!; try done.
           intros x Hx. apply Hnd2. eapply remove_first_elem. exact Hx.
        -- intros id Hid. apply elem_of_app in Hid as [Hid|Hid].
           ++ intros Hx. apply (Hrem id Hid).
              apply elem_of_app in Hx as [Hx|Hx]; apply elem_of_app; [left|by right].
              eapply remove_first_elem. exact Hx.
           ++ apply list_elem_of_singleton in Hid. injection Hid as ->.
              intros Hx. apply elem_of_app in Hx as [Hx|Hx]; [done|].
              by apply (Hnd2 p).
        -- exists r, ((p, 1) :: more).
           replace (ret0 ++ (p, 1) :: more) with ((ret0 ++ [(p, 1)]) ++ more)
             by (by rewrite <- app_assoc).
           split_and!; try done.
           ++ rewrite Hsz. unfold c'; cbn [cp_size].
              change ((p, 1) :: more) with ([(p, 1)] ++ more).
              rewrite successful_removes_app, length_app. simpl. lia.
           ++ intros id Hid Hnot. apply Hkept; [|done].
              assert (id <> p).
              { intros ->. apply Hnot. apply elem_of_app. left.
                apply elem_of_app. right. by apply list_elem_of_singleton. }
              apply elem_of_app in Hid as [Hid|Hid]; apply elem_of_app; [left|by right].
              apply remove_first_other; [done|exact Hid].
      * rewrite deleteChildrenPids_absent by done. simpl.
        destruct (IH c (ret0 ++ [(p, 0)])) as (r & more & Hrun & Hokr & Hndr & Hsz & Hgone & Hkept).
        -- done.
        -- lia.
        -- done.
        -- intros id Hid. apply elem_of_app in Hid as [Hid|Hid]; [by apply Hrem|].
           apply list_elem_of_singleton in Hid. discriminate.
        -- exists r, ((p, 0) :: more).
           replace (ret0 ++ (p, 0) :: more) with ((ret0 ++ [(p, 0)]) ++ more)
             by (by rewrite <- app_assoc).
           split_and!; done.
Qed.

(** ** The shutdown protocol *)

Section Shutdown.

Context {WM : WaitMacros} {SY : Sys}.

Lemma count_events_app f evs1 evs2 :
  count_events f (evs1 ++ evs2) = (count_events f evs1 + count_events f evs2)%nat.
Proof. induction evs1 as [|e evs1 IH]; simpl; [done|]. rewrite IH. lia. Qed.

Lemma terminated_notices_app evs1 evs2 :
  terminated_notices (evs1 ++ evs2) = terminated_notices evs1 ++ terminated_notices evs2.
Proof. unfold terminated_notices. apply omap_app. Qed.

(** The first entry of a registry that is not empty is found by
    [deleteChildrenPids]. *)
Lemma delete_first children :
  registry_ok children ->
  cp_size children <> 0 ->
  exists first rest,
    cp_list children = first :: rest /\
    deleteChildrenPids children (pidNo first) =
      Some ({| cp_size := cp_size children - 1; cp_list := rest |}, 1).
Proof.
  intros Hok Hsz. pose proof Hok as [Hlen _].
  destruct (cp_list children) as [|first rest] eqn:El; [simpl in *; lia|].
  exists first, rest. split; [done|].
  rewrite deleteChildrenPids_present; [|done|].
  - rewrite El. simpl. by rewrite Z.eqb_refl.
  - unfold pids. rewrite El. simpl. apply elem_of_cons. by left.
Qed.

Lemma registry_ok_tail children first rest :
  registry_ok children ->
  cp_list children = first :: rest ->
  registry_ok {| cp_size := cp_size children - 1; cp_list := rest |}.
Proof.
  intros [Hsz Hmax] El. rewrite El in Hsz, Hmax. unfold registry_ok. simpl in *. lia.
Qed.

Lemma exitHandle_loop_attempts (fuel : nat) :
  forall (w : World) (children : ChildrenPids) (i : Z),
    registry_ok children ->
    0 <= i <= 50 ->
    50 - i <= Z.of_nat fuel ->
    exists n w' children',
      exitHandle_loop fuel w children i = Some (w', children') /\
      attempts n (w, children) (w', children') /\
      Z.of_nat n <= 50 - i /\
      (cp_size children' = 0 \/ Z.of_nat n = 50 - i) /\
      registry_ok children'.
Proof.
  induction fuel as [|fuel IH]; intros w children i Hok Hi Hfuel.
  - assert (i = 50) as -> by lia. simpl.
    rewrite andb_false_r. exists 0%nat, w, children.
    split_and!; [done|constructor|lia|by right|done].
  - cbn [exitHandle_loop].
    destruct (negb (cp_size children =? 0) && (i <? 50)) eqn:Econd.
    + apply andb_true_iff in Econd as [Hne Hlt].
      apply negb_true_iff, Z.eqb_neq in Hne. apply Z.ltb_lt in Hlt.
      destruct (delete_first children Hok Hne) as (first & rest & El & Hdel).
      rewrite El. unfold kill.
      destruct (sys_kill (os w) (pidNo first) SIGTERM) as [o ret] eqn:Ekill.
      rewrite wrap_int_small by (unfold INT_MAX; lia).
      destruct (ret =? 0) eqn:Eret.
      * apply Z.eqb_eq in Eret. subst ret. rewrite Hdel. simpl.
        match goal with
        | |- context [exitHandle_loop fuel ?w1 ?c1 ?i1] =>
            destruct (IH w1 c1 i1)
              as (n & w' & children' & Hrun & Hatt & Hn & Hend & Hok');
              [by eapply registry_ok_tail|lia|lia|]
        end.
        exists (Datatypes.S n), w', children'. rewrite Hrun.
        split_and!; [done| |lia|destruct Hend; [by left|right; lia]|done].
        eapply attempts_S; [|exact Hatt].
        eapply attempt_success; [exact El|exact Ekill|].
        simpl. by rewrite <- !app_assoc.
      * apply Z.eqb_neq in Eret.
        match goal with
        | |- context [exitHandle_loop fuel ?w1 ?c1 ?i1] =>
            destruct (IH w1 c1 i1)
              as (n & w' & children' & Hrun & Hatt & Hn & Hend & Hok');
              [done|lia|lia|]
        end.
        exists (Datatypes.S n), w', children'. rewrite Hrun.
        split_and!; [done| |lia|destruct Hend; [by left|right; lia]|done].
        eapply attempts_S; [|exact Hatt].
        eapply attempt_failure; [exact El|exact Ekill|done|].
        simpl. by rewrite <- !app_assoc.
    + exists 0%nat, w, children. split_and!; [done|constructor|lia| |done].
      apply andb_false_iff in Econd as [H|H].
      * left. apply negb_false_iff in H. by apply Z.eqb_eq in H.
      * right. apply Z.ltb_ge in H. lia.
Qed.

Lemma attempt_registry_ok x y :
  attempt x y -> registry_ok (snd x) -> registry_ok (snd y).
Proof.
  intros Hatt. destruct Hatt; simpl; [|done].
  intros Hok. by eapply registry_ok_tail.
Qed.

Lemma attempts_registry_ok n x y :
  attempts n x y -> registry_ok (snd x) -> registry_ok (snd y).
Proof.
  induction 1 as [|n x y z Hxy Hyz IH]; [done|].
  intros Hok. apply IH. by eapply attempt_registry_ok.
Qed.

(** What a run of attempts writes: never the notice of the branch taken
    when the removal finds nothing, and the other deletion notice once per
    entry removed. *)
Lemma attempts_trace n x y :
  attempts n x y ->
  exists evs,
    trace (fst y) = trace (fst x) ++ evs /\
    count_events is_sucessfully_deleted evs = 0%nat /\
    count_events is_error_deleting evs = length (terminated_notices evs) /\
    Z.of_nat (count_events is_error_deleting evs) = cp_size (snd x) - cp_size (snd y).
Proof.
  induction 1 as [x|n x y z Hxy Hyz (evs & Ht & Hs & He & Hc)].
  - exists []. rewrite app_nil_r. simpl. split_and!; try done. lia.
  - destruct Hxy as [w c w' first rest El Hk Htr|w c w' first rest ret El Hk Hret Htr];
      simpl in *; rewrite Ht, Htr, <- app_assoc; eexists; (split; [reflexivity|]);
      rewrite !count_events_app, terminated_notices_app, length_app, Hs, <- He;
      simpl; split_and!; try done; lia.
Qed.

(** When every request of the run is accepted, each attempt removes the
    first entry. *)
Lemma attempts_all_accept n :
  forall w c w' c' evs,
    attempts n (w, c) (w', c') ->
    trace w' = trace w ++ evs ->
    (forall p sg ret, EKill p sg ret ∈ evs -> ret = 0) ->
    (n <= length (cp_list c))%nat /\
    cp_list c' = drop n (cp_list c) /\
    terminated_notices evs = take n (pids c) /\
    count_events is_failure_notice evs = 0%nat.
Proof.
  induction n as [|n IH]; intros w c w' c' evs Hatt Ht Hacc.
  - inversion Hatt; subst.
    rewrite <- (app_nil_r (trace w')) in Ht at 1. apply app_inv_head in Ht.
    subst evs. split; [lia|]. by split.
  - inversion Hatt as [|n' x [w1 c1] z Hxy Hyz]; subst.
    destruct (attempts_trace _ _ _ Hyz) as (evs1 & Ht1 & _). simpl in Ht1.
    inversion Hxy as [? ? ? first rest El Hk Htr|? ? ? first rest ret El Hk Hret Htr];
      subst; rewrite Ht1, Htr, <- app_assoc in Ht; apply app_inv_head in Ht;
      subst evs.
    + destruct (IH w1 _ w' c' evs1 Hyz Ht1) as (Hn & Hl & Hp & Hf).
      { intros p sg ret Hin. apply (Hacc p sg ret).
        apply elem_of_app. by right. }
      simpl in Hn, Hl. unfold pids in *. rewrite El. simpl in *.
      split; [lia|]. split; [done|].
      change (terminated_notices
                (EKill (pidNo first) SIGTERM 0
                 :: EPrintf (NProcessTerminated (pidNo first))
                 :: EPrintf NErrorDeleting :: evs1))
        with (pidNo first :: terminated_notices evs1).
      by rewrite Hp, Hf.
    + exfalso. apply Hret. apply (Hacc (pidNo first) SIGTERM ret).
      apply elem_of_app. left. apply elem_of_cons. by left.
Qed.

End Shutdown.

(** ** The argument vector *)

Lemma wrap_int_double (c : Z) :
  1 <= c <= INT_MAX -> 0 <= wrap_int (2 * c) -> wrap_int (2 * c) = 2 * c /\ 2 * c <= INT_MAX.
Proof.
  unfold wrap_int, INT_MAX. intros Hc Hw.
  destruct (Z_lt_le_dec (2 * c) 2147483648) as [Hlt|Hge].
  - rewrite Z.mod_small in * by lia. lia.
  - exfalso.
    assert (H : (2 * c + 2147483648) mod 4294967296 = 2 * c - 2147483648).
    { symmetry. apply (Z.mod_unique_pos _ _ 1). lia. lia. }
    lia.
Qed.

Lemma insert_slot (strs : list string) (m i : nat) (s : string) :
  i = length strs ->
  <[i := Some s]> (map Some strs ++ replicate (Datatypes.S m) None)
  = map Some (strs ++ [s]) ++ replicate m None.
Proof.
  intros ->. rewrite insert_app_r_alt by (rewrite length_map; lia).
  rewrite length_map, Nat.sub_diag. simpl.
  by rewrite map_app, <- app_assoc.
Qed.

Lemma copy_strings_spec (k : nat) :
  forall (i : nat) (strs : list string) (rest : list (option string)) (m : nat),
    (i + k = length strs)%nat ->
    (k <= m)%nat ->
    copy_strings k i (map Some strs ++ rest)
                 (map Some (take i strs) ++ replicate m None)
    = Some (map Some strs ++ replicate (m - k) None).
Proof.
  induction k as [|k IH]; intros i strs rest m Hik Hkm.
  - simpl. rewrite Nat.add_0_r in Hik. subst i.
    by rewrite firstn_all, Nat.sub_0_r.
  - destruct (lookup_lt_is_Some_2 strs i ltac:(lia)) as [s Hs].
    cbn [copy_strings].
    rewrite lookup_app_l by (rewrite length_map; lia).
    rewrite list_lookup_fmap, Hs. simpl.
    destruct m as [|m]; [lia|].
    assert (Hlen : length (take i strs) = i) by (rewrite length_take; lia).
    replace (i <? length (map Some (take i strs) ++ replicate (Datatypes.S m) None))%nat
      with true
      by (symmetry; apply Nat.ltb_lt; rewrite length_app, length_map, length_replicate; lia).
    rewrite insert_slot by done.
    rewrite <- (take_S_r strs i s Hs).
    rewrite (IH (Datatypes.S i) strs rest m) by lia.
    by replace (Datatypes.S m - Datatypes.S k)%nat with (m - k)%nat by lia.
Qed.

Lemma initCommandLine_ok (cap : Z) :
  1 <= cap <= INT_MAX ->
  exists r, initCommandLine cap = Some r /\ commandline_ok r [] /\ capacity r = cap.
Proof.
  intros Hc. unfold initCommandLine.
  replace (cap <? 0) with false by (symmetry; apply Z.ltb_ge; lia).
  eexists. split; [reflexivity|]. split; [|done].
  unfold commandline_ok; simpl. split_and!; try lia.
  by rewrite Z.sub_0_r.
Qed.

(** The last two statements of [addCommandLine], on an array with a free
    cell. *)
Lemma store_string_ok (r1 : CommandLine) (strs : list string) (str : string) :
  commandline_ok r1 strs ->
  size r1 + 1 < capacity r1 ->
  forall r',
    (i ← index_in (size r1) (length (arr r1));
     Some {| capacity := capacity r1; size := wrap_int (size r1 + 1);
             bg := bg r1; inputFile := inputFile r1;
             outputFile := outputFile r1;
             arr := <[i := Some str]> (arr r1) |}) = Some r' ->
    commandline_ok r' (strs ++ [str]).
Proof.
  intros (Hcap1 & Hsz1 & Hlt1 & Harr1) Hfree r' Hadd.
  unfold index_in in Hadd.
  destruct ((0 <=? size r1) && (size r1 <? Z.of_nat (length (arr r1)))) eqn:Ei;
    [|done].
  simpl in Hadd. injection Hadd as <-.
  unfold commandline_ok; simpl.
  rewrite wrap_int_small by (unfold INT_MAX in *; lia).
  rewrite length_app, Nat2Z.inj_add. simpl.
  split_and!; try lia.
  rewrite Harr1, Hsz1, Nat2Z.id.
  replace (Z.to_nat (capacity r1 - Z.of_nat (length strs)))
    with (Datatypes.S (Z.to_nat (capacity r1 - (Z.of_nat (length strs) + 1)))) by lia.
  by apply insert_slot.
Qed.

(** One [addCommandLine] keeps the shape of the array, when it returns. *)
Lemma addCommandLine_ok (r : CommandLine) (strs : list string) (str : string) :
  commandline_ok r strs ->
  forall r', addCommandLine r str = Some r' -> commandline_ok r' (strs ++ [str]).
Proof.
  intros Hok r' Hadd. pose proof Hok as (Hcap & Hsz & Hlt & Harr).
  unfold addCommandLine in Hadd.
  destruct (size r =? capacity r - 1) eqn:E.
  - apply Z.eqb_eq in E. cbv zeta in Hadd.
    destruct (wrap_int (2 * capacity r) <? 0) eqn:En; [done|].
    apply Z.ltb_ge in En.
    destruct (wrap_int_double (capacity r) Hcap En) as [Hw Hmax].
    replace (size r <? 0) with false in Hadd by (symmetry; apply Z.ltb_ge; lia).
    assert (Hw2 : wrap_int (capacity r * 2) = capacity r * 2)
      by (rewrite (Z.mul_comm (capacity r) 2); lia).
    rewrite Harr, Hsz, Nat2Z.id, Hw, Hw2 in Hadd.
    pose proof (copy_strings_spec (length strs) 0 strs
                  (replicate (Z.to_nat (capacity r - Z.of_nat (length strs))) None)
                  (Z.to_nat (2 * capacity r))) as Hcopy.
    simpl in Hcopy. rewrite Hcopy in Hadd by lia. cbn [mbind option_bind] in Hadd.
    eapply (store_string_ok _ strs str); [| |exact Hadd].
    + unfold commandline_ok; simpl. split_and!; try lia.
      do 2 f_equal. lia.
    + simpl. lia.
  - apply Z.eqb_neq in E. cbn [mbind option_bind] in Hadd.
    eapply (store_string_ok _ strs str); [exact Hok| |exact Hadd]. lia.
Qed.

(** It returns whenever doubling the capacity stays inside an [int]. *)
Lemma addCommandLine_returns (r : CommandLine) (strs : list string) (str : string) :
  commandline_ok r strs ->
  2 * (size r + 1) <= INT_MAX ->
  is_Some (addCommandLine r str).
Proof.
  intros (Hcap & Hsz & Hlt & Harr) Hmax. unfold addCommandLine.
  destruct (size r =? capacity r - 1) eqn:E.
  - apply Z.eqb_eq in E. cbv zeta.
    assert (Hw : wrap_int (2 * capacity r) = 2 * capacity r)
      by (apply wrap_int_small; unfold INT_MAX in *; lia).
    assert (Hw2 : wrap_int (capacity r * 2) = capacity r * 2)
      by (rewrite (Z.mul_comm (capacity r) 2); lia).
    rewrite Hw, Hw2.
    replace (2 * capacity r <? 0) with false by (symmetry; apply Z.ltb_ge; lia).
    replace (size r <? 0) with false by (symmetry; apply Z.ltb_ge; lia).
    rewrite Harr, Hsz, Nat2Z.id.
    pose proof (copy_strings_spec (length strs) 0 strs
                  (replicate (Z.to_nat (capacity r - Z.of_nat (length strs))) None)
                  (Z.to_nat (2 * capacity r))) as Hcopy.
    simpl in Hcopy. rewrite Hcopy by lia. cbn [mbind option_bind].
    unfold index_in. cbn [size arr].
    rewrite length_app, length_map, length_replicate.
    replace ((0 <=? Z.of_nat (length strs)) &&
             (Z.of_nat (length strs) <?
              Z.of_nat (length strs + (Z.to_nat (2 * capacity r) - length strs))))
      with true; [done|].
    symmetry. apply andb_true_iff. split; [apply Z.leb_le|apply Z.ltb_lt]; lia.
  - apply Z.eqb_neq in E. cbn [mbind option_bind]. unfold index_in.
    rewrite Harr, length_app, length_map, length_replicate.
    replace ((0 <=? size r) &&
             (size r <? Z.of_nat (length strs + Z.to_nat (capacity r - size r))))
      with true; [done|].
    symmetry. apply andb_true_iff. split; [apply Z.leb_le|apply Z.ltb_lt]; lia.
Qed.

Lemma addCommandLines_ok (more : list string) :
  forall (r : CommandLine) (strs : list string),
    commandline_ok r strs ->
    forall r', addCommandLines r more = Some r' -> commandline_ok r' (strs ++ more).
Proof.
  induction more as [|s more IH]; intros r strs Hok r' Hrun; simpl in Hrun.
  - injection Hrun as <-. by rewrite app_nil_r.
  - destruct (addCommandLine r s) as [r1|] eqn:E1; [|done]. simpl in Hrun.
    replace (strs ++ s :: more) with ((strs ++ [s]) ++ more)
      by (by rewrite <- app_assoc).
    eapply IH; [|exact Hrun]. by eapply addCommandLine_ok.
Qed.

Lemma addCommandLines_returns (more : list string) :
  forall (r : CommandLine) (strs : list string),
    commandline_ok r strs ->
    2 * (size r + Z.of_nat (length more)) <= INT_MAX ->
    is_Some (addCommandLines r more).
Proof.
  induction more as [|s more IH]; intros r strs Hok Hmax; simpl.
  - done.
  - cbn [length] in Hmax. rewrite Nat2Z.inj_succ in Hmax.
    destruct (addCommandLine_returns r strs s Hok) as [r1 E1]; [lia|].
    rewrite E1. simpl.
    pose proof (addCommandLine_ok r strs s Hok r1 E1) as Hok1.
    apply (IH r1 (strs ++ [s]) Hok1).
    destruct Hok as (_ & Hsz & _), Hok1 as (_ & Hsz1 & _).
    rewrite Hsz1, length_app, Nat2Z.inj_add. simpl. lia.
Qed.

(** ** Parsing keeps the background flag a boolean *)

Lemma addCommandLine_bg (r : CommandLine) (str : string) (r' : CommandLine) :
  addCommandLine r str = Some r' -> bg r' = bg r.
Proof.
  unfold addCommandLine. intros H.
  repeat (case_match; simplify_option_eq; try done).
Qed.

Lemma parse_tokens_bg (pidStr : string) (n : nat) :
  forall (toks : list string) (c c' : CommandLine),
    (length toks <= n)%nat ->
    parse_tokens pidStr toks c = Some c' -> bg c' = bg c.
Proof.
  induction n as [|n IH]; intros toks c c' Hlen Hp.
  - destruct toks; [|simpl in Hlen; lia]. simpl in Hp. by injection Hp as <-.
  - destruct toks as [|token rest]; [simpl in Hp; by injection Hp as <-|].
    simpl in Hlen. cbn [parse_tokens] in Hp.
    destruct (String.eqb token "<").
    { destruct rest as [|token' rest']; [done|].
      apply IH in Hp; [done|simpl in Hlen; lia]. }
    destruct (String.eqb token ">").
    { destruct rest as [|token' rest']; [done|].
      apply IH in Hp; [done|simpl in Hlen; lia]. }
    destruct (has_pid_mark token).
    + destruct (expand_loop _ _ _) as [expanded|]; [|done]. simpl in Hp.
      destruct (addCommandLine c expanded) as [c1|] eqn:E1; [|done]. simpl in Hp.
      apply IH in Hp; [|lia]. rewrite Hp. by eapply addCommandLine_bg.
    + destruct (addCommandLine c token) as [c1|] eqn:E1; [|done]. simpl in Hp.
      apply IH in Hp; [|lia]. rewrite Hp. by eapply addCommandLine_bg.
Qed.

Lemma set_background_bg (c c' : CommandLine) :
  set_background c = Some c' -> bg c' = 1 \/ bg c' = bg c.
Proof.
  unfold set_background. intros H.
  repeat (case_match; simplify_option_eq; try done); auto.
Qed.

Lemma parseLine_bg (pidStr line : string) (c : CommandLine) :
  parseLine pidStr line = Some c -> bg c = 0 \/ bg c = 1.
Proof.
  unfold parseLine. intros H.
  destruct (initCommandLine 10) as [c0|] eqn:E0; [|done]. simpl in H.
  destruct (parse_tokens _ _ c0) as [c1|] eqn:E1; [|done]. simpl in H.
  apply set_background_bg in H.
  apply (parse_tokens_bg _ _ _ _ _ (Nat.le_refl _)) in E1.
  unfold initCommandLine in E0. simpl in E0. injection E0 as <-. simpl in E1.
  destruct H as [H|H]; [by right|left; congruence].
Qed.

(** ** The vector of a parsed line *)

Lemma commandline_ok_files (c : CommandLine) (strs : list string)
    (input output : option string) (b : Z) :
  commandline_ok c strs ->
  commandline_ok {| capacity := capacity c; size := size c; bg := b;
                    inputFile := input; outputFile := output; arr := arr c |} strs.
Proof. by unfold commandline_ok. Qed.

Lemma parse_tokens_ok (pidStr : string) (n : nat) :
  forall (toks : list string) (c c' : CommandLine) (strs : list string),
    (length toks <= n)%nat ->
    commandline_ok c strs ->
    parse_tokens pidStr toks c = Some c' ->
    exists strs', commandline_ok c' strs'.
Proof.
  induction n as [|n IH]; intros toks c c' strs Hlen Hok Hp.
  - destruct toks; [|simpl in Hlen; lia]. simpl in Hp. injection Hp as <-.
    by exists strs.
  - destruct toks as [|token rest].
    { simpl in Hp. injection Hp as <-. by exists strs. }
    simpl in Hlen. cbn [parse_tokens] in Hp.
    destruct (String.eqb token "<").
    { destruct rest as [|token' rest']; [discriminate|].
      eapply IH in Hp; [exact Hp|simpl in Hlen; lia|].
      by apply commandline_ok_files. }
    destruct (String.eqb token ">").
    { destruct rest as [|token' rest']; [discriminate|].
      eapply IH in Hp; [exact Hp|simpl in Hlen; lia|].
      by apply commandline_ok_files. }
    destruct (has_pid_mark token).
    + destruct (expand_loop _ _ _) as [expanded|]; [|discriminate].
      cbn [mbind option_bind] in Hp.
      destruct (addCommandLine c expanded) as [c1|] eqn:E1; [|discriminate].
      cbn [mbind option_bind] in Hp.
      eapply IH in Hp; [exact Hp|lia|]. by eapply addCommandLine_ok.
    + destruct (addCommandLine c token) as [c1|] eqn:E1; [|discriminate].
      cbn [mbind option_bind] in Hp.
      eapply IH in Hp; [exact Hp|lia|]. by eapply addCommandLine_ok.
Qed.

Lemma clear_last (strs : list string) (last : string) (k : nat) :
  <[length strs := None]> (map Some (strs ++ [last]) ++ replicate k None)
  = map Some strs ++ replicate (Datatypes.S k) None.
Proof.
  rewrite map_app, <- app_assoc.
  rewrite insert_app_r_alt by (rewrite length_map; lia).
  by rewrite length_map, Nat.sub_diag.
Qed.

Lemma set_background_ok (c c' : CommandLine) (strs : list string) :
  commandline_ok c strs ->
  set_background c = Some c' ->
  exists strs', commandline_ok c' strs'.
Proof.
  intros Hok Hs. pose proof Hok as (Hcap & Hsz & Hlt & Harr).
  unfold set_background in Hs.
  destruct (0 <? size c) eqn:Epos; [|injection Hs as <-; by exists strs].
  apply Z.ltb_lt in Epos.
  destruct (index_in (size c - 1) (length (arr c))) as [i|] eqn:Ei; [|discriminate].
  cbn [mbind option_bind] in Hs.
  unfold index_in in Ei. destruct (_ && _); [|discriminate]. injection Ei as <-.
  destruct (arr c !! Z.to_nat (size c - 1)) as [[last|]|]; try discriminate.
  destruct (String.eqb "&" last); [|injection Hs as <-; by exists strs].
  injection Hs as <-.
  destruct (exists_last (l := strs)) as (init & x & ->).
  { intros ->. simpl in Hsz. lia. }
  rewrite length_app, Nat2Z.inj_add in Hsz. simpl in Hsz.
  exists init. unfold commandline_ok. simpl.
  rewrite wrap_int_small by (unfold INT_MAX in *; lia).
  split; [done|]. split; [lia|]. split; [lia|].
  replace (Z.to_nat (size c - 1)) with (length init) by lia.
  rewrite Harr, clear_last. do 2 f_equal. lia.
Qed.

(** The vector [execHandle] hands to [execvp], [arr] of a parsed line, has
    its strings in the cells below [size] and NULL at index [size]. *)
Lemma parseLine_null_terminated (pidStr line : string) (c : CommandLine) :
  parseLine pidStr line = Some c ->
  exists strs,
    size c = Z.of_nat (length strs) /\
    take (length strs) (arr c) = map Some strs /\
    arr c !! length strs = Some None.
Proof.
  unfold parseLine. intros H.
  destruct (initCommandLine_ok 10) as (c0 & E0 & Hok0 & _);
    [unfold INT_MAX; lia|].
  rewrite E0 in H. cbn [mbind option_bind] in H.
  destruct (parse_tokens _ _ c0) as [c1|] eqn:E1; [|discriminate].
  cbn [mbind option_bind] in H.
  destruct (parse_tokens_ok _ _ _ _ _ _ (Nat.le_refl _) Hok0 E1) as [strs1 Hok1].
  destruct (set_background_ok _ _ _ Hok1 H) as (strs & Hcap & Hsz & Hlt & Harr).
  exists strs. split; [done|]. rewrite Harr. split.
  - rewrite take_app_length'; [done|by rewrite length_map].
  - rewrite lookup_app_r by (rewrite length_map; lia).
    rewrite length_map, Nat.sub_diag. apply lookup_replicate_2. lia.
Qed.

(** ** Dispatch *)

Section Dispatch.

Context {WM : WaitMacros} {SY : Sys}.

Lemma decipherExitStatus_exited (status c : Z) (out : option Decoded) :
  exitedWithCode status c ->
  decipherExitStatus status out =
    Some {| exited := 1; exitStatus := c; signaled := 0; termSignal := 0 |}.
Proof.
  intros [Hex Hc]. unfold decipherExitStatus.
  apply Z.eqb_neq in Hex. by rewrite Hex, Hc.
Qed.

Lemma decipherExitStatus_signaled (status sg : Z) (out : option Decoded) :
  signaledWith status sg ->
  decipherExitStatus status out =
    Some {| exited := 0; exitStatus := 0; signaled := 1; termSignal := sg |}.
Proof.
  intros (Hex & Hsig & Hs). unfold decipherExitStatus.
  apply Z.eqb_neq in Hsig. by rewrite Hex, Hsig, Hs.
Qed.

Lemma decodable_decoded (status : Z) (out : option Decoded) :
  decodable status -> exists d, decipherExitStatus status out = Some d.
Proof.
  intros [[c Hc]|[sg Hs]]; eexists.
  - by apply decipherExitStatus_exited.
  - by apply decipherExitStatus_signaled.
Qed.

Lemma trace_perror_unless_zero (ret : Z) (msg : string) (w : World) :
  trace (perror_unless_zero ret msg w) = trace w ++ perror_events ret msg /\
  os (perror_unless_zero ret msg w) = os w.
Proof.
  unfold perror_unless_zero, perror_events. destruct (ret =? 0); simpl.
  - by rewrite app_nil_r.
  - done.
Qed.

Lemma trace_report_foreground (spawnPid : Z) (d : Decoded) (w : World) :
  trace (report_foreground spawnPid d w) = trace w ++ foreground_notices spawnPid d /\
  os (report_foreground spawnPid d w) = os w.
Proof.
  unfold report_foreground, foreground_notices.
  destruct (negb (exited d =? 0)), (negb (exitStatus d =? 0)),
           (negb (signaled d =? 0)); simpl; by rewrite ?app_nil_r.
Qed.

Lemma trace_report_background (d : Decoded) (w : World) :
  trace (report_background d w) = trace w ++ background_notices d /\
  os (report_background d w) = os w.
Proof.
  unfold report_background, background_notices.
  destruct (exited d =? 0), (exitStatus d =? 0), (signaled d =? 0);
    simpl; by rewrite ?app_nil_r.
Qed.

(** [foreground_wait], call by call. *)
Lemma foreground_wait_spec (spawnPid : Z) (s : Shell) (children1 : ChildrenPids)
    (w : World) o1 r1 o2 ret st o3 r3 children2 rdel d :
  sys_sigprocmask (os w) SIG_BLOCK [SIGTSTP] = (o1, r1) ->
  sys_waitpid o1 spawnPid WAIT_0 = (o2, (ret, Some st)) ->
  sys_sigprocmask o2 SIG_UNBLOCK [SIGTSTP] = (o3, r3) ->
  deleteChildrenPids children1 spawnPid = Some (children2, rdel) ->
  decipherExitStatus st (decoded s) = Some d ->
  exists s',
    foreground_wait spawnPid s children1 w = Continue s' /\
    BGAllowed s' = BGAllowed s /\
    children s' = children2 /\
    lastFGExitMethod s' = st /\
    decoded s' = Some d /\
    keepGoing s' = keepGoing s /\
    os (world s') = o3 /\
    trace (world s') =
      trace w
        ++ [ESigprocmask SIG_BLOCK [SIGTSTP] r1]
        ++ perror_events r1 "SIGTSTP is not blocked in foreground child process"
        ++ [EWaitpid spawnPid WAIT_0 ret; ESigprocmask SIG_UNBLOCK [SIGTSTP] r3]
        ++ perror_events r3 "SIGTSTP is not unblocked"
        ++ foreground_notices spawnPid d.
Proof.
  intros Hb Hw Hu Hdel Hdec. unfold foreground_wait, sigprocmask, waitpid.
  rewrite Hb.
  destruct (trace_perror_unless_zero r1
              "SIGTSTP is not blocked in foreground child process"
              (emit (ESigprocmask SIG_BLOCK [SIGTSTP] r1)
                    {| os := o1; trace := trace w |})) as [Ht1 Ho1].
  simpl in Ho1. rewrite Ho1, Hw. simpl. rewrite Hu.
  match goal with
  | |- context [perror_unless_zero r3 ?m ?w3] =>
      destruct (trace_perror_unless_zero r3 m w3) as [Ht3 Ho3];
      set (w3' := perror_unless_zero r3 m w3) in *
  end.
  rewrite Hdel, Hdec.
  destruct (trace_report_foreground spawnPid d w3') as [Htn Hon].
  eexists. split; [reflexivity|]. simpl.
  split_and!; try done.
  - by rewrite Hon, Ho3.
  - rewrite Htn, Ht3. simpl. rewrite Ht1. simpl.
    by rewrite <- !app_assoc.
Qed.

Lemma remove_first_app_last (num : Z) (l : list Link) (x : Link) :
  num ∉ map pidNo l -> pidNo x = num -> remove_first num (l ++ [x]) = l.
Proof.
  intros Hout Hx. induction l as [|y l IH]; simpl.
  - by rewrite Hx, Z.eqb_refl.
  - simpl in Hout. rewrite elem_of_cons in Hout.
    destruct (pidNo y =? num) eqn:E.
    + apply Z.eqb_eq in E. exfalso. apply Hout. by left.
    + rewrite IH; [done|]. intros ?. apply Hout. by right.
Qed.

(** Registering a new identifier and removing it again gives the registry
    back. *)
Lemma add_then_delete (children0 : ChildrenPids) (p : Z) (l : Link) :
  registry_ok children0 ->
  Z.of_nat (length (cp_list children0)) < INT_MAX ->
  p ∉ pids children0 ->
  pidNo l = p ->
  deleteChildrenPids {| cp_size := cp_size children0 + 1;
                        cp_list := cp_list children0 ++ [l] |} p
  = Some (children0, 1).
Proof.
  intros Hok Hlt Hout Hl.
  rewrite deleteChildrenPids_present.
  - simpl. rewrite remove_first_app_last by done.
    destruct children0 as [sz li]. simpl. do 3 f_equal. lia.
  - by apply registry_ok_add.
  - unfold pids. simpl. rewrite map_app. apply elem_of_app. right.
    simpl. rewrite Hl. apply elem_of_cons. by left.
Qed.

Lemma resolve_background_bg (bgAllowed : Z) (commands : CommandLine) :
  bg (resolve_background 0 bgAllowed commands)
  = if bgAllowed =? 0 then 0 else bg commands.
Proof. unfold resolve_background. simpl. by destruct (bgAllowed =? 0). Qed.

(** [dispatch] in the parent, below the bound on the number of children. *)
Lemma dispatch_parent (procType : Z) (commands : CommandLine) (s : Shell)
    (o0 : OS) (spawnPid : Z) :
  registry_ok (children s) ->
  cp_size (children s) + 1 < MAXCHILDREN ->
  sys_fork (os (world s)) = (o0, spawnPid) ->
  spawnPid <> -1 ->
  spawnPid <> 0 ->
  let c := resolve_background procType (BGAllowed s) commands in
  let children1 :=
    {| cp_size := cp_size (children s) + 1;
       cp_list := cp_list (children s) ++ [initLink spawnPid c (bg c)] |} in
  let w1 := {| os := o0; trace := trace (world s) ++ [EFork spawnPid] |} in
  (bg c = 1 ->
   dispatch procType commands s =
     Continue {| BGAllowed := BGAllowed s; children := children1;
                 lastFGExitMethod := lastFGExitMethod s; decoded := decoded s;
                 keepGoing := keepGoing s;
                 world := printf (NBackgroundStarts spawnPid) w1 |}) /\
  (bg c = 0 ->
   dispatch procType commands s = foreground_wait spawnPid s children1 w1).
Proof.
  intros Hok Hmax Hfork Hn1 Hn0 c children1 w1.
  pose proof Hok as [Hsz Hint].
  assert (Hadd : addChildrenPids (children s) spawnPid c (bg c) = Some children1).
  { apply addChildrenPids_ok; [done|]. unfold MAXCHILDREN, INT_MAX in *. lia. }
  unfold dispatch, fork. rewrite Hfork. fold c.
  apply Z.eqb_neq in Hn1, Hn0. rewrite Hn1, Hn0, Hadd.
  replace (cp_size children1 =? MAXCHILDREN) with false
    by (symmetry; apply Z.eqb_neq; unfold children1; simpl; lia).
  split; intros Hbg; rewrite Hbg; reflexivity.
Qed.

(** ** The mode flag is written by the handler only *)

Ltac split_cases :=
  repeat (case_match; simplify_eq; simpl in *; try done);
  simplify_eq; simpl in *; try done.

Lemma foreground_wait_BGAllowed (spawnPid : Z) (s : Shell)
    (children1 : ChildrenPids) (w : World) (s' : Shell) :
  outcome_state (foreground_wait spawnPid s children1 w) = Some s' ->
  BGAllowed s' = BGAllowed s.
Proof.
  unfold foreground_wait. intros H.
  split_cases.
Qed.

Lemma dispatch_BGAllowed (procType : Z) (commands : CommandLine) (s s' : Shell) :
  outcome_state (dispatch procType commands s) = Some s' ->
  BGAllowed s' = BGAllowed s.
Proof.
  unfold dispatch. intros H.
  split_cases.
  all: by eapply foreground_wait_BGAllowed.
Qed.

Lemma sweep_after_BGAllowed (o : Outcome) (s s' : Shell) :
  (forall s1, outcome_state o = Some s1 -> BGAllowed s1 = BGAllowed s) ->
  outcome_state (sweep_after o) = Some s' ->
  BGAllowed s' = BGAllowed s.
Proof.
  intros Ho. unfold sweep_after. intros H.
  split_cases; by apply Ho.
Qed.

Lemma main_iteration_BGAllowed (line : string) (s s' : Shell) :
  outcome_state (main_iteration line s) = Some s' ->
  BGAllowed s' = BGAllowed s.
Proof.
  unfold main_iteration. intros H.
  split_cases.
  eapply (sweep_after_BGAllowed _ s); [|exact H].
  intros s1 Hs1. by apply dispatch_BGAllowed in Hs1.
Qed.

Lemma parentCatchSIGTSTP_BGAllowed (s : Shell) :
  BGAllowed (parentCatchSIGTSTP s) = if BGAllowed s =? 1 then 0 else 1.
Proof. unfold parentCatchSIGTSTP. by destruct (BGAllowed s =? 1). Qed.

Lemma reachable_BGAllowed (o : OS) (s : Shell) :
  reachable o s -> BGAllowed s = 0 \/ BGAllowed s = 1.
Proof.
  induction 1 as [|s s' Hr IH Hstep]; [by right|].
  destruct Hstep as [s|line s s' Hk Hiter].
  - rewrite parentCatchSIGTSTP_BGAllowed. destruct (BGAllowed s =? 1); auto.
  - rewrite (main_iteration_BGAllowed line s s'); [done|]. by rewrite Hiter.
Qed.

Lemma starts_not_in_perror_events (p ret : Z) (msg : string) :
  EPrintf (NBackgroundStarts p) ∉ perror_events ret msg.
Proof.
  unfold perror_events. destruct (ret =? 0); [apply not_elem_of_nil|].
  intros H. apply list_elem_of_singleton in H. discriminate.
Qed.

Lemma starts_not_in_foreground_notices (p spawnPid : Z) (d : Decoded) :
  EPrintf (NBackgroundStarts p) ∉ foreground_notices spawnPid d.
Proof.
  unfold foreground_notices.
  destruct (negb (exited d =? 0)), (negb (exitStatus d =? 0)),
           (negb (signaled d =? 0));
    try apply not_elem_of_nil;
    intros H; apply list_elem_of_singleton in H; discriminate.
Qed.

(** The sweep of a registry with one entry whose child has ended. *)
Lemma checkBGChildren_single (w : World) (l : Link) (o : OS) (st : Z) (d : Decoded) :
  pidNo l <> 0 ->
  sys_waitpid (os w) (pidNo l) WNOHANG = (o, (pidNo l, Some st)) ->
  decipherExitStatus st None = Some d ->
  exists w',
    checkBGChildren w {| cp_size := 1; cp_list := [l] |}
      = Some (w', {| cp_size := 0; cp_list := [] |}) /\
    os w' = o /\
    trace w' = trace w ++ [EWaitpid (pidNo l) WNOHANG (pidNo l);
                           EPrintf (NBackgroundFinished (pidNo l))]
                       ++ background_notices d.
Proof.
  intros Hpid Hwait Hdec.
  unfold checkBGChildren. simpl. unfold waitpid. rewrite Hwait.
  apply Z.eqb_neq in Hpid. rewrite Hpid. simpl.
  unfold deleteChildrenPids, inChildrenPids. simpl.
  rewrite Z.eqb_refl. simpl.
  rewrite Hdec. simpl. change (wrap_int (1 - 1)) with 0.
  eexists. split; [reflexivity|].
  match goal with
  | |- context [report_background d ?w2] =>
      destruct (trace_report_background d w2) as [Ht Ho]
  end.
  split; [by rewrite Ho|]. rewrite Ht. simpl. by rewrite <- !app_assoc.
Qed.

(** The sweep of a registry with two entries, when the first child has
    ended: after its removal the size field is 1, the test [i < size] fails
    at [i = 1], and the second identifier of the snapshot is not checked,
    whatever the state of its child. *)
Lemma checkBGChildren_second_skipped (w : World) (l1 l2 : Link) (o : OS)
    (st : Z) (d : Decoded) :
  pidNo l1 <> 0 ->
  sys_waitpid (os w) (pidNo l1) WNOHANG = (o, (pidNo l1, Some st)) ->
  decipherExitStatus st None = Some d ->
  exists w',
    checkBGChildren w {| cp_size := 2; cp_list := [l1; l2] |}
      = Some (w', {| cp_size := 1; cp_list := [l2] |}) /\
    os w' = o /\
    trace w' = trace w ++ [EWaitpid (pidNo l1) WNOHANG (pidNo l1);
                           EPrintf (NBackgroundFinished (pidNo l1))]
                       ++ background_notices d.
Proof.
  intros Hpid Hwait Hdec.
  unfold checkBGChildren. simpl. unfold waitpid. rewrite Hwait.
  apply Z.eqb_neq in Hpid. rewrite Hpid. simpl.
  unfold deleteChildrenPids, inChildrenPids. simpl.
  rewrite Z.eqb_refl. simpl.
  rewrite Hdec. simpl. change (wrap_int (2 - 1)) with 1.
  change (wrap_int (0 + 1)) with 1. simpl.
  eexists. split; [reflexivity|].
  match goal with
  | |- context [report_background d ?w2] =>
      destruct (trace_report_background d w2) as [Ht Ho]
  end.
  split; [by rewrite Ho|]. rewrite Ht. simpl. by rewrite <- !app_assoc.
Qed.

(** ** Where [dispatch] sits in the loop *)

(** An external command goes through [dispatch], then the sweep. *)
Lemma main_iteration_external (line : string) (s : Shell) (commands : CommandLine) :
  parseLine (pid_to_string sys_getpid) line = Some commands ->
  is_external commands ->
  main_iteration line s
  = sweep_after (dispatch 0 commands (with_world s (printf NPrompt (world s)))).
Proof.
  intros Hparse (arr0 & Hsz & Harr & Hhash & Hcd & Hstatus & Hexit).
  unfold main_iteration. rewrite Hparse.
  apply Z.eqb_neq in Hsz. rewrite Hsz, Harr, Hhash.
  apply String.eqb_neq in Hcd, Hstatus, Hexit.
  by rewrite Hcd, Hstatus, Hexit.
Qed.

(** A line that is empty, a comment or one of "cd" and "status" leaves the
    registry as it is, and "exit" adds nothing to it: the built-in commands
    never reach [addChildrenPids]. *)
Lemma main_iteration_builtin (line : string) (s s' : Shell) (commands : CommandLine) :
  parseLine (pid_to_string sys_getpid) line = Some commands ->
  ~ is_external commands ->
  registry_ok (children s) ->
  main_iteration line s = Continue s' ->
  forall p, p ∈ pids (children s') -> p ∈ pids (children s).
Proof.
  intros Hparse Hnot Hok Hrun p. unfold main_iteration in Hrun.
  rewrite Hparse in Hrun.
  destruct (size commands =? 0) eqn:Esz; [by injection Hrun as <-|].
  destruct (arr commands !! 0%nat) as [[arr0|]|] eqn:Earr; try discriminate.
  destruct (first_char_is "#" arr0) eqn:Ehash; [by injection Hrun as <-|].
  destruct (String.eqb arr0 "cd") eqn:Ecd.
  { destruct (cdHandle _ _); [|discriminate]. by injection Hrun as <-. }
  destruct (String.eqb arr0 "status") eqn:Est; [by injection Hrun as <-|].
  destruct (String.eqb arr0 "exit") eqn:Eex.
  - destruct (exitHandle _ _) as [[w1 c1]|] eqn:E; [|discriminate].
    injection Hrun as <-. cbn [children].
    destruct (exitHandle_loop_attempts 50 (printf NPrompt (world s)) (children s) 0 Hok)
      as (n & w2 & c2 & Hrun2 & Hatt & _); [lia|lia|].
    assert (Hrun3 : exitHandle (printf NPrompt (world s)) (children s) = Some (w2, c2))
      by exact Hrun2.
    rewrite Hrun3 in E. injection E as <- <-.
    clear Hrun2 Hrun3. revert Hatt. generalize (printf NPrompt (world s)).
    generalize (children s). clear. intros c w Hatt.
    remember (w, c) as x eqn:Ex. remember (w2, c2) as y eqn:Ey.
    revert w c w2 c2 Ex Ey.
    induction Hatt as [x|n x y z Hxy Hyz IH]; intros w c w2 c2 -> Ey.
    + by injection Ey as <- <-.
    + intros Hp. destruct y as [w1 c1].
      specialize (IH w1 c1 w2 c2 eq_refl Ey Hp).
      inversion Hxy as [? ? ? first rest El|]; subst; [|done].
      unfold pids in *. rewrite El. simpl in *. apply elem_of_cons. by right.
  - exfalso. apply Hnot. exists arr0.
    apply Z.eqb_neq in Esz. apply String.eqb_neq in Ecd, Est, Eex. done.
Qed.

End Dispatch.

(** ** The registry of a running shell *)

Section Invariant.

Context {WM : WaitMacros} {SY : Sys}.









End Invariant.

(** ** The Linux encoding has both shapes *)

Lemma forall_below (P : Z -> bool) (n : nat) :
  forallb P (map Z.of_nat (seq 0 n)) = true ->
  forall z, 0 <= z < Z.of_nat n -> P z = true.
Proof.
  intros Hall z Hz. rewrite forallb_forall in Hall. apply Hall.
  apply in_map_iff. exists (Z.to_nat z). split; [lia|].
  apply in_seq. lia.
Qed.

(** [exit(c)] is reported as [c << 8]. *)
Lemma linux_exited (c : Z) :
  0 <= c < 256 -> exitedWithCode (WM := linux_wait) (c * 256) c.
Proof.
  intros Hc.
  pose proof (forall_below
    (fun c => negb (@WIFEXITED linux_wait (c * 256) =? 0) && (@WEXITSTATUS linux_wait (c * 256) =? c))
    256 ltac:(vm_compute; reflexivity) c Hc) as H.
  apply andb_true_iff in H as [H1 H2].
  split; [by apply Z.eqb_neq, negb_true_iff|by apply Z.eqb_eq].
Qed.

(** A child ended by signal [sg] is reported as [sg], or as [sg + 128]
    when it left a core file. *)
Lemma linux_signaled (sg : Z) :
  1 <= sg < 127 ->
  signaledWith (WM := linux_wait) sg sg /\
  signaledWith (WM := linux_wait) (sg + 128) sg.
Proof.
  intros Hs.
  pose proof (forall_below
    (fun sg => (sg =? 0) || (sg =? 127) ||
       ((@WIFEXITED linux_wait sg =? 0) && negb (@WIFSIGNALED linux_wait sg =? 0) && (@WTERMSIG linux_wait sg =? sg) &&
        (@WIFEXITED linux_wait (sg + 128) =? 0) && negb (@WIFSIGNALED linux_wait (sg + 128) =? 0) &&
        (@WTERMSIG linux_wait (sg + 128) =? sg)))
    128 ltac:(vm_compute; reflexivity) sg ltac:(lia)) as H.
  cbv beta in H.
  destruct (sg =? 0) eqn:E0; [apply Z.eqb_eq in E0; lia|].
  destruct (sg =? 127) eqn:E1; [apply Z.eqb_eq in E1; lia|].
  cbn [orb] in H. repeat (apply andb_true_iff in H as [H ?]).
  repeat match goal with
         | H : negb _ = true |- _ => apply negb_true_iff in H
         | H : (_ =? _) = true |- _ => apply Z.eqb_eq in H
         | H : (_ =? _) = false |- _ => apply Z.eqb_neq in H
         end.
  unfold signaledWith. simpl. by repeat split.
Qed.

(** ** Lines, words and the expansion of "$$" *)

Ltac ascii_cases c :=
  destruct c as [[] [] [] [] [] [] [] []]; try reflexivity; try congruence.

Lemma has_pid_mark_other (c : ascii) (s : string) :
  c <> "$"%char -> has_pid_mark (String c s) = has_pid_mark s.
Proof. intros H. ascii_cases c. Qed.

Lemma has_pid_mark_dollar_other (c : ascii) (s : string) :
  c <> "$"%char ->
  has_pid_mark (String "$" (String c s)) = has_pid_mark (String c s).
Proof. intros H. ascii_cases c. Qed.

Lemma expandShellPid_other (pidStr : string) (c : ascii) (s : string) :
  c <> "$"%char ->
  expandShellPid pidStr (String c s) = String c (expandShellPid pidStr s).
Proof. intros H. ascii_cases c. Qed.

Lemma expandShellPid_dollar_other (pidStr : string) (c : ascii) (s : string) :
  c <> "$"%char ->
  expandShellPid pidStr (String "$" (String c s))
  = String "$" (expandShellPid pidStr (String c s)).
Proof. intros H. ascii_cases c. Qed.

Lemma replace_all_other (pidStr : string) (c : ascii) (s : string) :
  c <> "$"%char ->
  replace_all pidStr (String c s) = String c (replace_all pidStr s).
Proof. intros H. ascii_cases c. Qed.

Lemma replace_all_dollar_other (pidStr : string) (c : ascii) (s : string) :
  c <> "$"%char ->
  replace_all pidStr (String "$" (String c s))
  = String "$" (replace_all pidStr (String c s)).
Proof. intros H. ascii_cases c. Qed.

Lemma dollars_app (s1 s2 : string) :
  dollars (s1 +:+ s2) = (dollars s1 + dollars s2)%nat.
Proof. induction s1 as [|c s1 IH]; simpl; [done|]. rewrite IH. lia. Qed.

Lemma no_dollar_cons (c : ascii) (s : string) :
  no_dollar (String c s) -> c <> "$"%char /\ no_dollar s.
Proof.
  unfold no_dollar. simpl. destruct (Ascii.eqb c "$") eqn:E; [lia|].
  apply Ascii.eqb_neq in E. intros H. split; [done|lia].
Qed.

(** A string without a dollar sign in front of [x] changes nothing for the
    three functions. *)
Lemma no_dollar_prefix (pidStr p x : string) :
  no_dollar p ->
  has_pid_mark (p +:+ x) = has_pid_mark x /\
  expandShellPid pidStr (p +:+ x) = p +:+ expandShellPid pidStr x /\
  replace_all pidStr (p +:+ x) = p +:+ replace_all pidStr x.
Proof.
  induction p as [|c p IH]; intros Hp; [done|].
  apply no_dollar_cons in Hp as [Hc Hp]. destruct (IH Hp) as (IH1 & IH2 & IH3).
  change (String c p +:+ x) with (String c (p +:+ x)).
  change (String c p +:+ ?y) with (String c (p +:+ y)).
  rewrite has_pid_mark_other, expandShellPid_other, replace_all_other by done.
  by rewrite IH1, IH2, IH3.
Qed.

(** The shape of a string, as the three functions read it. *)
Lemma dollar_view (s : string) :
  s = EmptyString \/
  s = "$"%string \/
  (exists rest, s = String "$" (String "$" rest)) \/
  (exists c rest, c <> "$"%char /\ s = String c rest) \/
  (exists c rest, c <> "$"%char /\ s = String "$" (String c rest)).
Proof.
  destruct s as [|c s]; [by left|].
  destruct (Ascii.eqb c "$") eqn:E.
  - apply Ascii.eqb_eq in E. subst c. destruct s as [|c2 s]; [right; by left|].
    destruct (Ascii.eqb c2 "$") eqn:E2.
    + apply Ascii.eqb_eq in E2. subst c2. right; right; left. by eexists.
    + apply Ascii.eqb_neq in E2. right; right; right; right. by eexists _, _.
  - apply Ascii.eqb_neq in E. right; right; right; left. by eexists _, _.
Qed.

Lemma dollars_other (c : ascii) (s : string) :
  c <> "$"%char -> dollars (String c s) = dollars s.
Proof. intros H. simpl. apply Ascii.eqb_neq in H. by rewrite H. Qed.

Section Expansion.

Variable pidStr : string.
Hypothesis pid_no_dollar : no_dollar pidStr.

(** Each call of [expandShellPid] on a string that holds "$$" removes two
    dollar signs. *)
Lemma expandShellPid_dollars (n : nat) :
  forall s, (String.length s <= n)%nat ->
    has_pid_mark s = true ->
    (dollars (expandShellPid pidStr s) + 2 = dollars s)%nat.
Proof using pid_no_dollar.
  induction n as [|n IH]; intros s Hlen Hmark.
  - destruct s; [discriminate|simpl in Hlen; lia].
  - destruct (dollar_view s) as [->|[->|[[rest ->]|[(c & rest & Hc & ->)|(c & rest & Hc & ->)]]]];
      try discriminate.
    + simpl. rewrite dollars_app. unfold no_dollar in pid_no_dollar. lia.
    + rewrite has_pid_mark_other in Hmark by done.
      rewrite expandShellPid_other, !dollars_other by done.
      apply IH; [simpl in Hlen; lia|done].
    + rewrite has_pid_mark_dollar_other in Hmark by done.
      rewrite expandShellPid_dollar_other by done.
      change (dollars (String "$" ?x)) with (Datatypes.S (dollars x)).
      simpl dollars at 1. rewrite <- (IH (String c rest)); [|simpl in *; lia|done].
      simpl. lia.
Qed.

Lemma has_pid_mark_dollars (n : nat) :
  forall s, (String.length s <= n)%nat ->
    has_pid_mark s = true -> (2 <= dollars s)%nat.
Proof.
  induction n as [|n IH]; intros s Hlen Hmark.
  - destruct s; [discriminate|simpl in Hlen; lia].
  - destruct (dollar_view s) as [->|[->|[[rest ->]|[(c & rest & Hc & ->)|(c & rest & Hc & ->)]]]];
      try discriminate.
    + simpl. lia.
    + rewrite has_pid_mark_other in Hmark by done. rewrite dollars_other by done.
      apply IH; [simpl in Hlen; lia|done].
    + rewrite has_pid_mark_dollar_other in Hmark by done.
      change (dollars (String "$" ?x)) with (Datatypes.S (dollars x)).
      pose proof (IH (String c rest) ltac:(simpl in *; lia) Hmark). lia.
Qed.

(** Replacing the first "$$" does not change what the pass from the left
    gives. *)
Lemma replace_all_expandShellPid (n : nat) :
  forall s, (String.length s <= n)%nat ->
    replace_all pidStr (expandShellPid pidStr s) = replace_all pidStr s.
Proof using pid_no_dollar.
  induction n as [|n IH]; intros s Hlen.
  - destruct s; [done|simpl in Hlen; lia].
  - destruct (dollar_view s) as [->|[->|[[rest ->]|[(c & rest & Hc & ->)|(c & rest & Hc & ->)]]]];
      try done.
    + change (expandShellPid pidStr (String "$" (String "$" rest)))
        with (pidStr +:+ rest).
      change (replace_all pidStr (String "$" (String "$" rest)))
        with (pidStr +:+ replace_all pidStr rest).
      by destruct (no_dollar_prefix pidStr pidStr rest pid_no_dollar) as (_ & _ & ->).
    + rewrite expandShellPid_other, !replace_all_other by done.
      rewrite IH; [done|simpl in Hlen; lia].
    + rewrite expandShellPid_dollar_other by done.
      rewrite expandShellPid_other by done.
      rewrite !replace_all_dollar_other by done.
      rewrite <- (expandShellPid_other pidStr c rest Hc).
      rewrite IH; [done|simpl in *; lia].
Qed.

Lemma replace_all_no_mark (n : nat) :
  forall s, (String.length s <= n)%nat ->
    has_pid_mark s = false -> replace_all pidStr s = s.
Proof.
  induction n as [|n IH]; intros s Hlen Hmark.
  - destruct s; [done|simpl in Hlen; lia].
  - destruct (dollar_view s) as [->|[->|[[rest ->]|[(c & rest & Hc & ->)|(c & rest & Hc & ->)]]]];
      try done.
    + rewrite has_pid_mark_other in Hmark by done. rewrite replace_all_other by done.
      rewrite IH; [done|simpl in Hlen; lia|done].
    + rewrite has_pid_mark_dollar_other in Hmark by done.
      rewrite replace_all_dollar_other by done.
      rewrite IH; [done|simpl in *; lia|done].
Qed.

(** The loop of [parseLine] ends, with fuel for half the dollar signs. *)
Lemma expand_loop_replace_all (fuel : nat) :
  forall s, (dollars s <= 2 * fuel + 1)%nat ->
    expand_loop fuel pidStr s = Some (replace_all pidStr s).
Proof using pid_no_dollar.
  induction fuel as [|fuel IH]; intros s Hd.
  - simpl. destruct (has_pid_mark s) eqn:Hmark.
    + pose proof (has_pid_mark_dollars _ s (Nat.le_refl _) Hmark). lia.
    + by rewrite (replace_all_no_mark _ s (Nat.le_refl _) Hmark).
  - cbn [expand_loop]. destruct (has_pid_mark s) eqn:Hmark.
    + pose proof (expandShellPid_dollars _ s (Nat.le_refl _) Hmark).
      rewrite IH by lia.
      by rewrite (replace_all_expandShellPid _ s (Nat.le_refl _)).
    + by rewrite (replace_all_no_mark _ s (Nat.le_refl _) Hmark).
Qed.

End Expansion.

Lemma expand_loop_no_mark (fuel : nat) (pidStr : string) :
  forall s r, expand_loop fuel pidStr s = Some r -> has_pid_mark r = false.
Proof.
  induction fuel as [|fuel IH]; intros s r H; cbn [expand_loop] in H;
    destruct (has_pid_mark s) eqn:Hmark; try discriminate;
    try (injection H as <-; exact Hmark).
  by eapply IH.
Qed.

Lemma dollars_length (s : string) : (dollars s <= String.length s)%nat.
Proof. induction s as [|c s IH]; simpl; [lia|]. destruct (Ascii.eqb c "$"); lia. Qed.

(** ** The tokens of a line and what [parseLine] makes of them *)

Lemma list_ascii_of_string_app (s1 s2 : string) :
  list_ascii_of_string (s1 +:+ s2)
  = list_ascii_of_string s1 ++ list_ascii_of_string s2.
Proof. induction s1 as [|c s1 IH]; simpl; [done|]. by rewrite IH. Qed.

Lemma strtok_all_word (w : list ascii) :
  forall cur rest,
    no_space w -> strtok_all cur (w ++ rest) = strtok_all (rev w ++ cur) rest.
Proof.
  induction w as [|a w IH]; intros cur rest Hw; [done|].
  apply Forall_cons in Hw as [Ha Hw]. cbn [app strtok_all].
  destruct (Ascii.eqb a " ") eqn:E; [by apply Ascii.eqb_eq in E|].
  rewrite IH by done. simpl. by rewrite <- app_assoc.
Qed.

Lemma strtok_all_end (cur : list ascii) :
  cur <> [] -> strtok_all cur [] = [string_of_list_ascii (rev cur)].
Proof. by destruct cur. Qed.

Lemma strtok_all_space (cur rest : list ascii) :
  cur <> [] ->
  strtok_all cur (" "%char :: rest)
  = string_of_list_ascii (rev cur) :: strtok_all [] rest.
Proof. by destruct cur. Qed.

Lemma word_chars (w : string) :
  is_word w ->
  rev (list_ascii_of_string w) ++ [] <> [] /\
  string_of_list_ascii (rev (rev (list_ascii_of_string w) ++ [])) = w.
Proof.
  intros [Hne _]. rewrite app_nil_r, rev_involutive, string_of_list_ascii_of_string.
  split; [|done]. destruct w as [|c w]; [done|]. simpl.
  intros H. by apply app_eq_nil in H as [_ ?].
Qed.

(** [strtok_r] gives back the words of a line that a single space
    separates. *)
Lemma strtok_all_words (words : list string) :
  Forall is_word words ->
  strtok_all [] (list_ascii_of_string (line_of words)) = words.
Proof.
  induction words as [|x words IH]; intros Hw; [done|].
  apply Forall_cons in Hw as [Hx Hw].
  destruct (word_chars x Hx) as [Hne Hback].
  destruct words as [|y words].
  - change (line_of [x]) with x.
    rewrite <- (app_nil_r (list_ascii_of_string x)).
    rewrite strtok_all_word by apply Hx.
    rewrite strtok_all_end by done. by rewrite Hback.
  - change (line_of (x :: y :: words))
      with (x +:+ String " " (line_of (y :: words))).
    rewrite list_ascii_of_string_app. cbn [list_ascii_of_string].
    rewrite strtok_all_word by apply Hx.
    rewrite strtok_all_space by done.
    rewrite Hback. f_equal. by apply IH.
Qed.

Lemma expand_token (pidStr token : string) :
  no_dollar pidStr ->
  has_pid_mark token = true ->
  expand_loop (String.length token) pidStr (expandShellPid pidStr token)
  = Some (replace_all pidStr token).
Proof.
  intros Hpid Hmark.
  pose proof (expandShellPid_dollars pidStr Hpid _ token (Nat.le_refl _) Hmark).
  pose proof (dollars_length token).
  rewrite expand_loop_replace_all by (done || lia).
  by rewrite (replace_all_expandShellPid pidStr Hpid _ token (Nat.le_refl _)).
Qed.

(** Over words that are not redirection symbols, the loop of [parseLine]
    is a run of [addCommandLine] calls on the expanded words. *)
Lemma parse_tokens_arguments (pidStr : string) (words : list string) :
  no_dollar pidStr ->
  forall (rest : list string) (c : CommandLine),
    Forall argument_word words ->
    parse_tokens pidStr (words ++ rest) c
    = (c' ← addCommandLines c (map (replace_all pidStr) words);
       parse_tokens pidStr rest c').
Proof.
  intros Hpid. induction words as [|x words IH]; intros rest c Hw; [done|].
  apply Forall_cons in Hw as [(_ & Hlt & Hgt) Hw].
  cbn [app parse_tokens map addCommandLines].
  apply String.eqb_neq in Hlt, Hgt. rewrite Hlt, Hgt.
  destruct (has_pid_mark x) eqn:Hmark.
  - rewrite expand_token by done. cbn [mbind option_bind].
    destruct (addCommandLine c (replace_all pidStr x)) as [c1|]; [|done].
    cbn [mbind option_bind]. by apply IH.
  - rewrite (replace_all_no_mark pidStr _ x (Nat.le_refl _) Hmark).
    destruct (addCommandLine c x) as [c1|]; [|done].
    cbn [mbind option_bind]. by apply IH.
Qed.

Lemma addCommandLines_files (more : list string) :
  forall (r r' : CommandLine),
    addCommandLines r more = Some r' ->
    bg r' = bg r /\ inputFile r' = inputFile r /\ outputFile r' = outputFile r.
Proof.
  induction more as [|s more IH]; intros r r' Hrun; cbn [addCommandLines] in Hrun.
  - by injection Hrun as <-.
  - destruct (addCommandLine r s) as [r1|] eqn:E1; [|discriminate].
    cbn [mbind option_bind] in Hrun.
    destruct (IH _ _ Hrun) as (-> & -> & ->).
    unfold addCommandLine in E1.
    repeat (case_match; simplify_option_eq; try done).
Qed.

(** The two ways out of [set_background] on a vector that is in order. *)
Lemma set_background_mark (c : CommandLine) (strs : list string) :
  commandline_ok c (strs ++ ["&"%string]) ->
  exists c',
    set_background c = Some c' /\
    commandline_ok c' strs /\
    bg c' = 1 /\
    inputFile c' = Some (default "/dev/null"%string (inputFile c)) /\
    outputFile c' = Some (default "/dev/null"%string (outputFile c)).
Proof.
  intros (Hcap & Hsz & Hlt & Harr). unfold set_background.
  rewrite length_app, Nat2Z.inj_add in Hsz. simpl in Hsz.
  replace (0 <? size c) with true by (symmetry; apply Z.ltb_lt; lia).
  assert (Hlen : length (arr c) = Z.to_nat (capacity c)).
  { rewrite Harr, length_app, length_map, length_app, length_replicate. simpl. lia. }
  unfold index_in.
  replace ((0 <=? size c - 1) && (size c - 1 <? Z.of_nat (length (arr c))))
    with true by (symmetry; apply andb_true_iff; split;
                  [apply Z.leb_le|apply Z.ltb_lt]; lia).
  cbn [mbind option_bind].
  replace (Z.to_nat (size c - 1)) with (length strs) by lia.
  assert (Hlast : arr c !! length strs = Some (Some "&"%string)).
  { rewrite Harr, map_app, <- app_assoc.
    rewrite lookup_app_r by (rewrite length_map; lia).
    by rewrite length_map, Nat.sub_diag. }
  rewrite Hlast. cbn [String.eqb Ascii.eqb]. simpl (String.eqb _ _).
  eexists. split; [reflexivity|].
  split.
  - unfold commandline_ok. cbn [capacity size arr].
    rewrite wrap_int_small by (unfold INT_MAX in *; lia).
    split; [done|]. split; [lia|]. split; [lia|].
    rewrite Harr, clear_last. do 2 f_equal. lia.
  - cbn [bg inputFile outputFile].
    split; [done|]. by destruct (inputFile c), (outputFile c).
Qed.


(** ** The decimal string of the process identifier *)

Lemma string_of_uint_no_dollar (d : Decimal.uint) :
  no_dollar (NilEmpty.string_of_uint d).
Proof. unfold no_dollar. induction d; simpl; done. Qed.

Lemma pid_to_string_no_dollar (pid : Z) : no_dollar (pid_to_string pid).
Proof.
  unfold pid_to_string, NilZero.string_of_int, NilZero.string_of_uint.
  destruct (Z.to_int pid) as [d|d]; destruct d eqn:E; try done;
    rewrite <- E; unfold no_dollar; simpl;
    apply string_of_uint_no_dollar.
Qed.

Lemma length_append (s1 s2 : string) :
  String.length (s1 +:+ s2) = (String.length s1 + String.length s2)%nat.
Proof. induction s1 as [|c s1 IH]; simpl; [done|]. by rewrite IH. Qed.

(** The first "$$" of a string that holds one. *)
Lemma first_mark (n : nat) :
  forall str, (String.length str <= n)%nat ->
    has_pid_mark str = true ->
    exists before after,
      str = before +:+ "$$" +:+ after /\
      has_pid_mark (before +:+ "$") = false /\
      forall pidStr, expandShellPid pidStr str = before +:+ pidStr +:+ after.
Proof.
  induction n as [|n IH]; intros str Hlen Hmark.
  - destruct str; [discriminate|simpl in Hlen; lia].
  - destruct (dollar_view str)
      as [->|[->|[[rest ->]|[(c & rest & Hc & ->)|(c & rest & Hc & ->)]]]];
      try discriminate.
    + by exists EmptyString, rest.
    + rewrite has_pid_mark_other in Hmark by done.
      destruct (IH rest ltac:(simpl in Hlen; lia) Hmark)
        as (before & after & -> & Hb & Hexp).
      exists (String c before), after. split; [done|]. split.
      * change (String c before +:+ "$") with (String c (before +:+ "$")).
        by rewrite has_pid_mark_other.
      * intros pidStr. rewrite expandShellPid_other by done. by rewrite Hexp.
    + rewrite has_pid_mark_dollar_other in Hmark by done.
      destruct (IH (String c rest) ltac:(simpl in *; lia) Hmark)
        as (before & after & Heq & Hb & Hexp).
      destruct before as [|c' before]; [simpl in Heq; injection Heq as -> _; done|].
      simpl in Heq. injection Heq as <- ->.
      exists (String "$" (String c before)), after. split; [done|]. split.
      * change (String "$" (String c before) +:+ "$")
          with (String "$" (String c (before +:+ "$"))).
        rewrite has_pid_mark_dollar_other by done. exact Hb.
      * intros pidStr. rewrite expandShellPid_dollar_other by done.
        by rewrite Hexp.
Qed.

(** ** Lines with redirections and the background mark *)

Lemma is_word_symbol (w : string) :
  w = "<"%string \/ w = ">"%string \/ w = "&"%string -> is_word w.
Proof.
  intros [-> | [-> | ->]]; (split; [done|]);
    (constructor; [done|constructor]).
Qed.

Lemma argument_word_mark : argument_word "&".
Proof. split; [apply is_word_symbol; auto|done]. Qed.


(** The redirections of a line set the two file names and leave the vector
    as it is. *)
Lemma parse_tokens_redirections (pidStr : string) (fin fout : option string)
    (rest : list string) (c : CommandLine) :
  parse_tokens pidStr (redirection "<" fin ++ redirection ">" fout ++ rest) c
  = parse_tokens pidStr rest
      {| capacity := capacity c; size := size c; bg := bg c;
         inputFile := match fin with Some f => Some f | None => inputFile c end;
         outputFile := match fout with Some f => Some f | None => outputFile c end;
         arr := arr c |}.
Proof. destruct fin, fout, c; reflexivity. Qed.

(** What [parse_tokens] returns on the words of a command, its
    redirections and its background mark. *)
Lemma parse_tokens_command (pidStr : string) (words : list string)
    (fin fout : option string) (background : bool) (c0 : CommandLine) :
  no_dollar pidStr ->
  Forall argument_word words ->
  commandline_ok c0 [] ->
  2 * Z.of_nat (length words) + 2 <= INT_MAX ->
  exists c,
    parse_tokens pidStr
      (words ++ redirection "<" fin ++ redirection ">" fout ++ ampersand background) c0
    = Some c /\
    commandline_ok c (map (replace_all pidStr) words ++ ampersand background) /\
    bg c = bg c0 /\
    inputFile c = match fin with Some f => Some f | None => inputFile c0 end /\
    outputFile c = match fout with Some f => Some f | None => outputFile c0 end.
Proof.
  intros Hpid Hw Hok0 Hmax.
  rewrite parse_tokens_arguments by done.
  pose proof Hok0 as (_ & Hsz0 & _ & _). simpl in Hsz0.
  destruct (addCommandLines_returns (map (replace_all pidStr) words) c0 [] Hok0)
    as [c1 E1]; [rewrite length_map; lia|].
  rewrite E1. cbn [mbind option_bind].
  pose proof (addCommandLines_ok _ _ _ Hok0 _ E1) as Hok1. simpl in Hok1.
  destruct (addCommandLines_files _ _ _ E1) as (Hbg1 & Hin1 & Hout1).
  rewrite parse_tokens_redirections.
  set (c2 := {| capacity := capacity c1 |}).
  assert (Hok2 : commandline_ok c2 (map (replace_all pidStr) words))
    by (by apply commandline_ok_files).
  destruct background; cbn [ampersand].
  - change ["&"%string] with (["&"%string] ++ []).
    rewrite parse_tokens_arguments
      by (done || (constructor; [apply argument_word_mark|constructor])).
    cbn [map addCommandLines parse_tokens].
    replace (replace_all pidStr "&") with "&"%string by done.
    destruct (addCommandLine_returns c2 _ "&" Hok2) as [c3 E3].
    { destruct Hok2 as (_ & -> & _). rewrite length_map. lia. }
    rewrite E3. cbn [mbind option_bind]. exists c3. split; [done|].
    split; [by apply (addCommandLine_ok c2)|].
    assert (H3 : addCommandLines c2 ["&"%string] = Some c3)
      by (cbn [addCommandLines]; by rewrite E3).
    destruct (addCommandLines_files _ _ _ H3) as (-> & -> & ->).
    subst c2. cbn [bg inputFile outputFile]. by rewrite Hbg1, Hin1, Hout1.
  - cbn [parse_tokens]. exists c2. rewrite app_nil_r. split; [done|].
    split; [done|]. subst c2. cbn [bg inputFile outputFile].
    by rewrite Hbg1, Hin1, Hout1.
Qed.

Lemma parseLine_tokens (pidStr : string) (toks : list string) :
  Forall is_word toks ->
  parseLine pidStr (line_of toks)
  = (commands ← initCommandLine 10;
     commands' ← parse_tokens pidStr toks commands;
     set_background commands').
Proof. intros Hw. unfold parseLine. by rewrite strtok_all_words. Qed.

Lemma Forall_argument_is_word (words : list string) :
  Forall argument_word words -> Forall is_word words.
Proof. intros H. eapply Forall_impl; [exact H|]. by intros w [? _]. Qed.

Lemma Forall_ampersand (background : bool) : Forall is_word (ampersand background).
Proof.
  destruct background; constructor; [|constructor]. apply is_word_symbol; auto.
Qed.

(** A line of words with the background mark and no redirection. *)
Lemma parseLine_background_words (pidStr : string) (words : list string) :
  no_dollar pidStr ->
  Forall argument_word words ->
  2 * Z.of_nat (length words) + 2 <= INT_MAX ->
  exists c,
    parseLine pidStr (line_of (words ++ ["&"%string])) = Some c /\
    commandline_ok c (map (replace_all pidStr) words) /\
    bg c = 1 /\
    inputFile c = Some "/dev/null"%string /\
    outputFile c = Some "/dev/null"%string.
Proof.
  intros Hpid Hw Hmax.
  rewrite parseLine_tokens.
  2:{ rewrite Forall_app. split; [by apply Forall_argument_is_word|].
      apply (Forall_ampersand true). }
  destruct (initCommandLine_ok 10) as (c0 & E0 & Hok0 & _); [unfold INT_MAX; lia|].
  rewrite E0. cbn [mbind option_bind].
  destruct (parse_tokens_command pidStr words None None true c0
              Hpid Hw Hok0 Hmax) as (c1 & E1 & Hok1 & _ & Hin1 & Hout1).
  cbn [redirection ampersand app] in E1, Hok1.
  rewrite E1. cbn [mbind option_bind].
  unfold initCommandLine in E0. simpl in E0. injection E0 as <-.
  cbn [inputFile outputFile] in Hin1, Hout1.
  destruct (set_background_mark c1 _ Hok1) as (c & E & Hok & Hbg & Hi & Ho).
  exists c. split; [done|]. split; [done|]. split; [done|].
  by rewrite Hi, Ho, Hin1, Hout1.
Qed.

(** ** The registry with an identifier held twice *)

Lemma remove_first_split (num : Z) (before after : list Link) (x : Link) :
  pidNo x = num ->
  num ∉ map pidNo before ->
  remove_first num (before ++ x :: after) = before ++ after.
Proof.
  intros Hx. induction before as [|y before IH]; intros Hnot; simpl.
  - apply Z.eqb_eq in Hx. by rewrite Hx.
  - simpl in Hnot. apply not_elem_of_cons in Hnot as [Hy Hnot].
    replace (pidNo y =? num) with false by (symmetry; apply Z.eqb_neq; congruence).
    by rewrite IH.
Qed.

(** ** The loop of [main], one line at a time *)

Section Lines.

Context {WM : WaitMacros} {SY : Sys}.

Lemma external_words_is_external (c : CommandLine) (args : list string) :
  commandline_ok c args -> external_words args -> is_external c.
Proof.
  intros (Hcap & Hsz & Hlt & Harr) (arg0 & rest & -> & Hhash & Hcd & Hst & Hex).
  exists arg0. simpl in Hsz. split; [lia|]. split; [by rewrite Harr|done].
Qed.

(** The fork of an external command, as [dispatch] makes it after the
    prompt. *)
Lemma dispatch_fork (commands : CommandLine) (s : Shell) (o0 : OS) (spawnPid : Z) :
  sys_fork (os (world s)) = (o0, spawnPid) ->
  fork (world (with_world s (printf NPrompt (world s))))
  = ({| os := o0; trace := trace (world s) ++ [EPrintf NPrompt; EFork spawnPid] |},
     spawnPid).
Proof.
  intros Hfork. unfold fork. simpl. rewrite Hfork. unfold emit. simpl.
  by rewrite <- app_assoc.
Qed.

End Lines.

(** ** execHandle *)

Section Child.

Context {CS : ChildSys}.

Lemma redirect_cases (o : COS) (tr : list ChildEvent) (path : string)
    (h : open_how) (target : Z) :
  (exists code, redirect o tr path h target
                = inl (tr ++ [CEOpen path h (-1)], code)) \/
  (exists fd code, fd <> -1 /\
     redirect o tr path h target
     = inl (tr ++ [CEOpen path h fd; CEDup2 fd target (-1)], code)) \/
  (exists fd result o', fd <> -1 /\ result <> -1 /\
     redirect o tr path h target
     = inr (o', tr ++ [CEOpen path h fd; CEDup2 fd target result])).
Proof.
  unfold redirect.
  destruct (child_open o path h) as [o1 [fd errno1]].
  destruct (fd =? -1) eqn:Efd.
  - apply Z.eqb_eq in Efd. subst fd. left. by eexists.
  - apply Z.eqb_neq in Efd. right.
    destruct (child_dup2 o1 fd target) as [o2 [result errno2]].
    destruct (result =? -1) eqn:Er.
    + apply Z.eqb_eq in Er. subst result. left. exists fd, errno2.
      split; [done|]. by rewrite <- app_assoc.
    + apply Z.eqb_neq in Er. right. exists fd, result, o2.
      split; [done|]. split; [done|]. by rewrite <- app_assoc.
Qed.

(** A command with an input file: the first call of the child opens it
    for reading. *)
Lemma execHandle_opens_input (c : CommandLine) (o : COS) (path : string) :
  inputFile c = Some path ->
  exists fd, head (fst (execHandle c o)) = Some (CEOpen path OPEN_RDONLY fd).
Proof.
  intros Hin. unfold execHandle. rewrite Hin.
  destruct (redirect_cases o [] path OPEN_RDONLY 0)
    as [[code ->]|[(fd & code & _ & ->)|(fd & result & o' & _ & _ & ->)]].
  - by eexists.
  - by eexists.
  - exists fd. cbn [app].
    destruct (outputFile c) as [out|].
    + destruct (redirect_cases o' [CEOpen path OPEN_RDONLY fd; CEDup2 fd 0 result]
                  out OPEN_WRONLY_CREAT_TRUNC_0644 1)
        as [[code ->]|[(fd2 & code & _ & ->)|(fd2 & r2 & o2 & _ & _ & ->)]];
        try done.
      destruct (arr c !! 0%nat) as [[file|]|]; try done.
      destruct (child_execvp o2 file (arr c)) as [[? [ret ?]]|]; [|done].
      by destruct (ret <? 0).
    + destruct (arr c !! 0%nat) as [[file|]|]; try done.
      destruct (child_execvp o' file (arr c)) as [[? [ret ?]]|]; [|done].
      by destruct (ret <? 0).
Qed.

(** The three ways [execHandle] goes: a redirection fails and the child
    exits; every redirection succeeds and [execvp] is called; or the vector
    has no first string. *)
Lemma execHandle_shape (c : CommandLine) (o : COS) :
  (exists good bad code,
      execHandle c o = (good ++ [bad], ChildExit code) /\
      Forall succeeded_redirection good /\
      failed_redirection bad) \/
  (exists good file e,
      execHandle c o = (good ++ [CEExecvp file (arr c)], e) /\
      Forall succeeded_redirection good /\
      arr c !! 0%nat = Some (Some file) /\
      opened good = expected_opens c /\
      duplicated_onto good = expected_targets c /\
      e <> ChildUndefined) \/
  (exists good,
      execHandle c o = (good, ChildUndefined) /\
      Forall succeeded_redirection good).
Proof.
  assert (Hexec : forall (o2 : COS) (good : list ChildEvent),
             Forall succeeded_redirection good ->
             opened good = expected_opens c ->
             duplicated_onto good = expected_targets c ->
             let r :=
               match arr c !! 0%nat with
               | Some (Some file) =>
                   let tr3 := good ++ [CEExecvp file (arr c)] in
                   match child_execvp o2 file (arr c) with
                   | None => (tr3, Replaced)
                   | Some (_, (ret, errno3)) =>
                       if ret <? 0 then (tr3, ChildExit errno3) else (tr3, Returned)
                   end
               | _ => (good, ChildUndefined)
               end in
             (exists good' file e,
                 r = (good' ++ [CEExecvp file (arr c)], e) /\
                 Forall succeeded_redirection good' /\
                 arr c !! 0%nat = Some (Some file) /\
                 opened good' = expected_opens c /\
                 duplicated_onto good' = expected_targets c /\
                 e <> ChildUndefined) \/
             (exists good',
                 r = (good', ChildUndefined) /\ Forall succeeded_redirection good')).
  { intros o2 good Hgood Hop Hdup. cbv zeta.
    destruct (arr c !! 0%nat) as [[file|]|]; [|right; by exists good..].
    left. destruct (child_execvp o2 file (arr c)) as [[? [ret errno3]]|];
      [destruct (ret <? 0)|]; by eexists good, file, _. }
  unfold execHandle, expected_opens, expected_targets in *.
  destruct (inputFile c) as [fin|].
  - destruct (redirect_cases o [] fin OPEN_RDONLY 0)
      as [[code ->]|[(fd & code & Hfd & ->)|(fd & result & o1 & Hfd & Hres & ->)]].
    + left. by exists [], (CEOpen fin OPEN_RDONLY (-1)), code.
    + left. exists [CEOpen fin OPEN_RDONLY fd], (CEDup2 fd 0 (-1)), code.
      split; [done|]. split; [|done]. by constructor.
    + cbn [app].
      assert (Hgood1 : Forall succeeded_redirection
                         [CEOpen fin OPEN_RDONLY fd; CEDup2 fd 0 result])
        by (constructor; [done|constructor; [done|constructor]]).
      destruct (outputFile c) as [fout|].
      * destruct (redirect_cases o1 [CEOpen fin OPEN_RDONLY fd; CEDup2 fd 0 result]
                    fout OPEN_WRONLY_CREAT_TRUNC_0644 1)
          as [[code ->]|[(fd2 & code & Hfd2 & ->)|(fd2 & r2 & o2 & Hfd2 & Hr2 & ->)]].
        -- left. by eexists _, _, code.
        -- left. exists [CEOpen fin OPEN_RDONLY fd; CEDup2 fd 0 result;
                         CEOpen fout OPEN_WRONLY_CREAT_TRUNC_0644 fd2],
                        (CEDup2 fd2 1 (-1)), code.
           split; [done|]. split; [|done].
           constructor; [done|constructor; [done|constructor; [done|constructor]]].
        -- right. apply Hexec; [|done|done]. cbn [app].
           constructor; [done|constructor; [done|
             constructor; [done|constructor; [done|constructor]]]].
      * right. by apply Hexec.
  - destruct (outputFile c) as [fout|].
    + destruct (redirect_cases o [] fout OPEN_WRONLY_CREAT_TRUNC_0644 1)
        as [[code ->]|[(fd2 & code & Hfd2 & ->)|(fd2 & r2 & o2 & Hfd2 & Hr2 & ->)]].
      * left. by exists [], (CEOpen fout OPEN_WRONLY_CREAT_TRUNC_0644 (-1)), code.
      * left. exists [CEOpen fout OPEN_WRONLY_CREAT_TRUNC_0644 fd2],
                     (CEDup2 fd2 1 (-1)), code.
        split; [done|]. split; [|done]. by constructor.
      * right. apply Hexec; [|done|done]. cbn [app].
        constructor; [done|constructor; [done|constructor]].
    + right. by apply Hexec.
Qed.

Lemma succeeded_not_failed (good : list ChildEvent) :
  Forall succeeded_redirection good ->
  ~ Exists failed_redirection good /\
  forall file argv, CEExecvp file argv ∉ good.
Proof.
  induction 1 as [|e good He Hgood [IH1 IH2]].
  - split; [by intros H%Exists_nil|]. intros file argv H. by apply elem_of_nil in H.
  - split.
    + intros [Hf|Hf]%Exists_cons; [|done]. by destruct e.
    + intros file argv [<-|Hin]%elem_of_cons; [exact He|]. by apply (IH2 file argv).
Qed.

End Child.

(** ** The built-in commands and the registry *)

Section Builtins.

Context {WM : WaitMacros} {SY : Sys}.

Lemma exitHandle_loop_quiet (fuel : nat) :
  forall (w : World) (c : ChildrenPids) (i : Z) (w' : World) (c' : ChildrenPids),
    exitHandle_loop fuel w c i = Some (w', c') ->
    exists evs, trace w' = trace w ++ evs /\ quiet evs.
Proof.
  induction fuel as [|fuel IH]; intros w c i w' c' H; cbn [exitHandle_loop] in H.
  - destruct (negb (cp_size c =? 0) && (i <? 50)); [discriminate|].
    injection H as <- <-. exists []. split; [by rewrite app_nil_r|constructor].
  - destruct (negb (cp_size c =? 0) && (i <? 50)).
    2:{ injection H as <- <-. exists []. split; [by rewrite app_nil_r|constructor]. }
    destruct (cp_list c) as [|temp rest]; [discriminate|].
    unfold kill in H.
    destruct (sys_kill (os w) (pidNo temp) SIGTERM) as [o ret].
    destruct (ret =? 0).
    + destruct (deleteChildrenPids c (pidNo temp)) as [[c1 deleted]|]; [|discriminate].
      cbn [mbind option_bind] in H.
      apply IH in H as (evs & Ht & Hq).
      destruct (deleted =? 0); rewrite Ht; unfold printf, emit; cbn [trace];
        rewrite <- !app_assoc; eexists; (split; [reflexivity|]);
        repeat (constructor; [reflexivity|]); exact Hq.
    + apply IH in H as (evs & Ht & Hq).
      rewrite Ht; unfold perror, emit; cbn [trace];
        rewrite <- !app_assoc; eexists; (split; [reflexivity|]);
        repeat (constructor; [reflexivity|]); exact Hq.
Qed.

Lemma cdHandle_quiet (c : CommandLine) (w w' : World) :
  cdHandle c w = Some w' ->
  exists evs, trace w' = trace w ++ evs /\ quiet evs.
Proof.
  unfold cdHandle. intros H.
  destruct (if size c =? 1 then _ else _) as [path|]; [|discriminate].
  cbn [mbind option_bind] in H.
  destruct (_ <? _)%nat; [|discriminate].
  unfold chdir in H. destruct (sys_chdir (os w) path) as [o ret].
  injection H as <-.
  destruct (ret =? -1); unfold perror, emit; cbn [trace];
    rewrite <- ?app_assoc; eexists; (split; [reflexivity|]);
    repeat (constructor; [reflexivity|]); constructor.
Qed.

Lemma statusHandle_quiet (exitMethod : Z) (w : World) :
  exists evs, trace (statusHandle exitMethod w) = trace w ++ evs /\ quiet evs.
Proof.
  unfold statusHandle.
  destruct (negb (WIFEXITED exitMethod =? 0)); [|destruct (negb (WIFSIGNALED exitMethod =? 0))];
    unfold printf, emit; cbn [trace].
  - eexists. split; [reflexivity|]. by repeat constructor.
  - eexists. split; [reflexivity|]. by repeat constructor.
  - exists []. split; [by rewrite app_nil_r|constructor].
Qed.

(** Every request of the shutdown refused, the state of the system as it
    was: the loop asks 50 - i times. *)
Lemma exitHandle_loop_refused (c : ChildrenPids) (first : Link) (rest : list Link)
    (o : OS) (r : Z) (fuel : nat) :
  cp_size c <> 0 ->
  cp_list c = first :: rest ->
  sys_kill o (pidNo first) SIGTERM = (o, r) ->
  r <> 0 ->
  forall (w : World) (i : Z),
    os w = o ->
    0 <= i <= 50 ->
    50 - i <= Z.of_nat fuel ->
    exists w',
      exitHandle_loop fuel w c i = Some (w', c) /\
      os w' = o /\
      trace w' = trace w
                   ++ concat (replicate (Z.to_nat (50 - i))
                                [EKill (pidNo first) SIGTERM r;
                                 EPerror "Exit Failure: "]).
Proof.
  intros Hsz Hlist Hkill Hr.
  apply Z.eqb_neq in Hsz, Hr.
  induction fuel as [|fuel IH]; intros w i Hos Hi Hfuel.
  - assert (i = 50) as -> by lia. cbn [exitHandle_loop].
    rewrite andb_false_r. exists w. split; [done|]. split; [done|].
    by rewrite app_nil_r.
  - cbn [exitHandle_loop]. rewrite Hsz. cbn [negb andb].
    destruct (i <? 50) eqn:Ei.
    + apply Z.ltb_lt in Ei. rewrite Hlist. unfold kill. rewrite Hos, Hkill, Hr.
      rewrite wrap_int_small by (unfold INT_MAX; lia).
      destruct (IH (perror "Exit Failure: "
                      (emit (EKill (pidNo first) SIGTERM r)
                            {| os := o; trace := trace w |})) (i + 1))
        as (w' & -> & Hos' & Ht); [done|lia|lia|].
      exists w'. split; [done|]. split; [done|].
      rewrite Ht. unfold perror, emit. cbn [trace].
      replace (Z.to_nat (50 - i)) with (Datatypes.S (Z.to_nat (50 - (i + 1)))) by lia.
      cbn [replicate concat]. by rewrite <- !app_assoc.
    + apply Z.ltb_ge in Ei. assert (i = 50) as -> by lia.
      exists w. split; [done|]. split; [done|]. by rewrite app_nil_r.
Qed.

End Builtins.

(** ** The sweep of the background children *)

Section Sweep.

Context {WM : WaitMacros} {SY : Sys}.

Lemma deleteChildrenPids_step (c : ChildrenPids) (num : Z) :
  registry_ok c ->
  exists c1 ret,
    deleteChildrenPids c num = Some (c1, ret) /\
    registry_ok c1 /\
    cp_size c - 1 <= cp_size c1 <= cp_size c.
Proof.
  intros Hok. destruct (inChildrenPids_bool c num) as [Hin|Hin].
  - apply (inChildrenPids_not_elem _ _ Hok) in Hin.
    rewrite deleteChildrenPids_absent by done.
    eexists _, _. split; [reflexivity|]. split; [done|lia].
  - apply (inChildrenPids_elem _ _ Hok) in Hin.
    rewrite deleteChildrenPids_present by done.
    eexists _, _. split; [reflexivity|]. split; [by apply registry_ok_remove|].
    cbn [cp_size]. lia.
Qed.

Lemma count_wait_background_notices (d : Decoded) :
  count_events is_wait (background_notices d) = 0%nat.
Proof.
  unfold background_notices.
  by destruct (negb (exited d =? 0)), (exitStatus d =? 0), (negb (signaled d =? 0)).
Qed.

(** The loop from index [i]: how many children it checks, and how many it
    removes. *)
Lemma sweep_loop_checks (fuel : nat) :
  forall w c bgChildren i childExitMethod dec w' c',
    registry_ok c ->
    0 <= i ->
    sweep_loop fuel w c bgChildren i childExitMethod dec = Some (w', c') ->
    exists evs,
      trace w' = trace w ++ evs /\
      let checks := Z.of_nat (count_events is_wait evs) in
      cp_size c' <= cp_size c /\
      cp_size c - cp_size c' <= checks /\
      (i < cp_size c -> cp_size c' <= i + checks <= cp_size c' + 1) /\
      (cp_size c <= i -> checks = 0 /\ c' = c).
Proof.
  assert (Hend : forall (w : World) (c : ChildrenPids) (i : Z),
             (i <? cp_size c) = false ->
             exists evs,
               trace w = trace w ++ evs /\
               let checks := Z.of_nat (count_events is_wait evs) in
               cp_size c <= cp_size c /\
               cp_size c - cp_size c <= checks /\
               (i < cp_size c -> cp_size c <= i + checks <= cp_size c + 1) /\
               (cp_size c <= i -> checks = 0 /\ c = c)).
  { intros w c i Ei. apply Z.ltb_ge in Ei. exists [].
    split; [by rewrite app_nil_r|]. cbn. split; [lia|]. split; [lia|].
    split; [lia|done]. }
  induction fuel as [|fuel IH];
    intros w c bgChildren i childExitMethod dec w' c' Hok Hi Hrun.
  - cbn [sweep_loop] in Hrun. destruct (i <? cp_size c) eqn:Ei; [discriminate|].
    injection Hrun as <- <-. by apply Hend.
  - cbn [sweep_loop] in Hrun. destruct (i <? cp_size c) eqn:Ei.
    2:{ injection Hrun as <- <-. by apply Hend. }
    apply Z.ltb_lt in Ei.
    assert (Hwrap : wrap_int (i + 1) = i + 1).
    { apply wrap_int_small. destruct Hok as [Hsz Hmax]. unfold INT_MAX in *. lia. }
    rewrite Hwrap in Hrun.
    destruct (index_in i (length bgChildren)) as [k|]; [|discriminate].
    cbn [mbind option_bind] in Hrun.
    destruct (bgChildren !! k) as [pid|]; [|discriminate].
    cbn [mbind option_bind] in Hrun.
    unfold waitpid in Hrun.
    destruct (sys_waitpid (os w) pid WNOHANG) as [o [currPid stored]].
    destruct (negb (currPid =? 0)).
    + destruct (deleteChildrenPids_step c currPid Hok)
        as (c1 & ret & Hdel & Hok1 & Hsize).
      rewrite Hdel in Hrun. cbn [mbind option_bind] in Hrun.
      destruct (match stored with Some st => Some st | None => childExitMethod end)
        as [st|]; [|discriminate].
      cbn [mbind option_bind] in Hrun.
      destruct (decipherExitStatus st dec) as [d|]; [|discriminate].
      cbn [mbind option_bind] in Hrun.
      apply IH in Hrun as (evs & Ht & Hle & Hrem & Hlt & Hge); [|done|lia].
      match type of Ht with
      | context [report_background d ?w2] =>
          destruct (trace_report_background d w2) as [Ht2 _]
      end.
      rewrite Ht2 in Ht. unfold printf, emit in Ht. cbn [trace] in Ht.
      rewrite <- !app_assoc in Ht. cbn [app] in Ht.
      eexists. split; [exact Ht|].
      cbn [count_events is_wait]. rewrite count_events_app.
      rewrite count_wait_background_notices. cbn zeta in *.
      destruct (Z_lt_le_dec (i + 1) (cp_size c1)) as [Hc|Hc].
      * specialize (Hlt Hc). lia.
      * destruct (Hge Hc) as [Hz ->]. lia.
    + apply IH in Hrun as (evs & Ht & Hle & Hrem & Hlt & Hge); [|done|lia].
      unfold emit in Ht. cbn [trace] in Ht. rewrite <- app_assoc in Ht.
      eexists. split; [exact Ht|].
      cbn [app count_events is_wait]. cbn zeta in *.
      destruct (Z_lt_le_dec (i + 1) (cp_size c)) as [Hc|Hc].
      * specialize (Hlt Hc). lia.
      * destruct (Hge Hc) as [Hz ->]. lia.
Qed.

Lemma copy_pids_spec (l : list Link) :
  forall (copied : list Z) (m : nat),
    (length l <= m)%nat ->
    copy_pids l (length copied) (copied ++ replicate m 0)
    = Some (copied ++ map pidNo l ++ replicate (m - length l) 0).
Proof.
  induction l as [|x l IH]; intros copied m Hm; cbn [copy_pids].
  - by rewrite Nat.sub_0_r.
  - cbn [length] in Hm. destruct m as [|m]; [lia|].
    replace (length copied <? length (copied ++ replicate (Datatypes.S m) 0%Z))%nat
      with true
      by (symmetry; apply Nat.ltb_lt; rewrite length_app, length_replicate; lia).
    rewrite insert_app_r_alt by lia. rewrite Nat.sub_diag. cbn [replicate].
    change (<[0%nat:=pidNo x]> (0 :: replicate m 0)) with (pidNo x :: replicate m 0).
    specialize (IH (copied ++ [pidNo x]) m ltac:(lia)).
    rewrite length_app in IH. cbn [length] in IH.
    replace (length copied + 1)%nat with (Datatypes.S (length copied)) in IH by lia.
    rewrite <- !app_assoc in IH. cbn [app] in IH. rewrite IH.
    cbn [map app length]. by replace (Datatypes.S m - Datatypes.S (length l))%nat
      with (m - length l)%nat by lia.
Qed.

(** The loop over a snapshot whose children are all running. *)
Lemma sweep_loop_running (c : ChildrenPids) (o : OS) (bgChildren : list Z)
    (childExitMethod : option Z) (dec : option Decoded) (fuel : nat) :
  cp_size c = Z.of_nat (length bgChildren) ->
  cp_size c <= INT_MAX ->
  (forall p, p ∈ bgChildren -> sys_waitpid o p WNOHANG = (o, (0, None))) ->
  forall (w : World) (i : Z),
    os w = o ->
    0 <= i <= cp_size c ->
    cp_size c - i <= Z.of_nat fuel ->
    exists w',
      sweep_loop fuel w c bgChildren i childExitMethod dec = Some (w', c) /\
      os w' = o /\
      trace w' = trace w ++ map (fun p => EWaitpid p WNOHANG 0)
                                (drop (Z.to_nat i) bgChildren).
Proof.
  intros Hsz Hmax Hrun.
  assert (Hend : forall (w : World), os w = o ->
             exists w', Some (w, c) = Some (w', c) /\ os w' = o /\
               trace w' = trace w ++ map (fun p => EWaitpid p WNOHANG 0)
                                        (drop (Z.to_nat (cp_size c)) bgChildren)).
  { intros w Hos. exists w. split; [done|]. split; [done|].
    rewrite drop_ge by lia. by rewrite app_nil_r. }
  induction fuel as [|fuel IH]; intros w i Hos Hi Hfuel.
  - assert (i = cp_size c) as -> by lia. cbn [sweep_loop].
    rewrite Z.ltb_irrefl. by apply Hend.
  - cbn [sweep_loop]. destruct (i <? cp_size c) eqn:Ei.
    2:{ apply Z.ltb_ge in Ei. assert (i = cp_size c) as -> by lia. by apply Hend. }
    apply Z.ltb_lt in Ei. unfold index_in.
    replace ((0 <=? i) && (i <? Z.of_nat (length bgChildren))) with true
      by (symmetry; apply andb_true_iff; split;
          [apply Z.leb_le|apply Z.ltb_lt]; lia).
    cbn [mbind option_bind].
    destruct (lookup_lt_is_Some_2 bgChildren (Z.to_nat i)) as [pid Hpid]; [lia|].
    rewrite Hpid. cbn [mbind option_bind].
    unfold waitpid. rewrite Hos.
    rewrite (Hrun pid) by (by eapply list_elem_of_lookup_2).
    cbn [Z.eqb negb].
    rewrite wrap_int_small by (unfold INT_MAX in *; lia).
    destruct (IH (emit (EWaitpid pid WNOHANG 0) {| os := o; trace := trace w |})
                 (i + 1)) as (w' & -> & Hos' & Ht); [done|lia|lia|].
    exists w'. split; [done|]. split; [done|].
    rewrite Ht. unfold emit. cbn [trace]. rewrite <- app_assoc.
    rewrite (drop_S bgChildren pid (Z.to_nat i) Hpid).
    cbn [map app]. by replace (Z.to_nat (i + 1)) with (Datatypes.S (Z.to_nat i)) by lia.
Qed.

End Sweep.

(** * The properties of the specification, on the code *)

(** C1. For every external command that [parseLine] returns, dispatched in
    a state whose mode flag is 0 or 1, in the parent and below the bound on
    the number of children: the background flag the command is run with is
    1 exactly when the parsed flag is 1 and [BGAllowed] is 1, and 0
    otherwise. When it is 1 the parent writes the "starts" notice right
    after the fork and goes on without a blocking wait; when it is 0, also
    when the line asked for the background and [BGAllowed] is 0, no
    "starts" notice is written and the parent makes the blocking
    [waitpid] for the child. *)
Theorem effective_background_flag {WM : WaitMacros} {SY : Sys}
    (pidStr line : string) (commands : CommandLine)
    (s : Shell) (o0 : OS) (spawnPid : Z) :
  parseLine pidStr line = Some commands ->
  BGAllowed s = 0 \/ BGAllowed s = 1 ->
  registry_ok (children s) ->
  cp_size (children s) + 1 < MAXCHILDREN ->
  sys_fork (os (world s)) = (o0, spawnPid) ->
  spawnPid <> -1 ->
  spawnPid <> 0 ->
  (bg (resolve_background 0 (BGAllowed s) commands) = 0 ->
   foreground_wait_decodes o0 spawnPid) ->
  let effective := if (bg commands =? 1) && (BGAllowed s =? 1) then 1 else 0 in
  bg (resolve_background 0 (BGAllowed s) commands) = effective /\
  exists s' evs,
    dispatch 0 commands s = Continue s' /\
    trace (world s') = trace (world s) ++ (EFork spawnPid :: evs) /\
    (effective = 1 ->
     evs = [EPrintf (NBackgroundStarts spawnPid)] /\
     inChildrenPids (children s') spawnPid = 1) /\
    (effective = 0 ->
     (EPrintf (NBackgroundStarts spawnPid) ∉ evs) /\
     (exists ret, EWaitpid spawnPid WAIT_0 ret ∈ evs)).
Proof.
  intros Hparse Hmode Hok Hmax Hfork Hn1 Hn0 Hwait effective.
  pose proof (parseLine_bg _ _ _ Hparse) as Hbg.
  assert (Heff : bg (resolve_background 0 (BGAllowed s) commands) = effective).
  { rewrite resolve_background_bg. unfold effective.
    destruct Hmode as [-> | ->], Hbg as [-> | ->]; reflexivity. }
  split; [exact Heff|].
  destruct (dispatch_parent 0 commands s o0 spawnPid Hok Hmax Hfork Hn1 Hn0)
    as [Hback Hfore].
  assert (Hcases : effective = 1 \/ effective = 0).
  { unfold effective. destruct ((bg commands =? 1) && (BGAllowed s =? 1)); auto. }
  destruct Hcases as [E|E]; rewrite E in Heff.
  - rewrite (Hback Heff). eexists _, _. split; [reflexivity|]. simpl.
    split; [by rewrite <- app_assoc|]. split; [|lia].
    intros _. split; [done|].
    apply inChildrenPids_elem.
    + apply registry_ok_add; [done|].
      destruct Hok as [Hsz _]. unfold MAXCHILDREN, INT_MAX in *. lia.
    + unfold pids. simpl. rewrite map_app. apply elem_of_app. right.
      simpl. apply elem_of_cons. by left.
  - rewrite (Hfore Heff).
    destruct (Hwait Heff) as (o1 & r1 & o2 & ret & st & Hb & Hw & Hdec).
    destruct (sys_sigprocmask o2 SIG_UNBLOCK [SIGTSTP]) as [o3 r3] eqn:Hu.
    destruct (decodable_decoded st (decoded s) Hdec) as [d Hd].
    match goal with
    | |- context [foreground_wait _ _ ?c1 ?wf] =>
        set (children1 := c1); set (w1 := wf);
        assert (Hdel : exists children2 rdel,
                   deleteChildrenPids children1 spawnPid = Some (children2, rdel))
    end.
    { rewrite deleteChildrenPids_present; [by eexists _, _| |].
      - apply registry_ok_add; [done|].
        destruct Hok as [Hsz _]. unfold MAXCHILDREN, INT_MAX in *. lia.
      - unfold pids. simpl. rewrite map_app. apply elem_of_app. right.
        simpl. apply elem_of_cons. by left. }
    destruct Hdel as (children2 & rdel & Hdel).
    destruct (foreground_wait_spec spawnPid s children1 w1 _ _ _ _ _ _ _ _ _ _
                Hb Hw Hu Hdel Hd) as (s' & Hrun & _ & _ & _ & _ & _ & _ & Ht).
    exists s'. eexists. split; [exact Hrun|]. split.
    + rewrite Ht. simpl. rewrite <- app_assoc. simpl. reflexivity.
    + split; [lia|]. intros _. split.
      * repeat (rewrite not_elem_of_cons || rewrite not_elem_of_app).
        split_and!; try done;
          first [apply starts_not_in_perror_events
                |apply starts_not_in_foreground_notices].
      * exists ret. apply elem_of_cons. right. apply elem_of_app. right.
        apply elem_of_cons. by left.
Qed.

Lemma effective_background_flag_witness :
  parseLine "4242" "sleep 5 &" = Some (sleep_command 1) /\
  (BGAllowed foreground_only_shell = 0 \/ BGAllowed foreground_only_shell = 1) /\
  registry_ok (children foreground_only_shell) /\
  cp_size (children foreground_only_shell) + 1 < MAXCHILDREN /\
  bg (sleep_command 1) = 1 /\
  bg (resolve_background 0 (BGAllowed foreground_only_shell) (sleep_command 1)) = 0 /\
  (exists s' evs,
     dispatch 0 (sleep_command 1) foreground_only_shell = Continue s' /\
     trace (world s') = trace (world foreground_only_shell) ++ (EFork 300 :: evs) /\
     (EPrintf (NBackgroundStarts 300) ∉ evs) /\
     (exists ret, EWaitpid 300 WAIT_0 ret ∈ evs)) /\
  bg (resolve_background 0 (BGAllowed (fresh_shell 0)) (sleep_command 1)) = 1 /\
  (exists s',
     dispatch 0 (sleep_command 1) (fresh_shell 0) = Continue s' /\
     trace (world s') = [EFork 300; EPrintf (NBackgroundStarts 300)] /\
     inChildrenPids (children s') 300 = 1).
Proof.
  assert (Hparse : parseLine "4242" "sleep 5 &" = Some (sleep_command 1))
    by reflexivity.
  assert (Hmode : BGAllowed foreground_only_shell = 0 \/
                  BGAllowed foreground_only_shell = 1) by (left; reflexivity).
  assert (Hok : registry_ok (children foreground_only_shell)).
  { split; [reflexivity|]. vm_compute. discriminate. }
  assert (Hmax : cp_size (children foreground_only_shell) + 1 < MAXCHILDREN)
    by reflexivity.
  assert (Hfork : sys_fork (os (world foreground_only_shell)) = (child_300 0, 300))
    by reflexivity.
  assert (Hwait :
            bg (resolve_background 0 (BGAllowed foreground_only_shell)
                                   (sleep_command 1)) = 0 ->
            foreground_wait_decodes (child_300 0) 300).
  { intros _. eexists _, _, _, _, _. split; [reflexivity|]. split; [reflexivity|].
    left. exists 0. split; [vm_compute; discriminate|reflexivity]. }
  destruct (effective_background_flag "4242" "sleep 5 &" (sleep_command 1)
              foreground_only_shell (child_300 0) 300
              Hparse Hmode Hok Hmax Hfork ltac:(lia) ltac:(lia) Hwait)
    as (Heff & s' & evs & Hrun & Ht & _ & Hfg).
  assert (Hmode1 : BGAllowed (fresh_shell 0) = 0 \/ BGAllowed (fresh_shell 0) = 1)
    by (right; reflexivity).
  assert (Hok1 : registry_ok (children (fresh_shell 0))).
  { split; [reflexivity|]. vm_compute. discriminate. }
  assert (Hwait1 :
            bg (resolve_background 0 (BGAllowed (fresh_shell 0))
                                   (sleep_command 1)) = 0 ->
            foreground_wait_decodes (child_300 0) 300).
  { intros H. discriminate H. }
  destruct (effective_background_flag "4242" "sleep 5 &" (sleep_command 1)
              (fresh_shell 0) (child_300 0) 300
              Hparse Hmode1 Hok1 ltac:(reflexivity) ltac:(reflexivity)
              ltac:(lia) ltac:(lia) Hwait1)
    as (Heff1 & s1 & evs1 & Hrun1 & Ht1 & Hbg1 & _).
  split; [exact Hparse|]. split; [exact Hmode|]. split; [exact Hok|].
  split; [exact Hmax|]. split; [reflexivity|]. split; [exact Heff|].
  split.
  { exists s', evs. destruct (Hfg eq_refl) as [Hno Hw].
    split; [exact Hrun|]. split; [exact Ht|]. split; [exact Hno|exact Hw]. }
  split; [exact Heff1|].
  exists s1. destruct (Hbg1 eq_refl) as [Hevs Hin].
  split; [exact Hrun1|]. split; [|exact Hin].
  rewrite Ht1, Hevs. reflexivity.
Defined.

(** C2, on the code. The registry holds 100 and 200 and both children have
    ended. The sweep copies both identifiers, checks 100, removes it, and
    stops: the bound of its loop is the size field, which the removal has
    just lowered to 1. Identifier 200 is in the snapshot, but no [waitpid]
    is made for it in this sweep and it stays in the registry, though a
    check would have found it ended. *)
Theorem sweep_stops_after_removal :
  exists w' children',
    checkBGChildren two_ended_world (registry_of [100; 200])
      = Some (w', children') /\
    trace w' = [EWaitpid 100 WNOHANG 100; EPrintf (NBackgroundFinished 100);
                EPrintf (NExitValue 0)] /\
    pids children' = [200] /\
    sys_waitpid (os w') 200 WNOHANG = (no_child, (200, Some 0)).
Proof. eexists _, _. split; [reflexivity|]. by split_and!. Qed.

(** C3, on the code. A line that ends in "&", read in the mode that allows
    the background, registers its child with [builtIn] = 1: [main] hands
    the background flag of the command to [addChildrenPids] where the flag
    for built-in commands goes. *)
Theorem background_record_marked_builtin :
  exists s',
    main_iteration "sleep 5 &" (fresh_shell 0) = Continue s' /\
    map pidNo (cp_list (children s')) = [300] /\
    map builtIn (cp_list (children s')) = [1].
Proof. eexists. split; [reflexivity|]. by split. Qed.

(** C4. [decipherExitStatus] gives a result on every status of one of the
    two shapes, whatever the caller's variables held: on a status that
    exited with code [c], 0 included, exactly exited = 1, exitStatus = c,
    signaled = 0; on a status ended by signal [sg], exactly signaled = 1,
    termSignal = sg, exited = 0; never exited and signaled together. The
    wait for a foreground child and the sweep of the background children
    both call it: the foreground path keeps this result in the variables of
    [main] and writes its notices from it, and the sweep of a registry with
    one ended child writes its notices from the same result. *)
Theorem decipherExitStatus_total {WM : WaitMacros} {SY : Sys}
    (status : Z) :
  decodable status ->
  exists d,
    (forall out, decipherExitStatus status out = Some d) /\
    (forall c, exitedWithCode status c ->
       d = {| exited := 1; exitStatus := c; signaled := 0; termSignal := 0 |}) /\
    (forall sg, signaledWith status sg ->
       d = {| exited := 0; exitStatus := 0; signaled := 1; termSignal := sg |}) /\
    ~ (exited d <> 0 /\ signaled d <> 0) /\
    (forall spawnPid s children1 w o1 r1 o2 ret o3 r3 children2 rdel,
        sys_sigprocmask (os w) SIG_BLOCK [SIGTSTP] = (o1, r1) ->
        sys_waitpid o1 spawnPid WAIT_0 = (o2, (ret, Some status)) ->
        sys_sigprocmask o2 SIG_UNBLOCK [SIGTSTP] = (o3, r3) ->
        deleteChildrenPids children1 spawnPid = Some (children2, rdel) ->
        exists s' before,
          foreground_wait spawnPid s children1 w = Continue s' /\
          decoded s' = Some d /\
          trace (world s') = before ++ foreground_notices spawnPid d) /\
    (forall w l o,
        pidNo l <> 0 ->
        sys_waitpid (os w) (pidNo l) WNOHANG = (o, (pidNo l, Some status)) ->
        exists w',
          checkBGChildren w {| cp_size := 1; cp_list := [l] |}
            = Some (w', {| cp_size := 0; cp_list := [] |}) /\
          trace w' = trace w ++ [EWaitpid (pidNo l) WNOHANG (pidNo l);
                                 EPrintf (NBackgroundFinished (pidNo l))]
                             ++ background_notices d).
Proof.
  intros Hdec.
  assert (Hd : exists d, forall out, decipherExitStatus status out = Some d).
  { destruct Hdec as [[c Hc]|[sg Hs]]; eexists; intros out.
    - by apply decipherExitStatus_exited.
    - by apply decipherExitStatus_signaled. }
  destruct Hd as [d Hd]. exists d.
  split; [exact Hd|]. split; [|split; [|split; [|split]]].
  - intros c Hc. pose proof (Hd None) as H.
    rewrite (decipherExitStatus_exited status c None Hc) in H. by injection H.
  - intros sg Hs. pose proof (Hd None) as H.
    rewrite (decipherExitStatus_signaled status sg None Hs) in H. by injection H.
  - pose proof (Hd None) as H.
    destruct Hdec as [[c Hc]|[sg Hs]].
    + rewrite (decipherExitStatus_exited status c None Hc) in H.
      injection H as <-. simpl. intros [_ ?]. done.
    + rewrite (decipherExitStatus_signaled status sg None Hs) in H.
      injection H as <-. simpl. intros [? _]. done.
  - intros spawnPid s children1 w o1 r1 o2 ret o3 r3 children2 rdel Hb Hw Hu Hdel.
    destruct (foreground_wait_spec spawnPid s children1 w _ _ _ _ _ _ _ _ _ _
                Hb Hw Hu Hdel (Hd (decoded s)))
      as (s' & Hrun & _ & _ & _ & Hdecoded & _ & _ & Ht).
    exists s'. eexists. split; [exact Hrun|]. split; [exact Hdecoded|].
    rewrite Ht. rewrite !app_assoc. reflexivity.
  - intros w l o Hpid Hwait.
    destruct (checkBGChildren_single w l o status d Hpid Hwait (Hd None))
      as (w' & Hrun & _ & Ht).
    by exists w'.
Qed.

Lemma decipherExitStatus_total_witness :
  decodable 256 /\
  decodable 15 /\
  decipherExitStatus 256 None
    = Some {| exited := 1; exitStatus := 1; signaled := 0; termSignal := 0 |} /\
  decipherExitStatus 15 None
    = Some {| exited := 0; exitStatus := 0; signaled := 1; termSignal := 15 |} /\
  (exists s',
     foreground_wait 300 (fresh_shell 15) (registry_of [300]) (child_300_world 15)
       = Continue s' /\
     decoded s'
       = Some {| exited := 0; exitStatus := 0; signaled := 1; termSignal := 15 |}) /\
  (exists w',
     checkBGChildren (ended_300_world 15) (registry_of [300])
       = Some (w', {| cp_size := 0; cp_list := [] |}) /\
     trace w' = [EWaitpid 300 WNOHANG 300; EPrintf (NBackgroundFinished 300);
                 EPrintf (NTerminatedBySignal 15)]).
Proof.
  assert (Hex : exitedWithCode 256 1).
  { split; [vm_compute; discriminate|reflexivity]. }
  assert (Hsig : signaledWith 15 15).
  { split; [reflexivity|]. split; [vm_compute; discriminate|reflexivity]. }
  assert (H256 : decodable 256) by (left; by exists 1).
  assert (H15 : decodable 15) by (right; by exists 15).
  destruct (decipherExitStatus_total (SY := table_sys) 256 H256) as (d1 & Hd1 & Hc1 & _).
  destruct (decipherExitStatus_total (SY := table_sys) 15 H15)
    as (d2 & Hd2 & _ & Hs2 & _ & Hfore & Hback).
  split; [exact H256|]. split; [exact H15|]. split; [|split; [|split]].
  - rewrite Hd1. f_equal. by apply Hc1.
  - rewrite Hd2. f_equal. by apply Hs2.
  - destruct (Hfore 300 (fresh_shell 15) (registry_of [300]) (child_300_world 15)
                    (child_300 15) 0 no_child 300 no_child 0
                    {| cp_size := 0; cp_list := [] |} 1
                    eq_refl eq_refl eq_refl eq_refl)
      as (s' & before & Hrun & Hdecoded & _).
    exists s'. split; [exact Hrun|]. rewrite Hdecoded. f_equal. by apply Hs2.
  - assert (Hpid : pidNo (initLink 300 (sleep_command 1) 1) <> 0)
      by (simpl; lia).
    destruct (Hback (ended_300_world 15) (initLink 300 (sleep_command 1) 1)
                    no_child Hpid eq_refl) as (w' & Hrun & Ht).
    exists w'. split; [exact Hrun|]. rewrite Ht, (Hs2 15 Hsig). reflexivity.
Defined.

(** C5. For every foreground dispatch, in the parent and below the bound on
    the number of children, of a child whose identifier is not in the
    registry and whose wait stores a status of one of the two shapes: the
    parent calls [sigprocmask(SIG_BLOCK)] on the set that holds SIGTSTP,
    then the blocking [waitpid] for that child, then
    [sigprocmask(SIG_UNBLOCK)], each failed [sigprocmask] followed by its
    [perror]; the child's record is removed, so the registry is as it was
    before the dispatch and does not contain the identifier; the status the
    wait stored is kept in [lastFGExitMethod] and its decoding in the
    variables of [main]; and a child ended by a signal gets the notice that
    names its identifier and the signal. *)
Theorem foreground_wait_protocol {WM : WaitMacros} {SY : Sys}
    (commands : CommandLine) (s : Shell)
    (spawnPid : Z) (o0 o1 o2 o3 : OS) (r1 ret st r3 : Z) :
  bg (resolve_background 0 (BGAllowed s) commands) = 0 ->
  registry_ok (children s) ->
  cp_size (children s) + 1 < MAXCHILDREN ->
  spawnPid ∉ pids (children s) ->
  sys_fork (os (world s)) = (o0, spawnPid) ->
  spawnPid <> -1 ->
  spawnPid <> 0 ->
  sys_sigprocmask o0 SIG_BLOCK [SIGTSTP] = (o1, r1) ->
  sys_waitpid o1 spawnPid WAIT_0 = (o2, (ret, Some st)) ->
  sys_sigprocmask o2 SIG_UNBLOCK [SIGTSTP] = (o3, r3) ->
  decodable st ->
  exists s' d,
    dispatch 0 commands s = Continue s' /\
    trace (world s') =
      trace (world s)
        ++ [EFork spawnPid; ESigprocmask SIG_BLOCK [SIGTSTP] r1]
        ++ perror_events r1 "SIGTSTP is not blocked in foreground child process"
        ++ [EWaitpid spawnPid WAIT_0 ret; ESigprocmask SIG_UNBLOCK [SIGTSTP] r3]
        ++ perror_events r3 "SIGTSTP is not unblocked"
        ++ foreground_notices spawnPid d /\
    children s' = children s /\
    inChildrenPids (children s') spawnPid = 0 /\
    lastFGExitMethod s' = st /\
    decipherExitStatus st (decoded s) = Some d /\
    decoded s' = Some d /\
    (forall sg, signaledWith st sg ->
       foreground_notices spawnPid d = [EPrintf (NForegroundSignal spawnPid sg)]) /\
    (forall c, exitedWithCode st c ->
       foreground_notices spawnPid d =
         if c =? 0 then [] else [EPrintf (NErrorStrerror c)]).
Proof.
  intros Hbg Hok Hmax Hfresh Hfork Hn1 Hn0 Hb Hw Hu Hdec.
  destruct (dispatch_parent 0 commands s o0 spawnPid Hok Hmax Hfork Hn1 Hn0)
    as [_ Hfore].
  rewrite (Hfore Hbg).
  destruct (decodable_decoded st (decoded s) Hdec) as [d Hd].
  assert (Hlt : Z.of_nat (length (cp_list (children s))) < INT_MAX).
  { destruct Hok as [Hsz _]. unfold MAXCHILDREN, INT_MAX in *. lia. }
  match goal with
  | |- context [foreground_wait _ _ ?c1 ?wf] =>
      set (children1 := c1); set (w1 := wf)
  end.
  assert (Hdel : deleteChildrenPids children1 spawnPid = Some (children s, 1)).
  { by apply (add_then_delete (children s) spawnPid). }
  destruct (foreground_wait_spec spawnPid s children1 w1 _ _ _ _ _ _ _ _ _ _
              Hb Hw Hu Hdel Hd)
    as (s' & Hrun & _ & Hch & Hlast & Hdecoded & _ & _ & Ht).
  exists s', d. split; [exact Hrun|]. split_and!; try done.
  - rewrite Ht. simpl. by rewrite <- !app_assoc.
  - rewrite Hch. by apply inChildrenPids_not_elem.
  - intros sg Hsg.
    rewrite (decipherExitStatus_signaled st sg _ Hsg) in Hd. by injection Hd as <-.
  - intros c Hc.
    rewrite (decipherExitStatus_exited st c _ Hc) in Hd. injection Hd as <-.
    unfold foreground_notices. simpl. by destruct (c =? 0).
Qed.

Lemma foreground_wait_protocol_witness :
  bg (resolve_background 0 (BGAllowed (fresh_shell 15)) (sleep_command 0)) = 0 /\
  registry_ok (children (fresh_shell 15)) /\
  (300 ∉ pids (children (fresh_shell 15))) /\
  decodable 15 /\
  exists s',
    dispatch 0 (sleep_command 0) (fresh_shell 15) = Continue s' /\
    trace (world s') =
      [EFork 300; ESigprocmask SIG_BLOCK [SIGTSTP] 0; EWaitpid 300 WAIT_0 300;
       ESigprocmask SIG_UNBLOCK [SIGTSTP] 0;
       EPrintf (NForegroundSignal 300 15)] /\
    inChildrenPids (children s') 300 = 0 /\
    lastFGExitMethod s' = 15.
Proof.
  assert (Hbg : bg (resolve_background 0 (BGAllowed (fresh_shell 15))
                                       (sleep_command 0)) = 0) by reflexivity.
  assert (Hok : registry_ok (children (fresh_shell 15))).
  { split; [reflexivity|]. vm_compute. discriminate. }
  assert (Hfresh : 300 ∉ pids (children (fresh_shell 15))) by apply not_elem_of_nil.
  assert (Hsig : signaledWith 15 15).
  { split; [reflexivity|]. split; [vm_compute; discriminate|reflexivity]. }
  assert (Hdec : decodable 15) by (right; by exists 15).
  destruct (foreground_wait_protocol (sleep_command 0) (fresh_shell 15) 300
              (child_300 15) (child_300 15) no_child no_child
              0 300 15 0 Hbg Hok ltac:(reflexivity) Hfresh
              ltac:(reflexivity) ltac:(lia) ltac:(lia)
              ltac:(reflexivity) ltac:(reflexivity) ltac:(reflexivity) Hdec)
    as (s' & d & Hrun & Ht & Hch & Hin & Hlast & Hd & _ & Hnote & _).
  split; [exact Hbg|]. split; [exact Hok|]. split; [exact Hfresh|].
  split; [exact Hdec|].
  exists s'. split; [exact Hrun|]. split; [|split; [exact Hin|exact Hlast]].
  rewrite Ht, (Hnote 15 Hsig). reflexivity.
Defined.

(** C6. For every sequence of add and remove operations with distinct
    identifiers, run from the empty registry: the size field is the number
    of adds minus the number of removes that returned 1; [inChildrenPids]
    is 0 for every identifier a remove returned 1 for and 1 for every
    identifier added and not so removed; and on the registry reached,
    [deleteChildrenPids] returns 1 exactly when the identifier is in the
    registry, which then loses that record and nothing else, and returns 0
    with the registry unchanged when it is not. *)
Theorem registry_add_remove (ops : list RegistryOp) :
  NoDup (added_pids ops) ->
  Z.of_nat (length ops) <= INT_MAX ->
  exists r returned,
    run_registry ops initChildrenPids [] = Some (r, returned) /\
    cp_size r = Z.of_nat (length (added_pids ops))
                - Z.of_nat (length (successful_removes returned)) /\
    (forall id, (id, 1) ∈ returned -> inChildrenPids r id = 0) /\
    (forall id, id ∈ added_pids ops -> (id, 1) ∉ returned ->
                inChildrenPids r id = 1) /\
    (forall id, exists r' ret,
        deleteChildrenPids r id = Some (r', ret) /\
        (inChildrenPids r id = 1 ->
           ret = 1 /\ cp_size r' = cp_size r - 1 /\
           inChildrenPids r' id = 0 /\
           (forall other, other <> id ->
                          inChildrenPids r' other = inChildrenPids r other)) /\
        (inChildrenPids r id = 0 -> ret = 0 /\ r' = r)).
Proof.
  intros Hnd Hlen.
  destruct (run_registry_inv ops initChildrenPids [])
    as (r & more & Hrun & Hok & Hndr & Hsz & Hgone & Hkept).
  - unfold registry_ok, INT_MAX; simpl; lia.
  - simpl. lia.
  - done.
  - intros id Hid. by apply elem_of_nil in Hid.
  - simpl in *. exists r, more. split_and!; [done|lia| | |].
    + intros id Hid. apply inChildrenPids_not_elem; [done|]. by apply Hgone.
    + intros id Hid Hnot. apply inChildrenPids_elem; [done|]. by apply Hkept.
    + intros id. destruct (decide (id ∈ pids r)) as [Hin|Hin].
      * rewrite deleteChildrenPids_present by done. eexists _, _.
        split; [reflexivity|]. split.
        -- intros _. pose proof (registry_ok_remove r id Hok Hin) as Hok'.
           destruct (remove_first_NoDup id (cp_list r) Hndr) as [_ Hout].
           split_and!; [done|done| |].
           ++ by apply inChildrenPids_not_elem.
           ++ intros other Hne.
              destruct (decide (other ∈ pids r)) as [Ho|Ho].
              ** rewrite (proj2 (inChildrenPids_elem r other Hok) Ho).
                 apply inChildrenPids_elem; [done|].
                 unfold pids; simpl. by apply remove_first_other.
              ** rewrite (proj2 (inChildrenPids_not_elem r other Hok) Ho).
                 apply inChildrenPids_not_elem; [done|].
                 intros Hx. apply Ho. eapply remove_first_elem. exact Hx.
        -- intros H0. apply (inChildrenPids_not_elem r id Hok) in H0. done.
      * rewrite deleteChildrenPids_absent by done. eexists _, _.
        split; [reflexivity|]. split; [|done].
        intros H1. apply (inChildrenPids_elem r id Hok) in H1. done.
Qed.

Lemma registry_add_remove_witness :
  NoDup (added_pids example_ops) /\
  Z.of_nat (length example_ops) <= INT_MAX /\
  exists r returned,
    run_registry example_ops initChildrenPids [] = Some (r, returned) /\
    cp_size r = 2 /\
    inChildrenPids r 100 = 0 /\
    inChildrenPids r 200 = 1 /\
    (exists r', deleteChildrenPids r 200 = Some (r', 1) /\
                inChildrenPids r' 200 = 0 /\ cp_size r' = 1) /\
    deleteChildrenPids r 100 = Some (r, 0).
Proof.
  assert (Hnd : NoDup (added_pids example_ops)).
  { apply (bool_decide_unpack _). vm_compute. exact I. }
  assert (Hlen : Z.of_nat (length example_ops) <= INT_MAX).
  { vm_compute. discriminate. }
  split; [exact Hnd|]. split; [exact Hlen|].
  destruct (registry_add_remove example_ops Hnd Hlen)
    as (r & returned & Hrun & Hsz & Hgone & Hkept & Hdel).
  exists r, returned.
  assert (Hret : returned = [(100, 1); (300, 0)]).
  { vm_compute in Hrun. by injection Hrun as _ <-. }
  assert (H100 : inChildrenPids r 100 = 0).
  { apply Hgone. rewrite Hret. apply elem_of_cons. by left. }
  assert (H200 : inChildrenPids r 200 = 1).
  { apply Hkept.
    - apply (bool_decide_unpack _). vm_compute. exact I.
    - rewrite Hret. apply (bool_decide_unpack _). vm_compute. exact I. }
  split; [exact Hrun|]. split; [rewrite Hsz, Hret; reflexivity|].
  split; [exact H100|]. split; [exact H200|]. split.
  - destruct (Hdel 200) as (r' & ret & Hd & Hin & _).
    destruct (Hin H200) as (-> & Hsz' & Hout & _).
    exists r'. split; [exact Hd|]. split; [exact Hout|].
    rewrite Hsz', Hsz, Hret. reflexivity.
  - destruct (Hdel 100) as (r' & ret & Hd & _ & Hout).
    destruct (Hout H100) as [-> ->]. exact Hd.
Defined.

(** C7. In every state the shell reaches, [BGAllowed] is 1 or 0. From 1 the
    handler sets it to 0 and writes the first fixed notice with one
    [write], and a second delivery sets it back to 1; from 0 the handler
    sets it to 1 and writes the second fixed notice with one [write]. The
    handler changes nothing else of the shell, an iteration of the command
    loop leaves the flag as it is, and a step that changes the flag is a
    delivery of the signal. *)
Theorem mode_flag_toggle {WM : WaitMacros} {SY : Sys}
    (o : OS) (s : Shell) :
  reachable o s ->
  (BGAllowed s = 1 \/ BGAllowed s = 0) /\
  (BGAllowed s = 1 ->
   BGAllowed (parentCatchSIGTSTP s) = 0 /\
   trace (world (parentCatchSIGTSTP s))
     = trace (world s) ++ [EWrite STDOUT_FILENO enter_notice 45] /\
   BGAllowed (parentCatchSIGTSTP (parentCatchSIGTSTP s)) = 1) /\
  (BGAllowed s = 0 ->
   BGAllowed (parentCatchSIGTSTP s) = 1 /\
   trace (world (parentCatchSIGTSTP s))
     = trace (world s) ++ [EWrite STDOUT_FILENO exit_notice 28] /\
   BGAllowed (parentCatchSIGTSTP (parentCatchSIGTSTP s)) = 0) /\
  (children (parentCatchSIGTSTP s) = children s /\
   lastFGExitMethod (parentCatchSIGTSTP s) = lastFGExitMethod s /\
   decoded (parentCatchSIGTSTP s) = decoded s /\
   keepGoing (parentCatchSIGTSTP s) = keepGoing s /\
   os (world (parentCatchSIGTSTP s)) = os (world s)) /\
  (forall line s',
      outcome_state (main_iteration line s) = Some s' ->
      BGAllowed s' = BGAllowed s) /\
  (forall s', step s s' -> BGAllowed s' <> BGAllowed s ->
              s' = parentCatchSIGTSTP s).
Proof.
  intros Hreach. split; [|split; [|split; [|split; [|split]]]].
  - destruct (reachable_BGAllowed o s Hreach); auto.
  - intros H1. rewrite !parentCatchSIGTSTP_BGAllowed, H1. simpl.
    split_and!; try done. unfold parentCatchSIGTSTP. by rewrite H1.
  - intros H0. rewrite !parentCatchSIGTSTP_BGAllowed, H0. simpl.
    split_and!; try done. unfold parentCatchSIGTSTP. by rewrite H0.
  - unfold parentCatchSIGTSTP. by destruct (BGAllowed s =? 1).
  - intros line s'. apply main_iteration_BGAllowed.
  - intros s' Hstep Hne. destruct Hstep as [s|line s s' Hk Hiter]; [done|].
    exfalso. apply Hne. apply (main_iteration_BGAllowed line). by rewrite Hiter.
Qed.

Lemma mode_flag_toggle_witness :
  reachable (one_upcoming 0) (fresh_shell 0) /\
  BGAllowed (fresh_shell 0) = 1 /\
  BGAllowed (parentCatchSIGTSTP (fresh_shell 0)) = 0 /\
  trace (world (parentCatchSIGTSTP (fresh_shell 0)))
    = [EWrite STDOUT_FILENO enter_notice 45] /\
  BGAllowed (parentCatchSIGTSTP (parentCatchSIGTSTP (fresh_shell 0))) = 1.
Proof.
  assert (Hreach : reachable (one_upcoming 0) (fresh_shell 0))
    by apply reachable_init.
  destruct (mode_flag_toggle (SY := table_sys) (one_upcoming 0) (fresh_shell 0) Hreach)
    as (_ & Hon & _).
  destruct (Hon eq_refl) as (H0 & Ht & H1).
  split; [exact Hreach|]. split; [reflexivity|]. split; [exact H0|].
  split; [exact Ht|exact H1].
Defined.

(** C8. On a registry whose size field is right, [exitHandle] comes back
    after a run of at most 50 attempts. Each attempt sends SIGTERM to the
    first entry of the registry; on success the entry is removed and a
    notice names its process identifier, on failure a failure notice is
    written and the loop goes on. The run ends with an empty registry or
    after the 50th attempt. With 3 entries and every request of the run
    accepted, the registry is empty afterwards and exactly 3 success
    notices were written, one per entry, and no failure notice. *)
Theorem shutdown_protocol {SY : Sys}
    (w : World) (children : ChildrenPids) :
  registry_ok children ->
  exists n w' children' evs,
    exitHandle w children = Some (w', children') /\
    trace w' = trace w ++ evs /\
    attempts n (w, children) (w', children') /\
    (n <= 50)%nat /\
    (cp_size children' = 0 \/ n = 50%nat) /\
    (length (cp_list children) = 3%nat ->
     (forall p sg ret, EKill p sg ret ∈ evs -> ret = 0) ->
     cp_size children' = 0 /\ cp_list children' = [] /\
     terminated_notices evs = pids children /\
     length (terminated_notices evs) = 3%nat /\
     count_events is_failure_notice evs = 0%nat).
Proof.
  intros Hok.
  destruct (exitHandle_loop_attempts 50 w children 0 Hok)
    as (n & w' & children' & Hrun & Hatt & Hn & Hend & Hok'); [lia|lia|].
  destruct (attempts_trace _ _ _ Hatt) as (evs & Ht & _). simpl in Ht.
  exists n, w', children', evs.
  split; [done|]. split; [done|]. split; [done|]. split; [lia|].
  split; [destruct Hend; [by left|right; lia]|].
  intros Hlen Hacc.
  destruct (attempts_all_accept n w children w' children' evs Hatt Ht Hacc)
    as (Hle & Hl & Hp & Hf).
  assert (Hn3 : n = 3%nat).
  { destruct Hend as [H0|H50]; [|lia].
    destruct Hok' as [Hsz' _]. rewrite Hl, length_drop in Hsz'. lia. }
  subst n.
  assert (Hnil : cp_list children' = []).
  { rewrite Hl. apply drop_ge. lia. }
  split.
  { destruct Hok' as [Hsz' _]. by rewrite Hsz', Hnil. }
  split; [done|]. rewrite Hp. unfold pids.
  rewrite firstn_all2 by (rewrite length_map; lia).
  split; [done|]. split; [by rewrite length_map|done].
Qed.

Lemma shutdown_protocol_witness :
  registry_ok (registry_of [100; 200; 300]) /\
  exists w' children' evs,
    exitHandle three_children_world (registry_of [100; 200; 300])
      = Some (w', children') /\
    trace w' = trace three_children_world ++ evs /\
    cp_size children' = 0 /\
    terminated_notices evs = [100; 200; 300].
Proof.
  assert (Hok : registry_ok (registry_of [100; 200; 300])).
  { split; [reflexivity|]. vm_compute. discriminate. }
  split; [exact Hok|].
  destruct (shutdown_protocol three_children_world (registry_of [100; 200; 300]) Hok)
    as (n & w' & children' & evs & Hrun & Ht & _ & _ & _ & Hthree).
  exists w', children', evs. split; [exact Hrun|]. split; [exact Ht|].
  assert (Hevs : evs = [EKill 100 SIGTERM 0; EPrintf (NProcessTerminated 100);
                        EPrintf NErrorDeleting;
                        EKill 200 SIGTERM 0; EPrintf (NProcessTerminated 200);
                        EPrintf NErrorDeleting;
                        EKill 300 SIGTERM 0; EPrintf (NProcessTerminated 300);
                        EPrintf NErrorDeleting]).
  { vm_compute in Hrun. injection Hrun as <- _. simpl in Ht. by subst evs. }
  destruct (Hthree eq_refl) as (Hsz & _ & Hnotes & _).
  - intros p sg ret Hin. rewrite Hevs in Hin.
    repeat (apply elem_of_cons in Hin as [Hin|Hin];
            [by (discriminate || injection Hin as _ _ ->)|]).
    by apply elem_of_nil in Hin.
  - split; [exact Hsz|exact Hnotes].
Defined.

(** C9. For every [CommandLine] that [initCommandLine] builds with a
    capacity of at least 1 ([parseLine] asks for 10) and any number of
    [addCommandLine] calls fill: the calls all return as long as doubling
    the capacity fits an [int]; and whenever they return, [size] counts the
    strings added, it is smaller than the capacity, the cells below it hold
    the strings in order, and the cell at index [size] is NULL, so the
    vector ends with the null pointer [execvp] needs. *)
Theorem argument_vector_null_terminated (cap : Z) (strs : list string) :
  1 <= cap <= INT_MAX ->
  (2 * Z.of_nat (length strs) <= INT_MAX -> is_Some (buildCommandLine cap strs)) /\
  forall r,
    buildCommandLine cap strs = Some r ->
    size r = Z.of_nat (length strs) /\
    size r < capacity r /\
    length (arr r) = Z.to_nat (capacity r) /\
    (exists i, index_in (size r) (length (arr r)) = Some i /\
               arr r !! i = Some None) /\
    (forall i s, strs !! i = Some s -> arr r !! i = Some (Some s)).
Proof.
  intros Hcap. unfold buildCommandLine.
  destruct (initCommandLine_ok cap Hcap) as (r0 & Hinit & Hok0 & Hcap0).
  rewrite Hinit. cbn [mbind option_bind]. split.
  - intros Hmax. apply (addCommandLines_returns strs r0 [] Hok0).
    destruct Hok0 as (_ & Hsz0 & _). rewrite Hsz0. simpl. lia.
  - intros r Hrun.
    pose proof (addCommandLines_ok strs r0 [] Hok0 r Hrun) as (Hc & Hsz & Hlt & Harr).
    simpl in Hsz, Harr.
    assert (Hlen : length (arr r) = Z.to_nat (capacity r)).
    { rewrite Harr, length_app, length_map, length_replicate. lia. }
    split_and!; [done|done|done| |].
    + exists (length strs). split.
      * unfold index_in. rewrite Hlen, Hsz, Nat2Z.id.
        replace ((0 <=? Z.of_nat (length strs)) &&
                 (Z.of_nat (length strs) <? Z.of_nat (Z.to_nat (capacity r))))
          with true; [done|].
        symmetry. apply andb_true_iff. split; [apply Z.leb_le|apply Z.ltb_lt]; lia.
      * rewrite Harr, lookup_app_r by (rewrite length_map; lia).
        rewrite length_map, Nat.sub_diag. apply lookup_replicate_2. lia.
    + intros i s Hs. rewrite Harr, lookup_app_l.
      * by rewrite list_lookup_fmap, Hs.
      * rewrite length_map. by eapply lookup_lt_Some.
Qed.

Lemma argument_vector_null_terminated_witness :
  1 <= 10 <= INT_MAX /\
  exists r,
    buildCommandLine 10 example_words = Some r /\
    capacity r = 20 /\
    size r = 11 /\
    arr r !! 11%nat = Some None.
Proof.
  assert (Hcap : 1 <= 10 <= INT_MAX) by (unfold INT_MAX; lia).
  split; [exact Hcap|].
  destruct (argument_vector_null_terminated 10 example_words Hcap) as [Hsome Hshape].
  destruct Hsome as [r Hr]; [unfold INT_MAX; simpl; lia|].
  exists r. split; [exact Hr|].
  destruct (Hshape r Hr) as (Hsz & _ & _ & (i & Hi & Hnull) & _).
  vm_compute in Hr. injection Hr as <-. repeat split.
Defined.

(** C10. At every state the shutdown loop reaches from a registry whose
    size field is right, removing the identifier of the first entry of a
    registry that is not empty returns 1. So the run of [exitHandle] never
    writes the notice of the branch taken when the removal returns 0
    ("Sucessfully deleted ..."), and writes the other deletion notice once
    for every success notice, that is once per entry removed. *)
Theorem shutdown_remove_succeeds {SY : Sys}
    (w : World) (children : ChildrenPids) :
  registry_ok children ->
  (forall k w1 children1,
      attempts k (w, children) (w1, children1) ->
      cp_size children1 <> 0 ->
      exists first rest,
        cp_list children1 = first :: rest /\
        deleteChildrenPids children1 (pidNo first) =
          Some ({| cp_size := cp_size children1 - 1; cp_list := rest |}, 1)) /\
  exists w' children' evs,
    exitHandle w children = Some (w', children') /\
    trace w' = trace w ++ evs /\
    count_events is_sucessfully_deleted evs = 0%nat /\
    count_events is_error_deleting evs = length (terminated_notices evs) /\
    Z.of_nat (count_events is_error_deleting evs)
      = cp_size children - cp_size children'.
Proof.
  intros Hok. split.
  - intros k w1 children1 Hatt Hne. apply delete_first; [|done].
    apply (attempts_registry_ok _ _ _ Hatt Hok).
  - destruct (exitHandle_loop_attempts 50 w children 0 Hok)
      as (n & w' & children' & Hrun & Hatt & _); [lia|lia|].
    destruct (attempts_trace _ _ _ Hatt) as (evs & Ht & Hs & He & Hc).
    by exists w', children', evs.
Qed.

Lemma shutdown_remove_succeeds_witness :
  registry_ok (registry_of [100; 200; 300]) /\
  deleteChildrenPids (registry_of [100; 200; 300]) 100
    = Some ({| cp_size := 2; cp_list := cp_list (registry_of [200; 300]) |}, 1) /\
  exists w' children' evs,
    exitHandle three_children_world (registry_of [100; 200; 300])
      = Some (w', children') /\
    trace w' = trace three_children_world ++ evs /\
    count_events is_sucessfully_deleted evs = 0%nat /\
    count_events is_error_deleting evs = 3%nat.
Proof.
  assert (Hok : registry_ok (registry_of [100; 200; 300])).
  { split; [reflexivity|]. vm_compute. discriminate. }
  split; [exact Hok|].
  destruct (shutdown_remove_succeeds three_children_world
              (registry_of [100; 200; 300]) Hok)
    as (Hhead & w' & children' & evs & Hrun & Ht & Hs & He & Hc).
  split.
  - destruct (Hhead 0%nat three_children_world (registry_of [100; 200; 300])
                    (attempts_O _) ltac:(simpl; lia))
      as (first & rest & Hl & Hdel).
    simpl in Hl. injection Hl as <- <-. exact Hdel.
  - exists w', children', evs. split; [exact Hrun|]. split; [exact Ht|].
    split; [exact Hs|].
    vm_compute in Hrun. injection Hrun as <- <-.
    simpl in Ht. subst evs. reflexivity.
Defined.

(** * Further properties of the code *)

(** X1. [expandShellPid] on a string that holds "$$", with an identifier
    whose decimal string fits its buffer of 8 bytes, replaces the first
    "$$" of the string, and only that one, by the string of the
    identifier: the characters before it and after it are kept, and the
    result is longer than the string by the length of the identifier
    less 2. *)
Theorem expandShellPid_first_mark (pidStr str : string) :
  fits_pid_buffer pidStr ->
  has_pid_mark str = true ->
  exists before after,
    str = before +:+ "$$" +:+ after /\
    has_pid_mark (before +:+ "$") = false /\
    expandShellPid pidStr str = before +:+ pidStr +:+ after /\
    (String.length (expandShellPid pidStr str) + 2
     = String.length str + String.length pidStr)%nat.
Proof.
  intros _ Hmark.
  destruct (first_mark _ str (Nat.le_refl _) Hmark) as (before & after & -> & Hb & Hexp).
  exists before, after. split; [done|]. split; [done|]. split; [by rewrite Hexp|].
  rewrite Hexp, !length_append. simpl. lia.
Qed.

Lemma expandShellPid_first_mark_witness :
  has_pid_mark "a$$b$$" = true /\
  exists before after,
    "a$$b$$"%string = before +:+ "$$" +:+ after /\
    has_pid_mark (before +:+ "$") = false /\
    expandShellPid "4242" "a$$b$$" = before +:+ "4242" +:+ after /\
    (String.length (expandShellPid "4242" "a$$b$$") + 2
     = String.length "a$$b$$" + String.length "4242")%nat.
Proof.
  split; [reflexivity|].
  apply (expandShellPid_first_mark "4242" "a$$b$$"); [vm_compute; lia|reflexivity].
Defined.

(** X2. The loop of [parseLine] that calls [expandShellPid] while the word
    holds "$$" ends for every word and every process identifier that fits
    the buffer, and its result is the word with each "$$", read from the
    left, replaced by the decimal string of the identifier; no "$$" is
    left in it. *)
Theorem expansion_replaces_every_mark (pid : Z) (token : string) :
  fits_pid_buffer (pid_to_string pid) ->
  has_pid_mark token = true ->
  expand_loop (String.length token) (pid_to_string pid)
              (expandShellPid (pid_to_string pid) token)
  = Some (replace_all (pid_to_string pid) token) /\
  has_pid_mark (replace_all (pid_to_string pid) token) = false.
Proof.
  intros _ Hmark.
  pose proof (expand_token _ token (pid_to_string_no_dollar pid) Hmark) as H.
  split; [exact H|]. by apply expand_loop_no_mark in H.
Qed.

Lemma expansion_replaces_every_mark_witness :
  has_pid_mark "$$-$$$" = true /\
  expand_loop (String.length "$$-$$$") (pid_to_string 4242)
              (expandShellPid (pid_to_string 4242) "$$-$$$")
  = Some (replace_all (pid_to_string 4242) "$$-$$$") /\
  has_pid_mark (replace_all (pid_to_string 4242) "$$-$$$") = false.
Proof.
  split; [reflexivity|].
  apply (expansion_replaces_every_mark 4242 "$$-$$$"); [vm_compute; lia|reflexivity].
Defined.





(** X5. Every command that [parseLine] returns with the background flag set
    has both an input file and an output file: what the line did not
    redirect is sent to "/dev/null", so [execHandle] redirects both streams
    of such a command. *)
Theorem parseLine_background_redirected (pidStr line : string) (c : CommandLine) :
  parseLine pidStr line = Some c ->
  bg c = 1 ->
  is_Some (inputFile c) /\ is_Some (outputFile c).
Proof.
  unfold parseLine. intros H Hbg.
  destruct (initCommandLine 10) as [c0|] eqn:E0; [|discriminate].
  cbn [mbind option_bind] in H.
  destruct (parse_tokens _ _ c0) as [c1|] eqn:E1; [|discriminate].
  cbn [mbind option_bind] in H.
  apply (parse_tokens_bg _ _ _ _ _ (Nat.le_refl _)) in E1.
  unfold initCommandLine in E0. simpl in E0. injection E0 as <-. simpl in E1.
  unfold set_background in H.
  destruct (0 <? size c1); [|injection H as <-; lia].
  destruct (index_in _ _) as [i|]; [|discriminate]. cbn [mbind option_bind] in H.
  destruct (arr c1 !! i) as [[last|]|]; try discriminate.
  destruct (String.eqb "&" last); injection H as <-; [|lia].
  cbn [inputFile outputFile]. split.
  - by destruct (inputFile c1).
  - by destruct (outputFile c1).
Qed.

Lemma parseLine_background_redirected_witness :
  is_Some (inputFile (sleep_command 1)) /\ is_Some (outputFile (sleep_command 1)).
Proof.
  apply (parseLine_background_redirected "4242" "sleep 5 &" (sleep_command 1));
    reflexivity.
Defined.

(** X6. [deleteChildrenPids] removes the first record that holds the
    identifier and no other: the records before it and after it stay as
    they are, in their order, also when a later record holds the same
    identifier. The call returns 1 and lowers the size field by one. *)
Theorem deleteChildrenPids_first_match (children : ChildrenPids)
    (before after : list Link) (x : Link) :
  registry_ok children ->
  cp_list children = before ++ x :: after ->
  (pidNo x ∉ map pidNo before) ->
  deleteChildrenPids children (pidNo x)
  = Some ({| cp_size := cp_size children - 1; cp_list := before ++ after |}, 1).
Proof.
  intros Hok Hlist Hnot.
  rewrite deleteChildrenPids_present; [|done|].
  - by rewrite Hlist, remove_first_split.
  - unfold pids. rewrite Hlist, map_app. apply elem_of_app. right. by left.
Qed.

Lemma deleteChildrenPids_first_match_witness :
  deleteChildrenPids (registry_of [200; 100; 300; 100]) 100
  = Some ({| cp_size := 3; cp_list := cp_list (registry_of [200; 300; 100]) |}, 1).
Proof.
  apply (deleteChildrenPids_first_match (registry_of [200; 100; 300; 100])
           (cp_list (registry_of [200]))
           (cp_list (registry_of [300; 100]))
           (initLink 100 (sleep_command 1) 1)).
  - split; [reflexivity|]. vm_compute. discriminate.
  - reflexivity.
  - simpl. intros H. apply elem_of_cons in H as [H|H]; [discriminate H|].
    by apply elem_of_nil in H.
Defined.



(** X8. With 49 children in the registry, a line with an external command,
    in the foreground or in the background, makes the shell abort: the
    child is forked and registered as the 50th, and [abort] is called
    before any notice, wait or signal, so the 50 children are left
    running. *)
Theorem main_iteration_aborts_at_limit {WM : WaitMacros} {SY : Sys}
    (line : string) (commands : CommandLine) (s : Shell) (o0 : OS) (spawnPid : Z) :
  parseLine (pid_to_string sys_getpid) line = Some commands ->
  is_external commands ->
  registry_ok (children s) ->
  cp_size (children s) = MAXCHILDREN - 1 ->
  sys_fork (os (world s)) = (o0, spawnPid) ->
  spawnPid <> -1 ->
  spawnPid <> 0 ->
  exists s',
    main_iteration line s = Aborted s' /\
    os (world s') = o0 /\
    trace (world s') = trace (world s) ++ [EPrintf NPrompt; EFork spawnPid] /\
    pids (children s') = pids (children s) ++ [spawnPid] /\
    cp_size (children s') = MAXCHILDREN.
Proof.
  intros Hparse Hext Hok Hsz Hfork Hn1 Hn0.
  rewrite (main_iteration_external line s commands Hparse Hext).
  unfold dispatch. rewrite (dispatch_fork commands s o0 spawnPid Hfork).
  apply Z.eqb_neq in Hn1, Hn0. rewrite Hn1, Hn0.
  cbn [children with_world].
  rewrite addChildrenPids_ok;
    [|done|destruct Hok as [<- _]; rewrite Hsz; unfold MAXCHILDREN, INT_MAX; lia].
  cbn [cp_size]. rewrite Hsz. cbn [Z.eqb MAXCHILDREN Z.sub Z.add Z.opp Z.pos_sub].
  simpl (_ =? _). cbn [sweep_after].
  eexists. split; [reflexivity|]. cbn [world os trace children cp_list cp_size].
  split; [done|]. split; [done|]. split; [|done].
  unfold pids. cbn [cp_list]. by rewrite map_app.
Qed.

Lemma main_iteration_aborts_at_limit_witness :
  exists s',
    main_iteration "sleep 5" crowded_shell = Aborted s' /\
    os (world s') = child_300 0 /\
    trace (world s') = trace (world crowded_shell) ++ [EPrintf NPrompt; EFork 300] /\
    pids (children s') = pids (children crowded_shell) ++ [300] /\
    cp_size (children s') = MAXCHILDREN.
Proof.
  apply (main_iteration_aborts_at_limit "sleep 5" (sleep_command 0) crowded_shell
           (child_300 0) 300).
  - reflexivity.
  - exists "sleep"%string. repeat split; discriminate.
  - split; [reflexivity|]. vm_compute. discriminate.
  - reflexivity.
  - reflexivity.
  - lia.
  - lia.
Defined.

(** X9. When [fork] fails on a line with an external command, the shell
    writes its message with [perror] and exits with status 1 at once: the
    registry is as it was, and no child in it is signalled or waited
    for. *)
Theorem main_iteration_fork_fails {WM : WaitMacros} {SY : Sys}
    (line : string) (commands : CommandLine) (s : Shell) (o0 : OS) :
  parseLine (pid_to_string sys_getpid) line = Some commands ->
  is_external commands ->
  sys_fork (os (world s)) = (o0, -1) ->
  exists s',
    main_iteration line s = Exit 1 s' /\
    os (world s') = o0 /\
    trace (world s')
      = trace (world s) ++ [EPrintf NPrompt; EFork (-1); EPerror "Hull Breach!"] /\
    children s' = children s.
Proof.
  intros Hparse Hext Hfork.
  rewrite (main_iteration_external line s commands Hparse Hext).
  unfold dispatch. rewrite (dispatch_fork commands s o0 (-1) Hfork).
  cbn [Z.eqb Pos.eqb sweep_after]. simpl (_ =? _).
  eexists. split; [reflexivity|]. cbn [world os trace children perror emit with_world].
  split; [done|]. split; [|done]. by rewrite <- app_assoc.
Qed.

Lemma main_iteration_fork_fails_witness :
  exists s',
    main_iteration "sleep 5" exhausted_shell = Exit 1 s' /\
    os (world s') = no_child /\
    trace (world s')
      = trace (world exhausted_shell)
          ++ [EPrintf NPrompt; EFork (-1); EPerror "Hull Breach!"] /\
    children s' = children exhausted_shell.
Proof.
  apply (main_iteration_fork_fails "sleep 5" (sleep_command 0) exhausted_shell no_child).
  - reflexivity.
  - exists "sleep"%string. repeat split; discriminate.
  - reflexivity.
Defined.

(** X10. In the child that [fork] leaves, a line with an external command
    reaches [execHandle] with the vector and the files of the parsed line
    and with the background flag the parent uses: 0 when [BGAllowed] is 0,
    the parsed flag otherwise. Before that the child sets SIGTSTP to be
    ignored in every case, and SIGINT to its default action exactly when
    that flag is 0; a background child keeps the SIGINT disposition it
    inherits. *)
Theorem main_iteration_in_child {WM : WaitMacros} {SY : Sys}
    (line : string) (commands : CommandLine) (s : Shell) (o0 : OS) :
  parseLine (pid_to_string sys_getpid) line = Some commands ->
  is_external commands ->
  sys_fork (os (world s)) = (o0, 0) ->
  let effective := if BGAllowed s =? 0 then 0 else bg commands in
  main_iteration line s
  = InChild ((if effective =? 0 then [(SIGINT, SIG_DFL)] else [])
               ++ [(SIGTSTP, SIG_IGN)])
            (set_bg commands effective).
Proof.
  intros Hparse Hext Hfork effective.
  rewrite (main_iteration_external line s commands Hparse Hext).
  unfold dispatch. rewrite (dispatch_fork commands s o0 0 Hfork).
  cbn [Z.eqb sweep_after]. simpl (0 =? -1). cbn [BGAllowed with_world].
  assert (Hres : resolve_background 0 (BGAllowed s) commands
                 = set_bg commands effective).
  { unfold resolve_background, effective. simpl (negb _).
    destruct (BGAllowed s =? 0); [done|]. by destruct commands. }
  rewrite Hres. reflexivity.
Qed.

Lemma main_iteration_in_child_witness :
  main_iteration "sleep 5 &" child_shell
  = InChild [(SIGTSTP, SIG_IGN)] (sleep_command 1).
Proof.
  apply (main_iteration_in_child "sleep 5 &" (sleep_command 1)
           child_shell forked_child).
  - reflexivity.
  - exists "sleep"%string. repeat split; discriminate.
  - reflexivity.
Defined.

(** X11. In the mode that runs everything in the foreground, the "&" at the
    end of a line is not ignored altogether: the child is a foreground
    child, with SIGINT at its default action and the parent waiting, but
    its command keeps "/dev/null" as input and output file, and the first
    thing [execHandle] does is to open "/dev/null" for reading. *)
Theorem foreground_only_keeps_redirection {WM : WaitMacros} {SY : Sys}
    {CS : ChildSys} (words : list string) (s : Shell) (o0 : OS) (co : COS) :
  fits_pid_buffer (pid_to_string sys_getpid) ->
  Forall argument_word words ->
  external_words (map (replace_all (pid_to_string sys_getpid)) words) ->
  2 * Z.of_nat (length words) + 2 <= INT_MAX ->
  BGAllowed s = 0 ->
  sys_fork (os (world s)) = (o0, 0) ->
  exists c,
    main_iteration (line_of (words ++ ["&"%string])) s
    = InChild [(SIGINT, SIG_DFL); (SIGTSTP, SIG_IGN)] c /\
    commandline_ok c (map (replace_all (pid_to_string sys_getpid)) words) /\
    bg c = 0 /\
    inputFile c = Some "/dev/null"%string /\
    outputFile c = Some "/dev/null"%string /\
    exists fd,
      head (fst (execHandle c co)) = Some (CEOpen "/dev/null" OPEN_RDONLY fd).
Proof.
  intros _ Hw Hext Hmax Hmode Hfork.
  destruct (parseLine_background_words (pid_to_string sys_getpid) words
              (pid_to_string_no_dollar _) Hw Hmax)
    as (c & Hparse & Hok & Hbg & Hin & Hout).
  pose proof (external_words_is_external c _ Hok Hext) as Hex.
  rewrite (main_iteration_external _ s c Hparse Hex).
  unfold dispatch. rewrite (dispatch_fork c s o0 0 Hfork).
  cbn [Z.eqb sweep_after]. simpl (0 =? -1). cbn [BGAllowed with_world].
  rewrite Hmode. unfold resolve_background. cbn [Z.eqb negb bg set_bg app].
  exists (set_bg c 0). split; [done|]. split; [by apply commandline_ok_files|].
  split; [done|]. split; [done|]. split; [done|].
  by apply execHandle_opens_input.
Qed.

Lemma foreground_only_keeps_redirection_witness :
  exists c,
    main_iteration "sleep 5 &" foreground_only_child_shell
    = InChild [(SIGINT, SIG_DFL); (SIGTSTP, SIG_IGN)] c /\
    commandline_ok c ["sleep"; "5"]%string /\
    bg c = 0 /\
    inputFile c = Some "/dev/null"%string /\
    outputFile c = Some "/dev/null"%string /\
    exists fd,
      head (fst (execHandle (CS := files_sys) c some_files))
      = Some (CEOpen "/dev/null" OPEN_RDONLY fd).
Proof.
  apply (foreground_only_keeps_redirection (CS := files_sys) ["sleep"; "5"]%string
           foreground_only_child_shell forked_child some_files).
  - vm_compute. lia.
  - repeat constructor; discriminate.
  - exists "sleep"%string, ["5"%string]. repeat split; discriminate.
  - vm_compute. discriminate.
  - reflexivity.
  - reflexivity.
Defined.

(** X12. A line whose first word is "status" writes one notice about the
    status the last foreground child left: "exit value 0" when it exited
    with 0, "exit value 1" when it exited with any other code, and the
    number of the signal when a signal ended it. Nothing else of the shell
    changes: no child is forked or waited for, and the background children
    are not swept on this line. *)
Theorem status_reports_last_foreground {WM : WaitMacros} {SY : Sys}
    (line : string) (commands : CommandLine) (s : Shell) :
  parseLine (pid_to_string sys_getpid) line = Some commands ->
  size commands <> 0 ->
  arr commands !! 0%nat = Some (Some "status"%string) ->
  decodable (lastFGExitMethod s) ->
  exists notice,
    main_iteration line s
    = Continue (with_world s {| os := os (world s);
                                trace := trace (world s)
                                           ++ [EPrintf NPrompt; EPrintf notice] |}) /\
    (forall c, exitedWithCode (lastFGExitMethod s) c ->
               notice = NExitValue (if c =? 0 then 0 else 1)) /\
    (forall sg, signaledWith (lastFGExitMethod s) sg ->
                notice = NTerminatedBySignal sg).
Proof.
  intros Hparse Hsz Harr Hdec. unfold main_iteration. rewrite Hparse.
  apply Z.eqb_neq in Hsz. rewrite Hsz, Harr.
  cbn [first_char_is Ascii.eqb Bool.eqb]. simpl (String.eqb _ _).
  unfold statusHandle, printf, emit. cbn [os trace].
  destruct Hdec as [[c [Hex Hc]]|[sg (Hex & Hsig & Hsg)]].
  - apply Z.eqb_neq in Hex. rewrite Hex. cbn [negb].
    exists (NExitValue (if c =? 0 then 0 else 1)).
    split; [|split].
    + rewrite Hc, <- app_assoc. cbn [app].
      destruct (c =? 0) eqn:Ec; [|done].
      apply Z.eqb_eq in Ec. rewrite Ec. reflexivity.
    + intros c' [_ Hc']. by rewrite <- Hc', <- Hc.
    + intros sg [Hno _]. apply Z.eqb_neq in Hex. contradiction.
  - rewrite Hex. apply Z.eqb_neq in Hsig. cbn [Z.eqb negb]. rewrite Hsig. cbn [negb].
    exists (NTerminatedBySignal sg).
    split; [|split].
    + by rewrite Hsg, <- app_assoc.
    + intros c' [Hno _]. contradiction.
    + intros sg' (_ & _ & Hsg'). by rewrite <- Hsg', <- Hsg.
Qed.

Lemma status_reports_last_foreground_witness :
  exists notice,
    main_iteration "status" (shell_after 768)
    = Continue (with_world (shell_after 768)
                  {| os := no_child;
                     trace := [EPrintf NPrompt; EPrintf notice] |}) /\
    (forall c, exitedWithCode 768 c ->
               notice = NExitValue (if c =? 0 then 0 else 1)) /\
    (forall sg, signaledWith 768 sg -> notice = NTerminatedBySignal sg).
Proof.
  apply (status_reports_last_foreground "status" status_command (shell_after 768)).
  - reflexivity.
  - discriminate.
  - reflexivity.
  - left. exists 3. split; [vm_compute; discriminate|reflexivity].
Defined.

(** X13. A line whose first word is "cd" makes one [chdir]: to the value of
    HOME when the line has no other word, and otherwise to its second
    word, whatever follows it. When [chdir] returns -1 the shell writes
    "cd error" with [perror]. Nothing else of the shell changes, and no
    child is forked or waited for. *)
Theorem cd_changes_directory {WM : WaitMacros} {SY : Sys}
    (line : string) (commands : CommandLine) (s : Shell)
    (path : string) (o1 : OS) (ret : Z) :
  parseLine (pid_to_string sys_getpid) line = Some commands ->
  arr commands !! 0%nat = Some (Some "cd"%string) ->
  (size commands = 1 /\ sys_getenv_HOME = Some path) \/
  (2 <= size commands /\ arr commands !! 1%nat = Some (Some path)) ->
  (String.length path < 1024)%nat ->
  sys_chdir (os (world s)) path = (o1, ret) ->
  main_iteration line s
  = Continue (with_world s
                {| os := o1;
                   trace := trace (world s)
                              ++ [EPrintf NPrompt; EChdir path ret]
                              ++ (if ret =? -1 then [EPerror "cd error"] else []) |}).
Proof.
  intros Hparse Harr Hpath Hlen Hch. unfold main_iteration. rewrite Hparse.
  assert (Hsz : (size commands =? 0) = false)
    by (apply Z.eqb_neq; destruct Hpath as [[? _]|[? _]]; lia).
  rewrite Hsz, Harr.
  cbn [first_char_is Ascii.eqb Bool.eqb]. simpl (String.eqb _ _).
  assert (Hcd : cdHandle commands (printf NPrompt (world s))
                = Some {| os := o1;
                          trace := trace (world s)
                                     ++ [EPrintf NPrompt; EChdir path ret]
                                     ++ (if ret =? -1 then [EPerror "cd error"]
                                         else []) |}).
  { unfold cdHandle.
    assert (Hp : (if size commands =? 1 then sys_getenv_HOME
                  else if 2 <=? size commands then
                         match arr commands !! 1%nat with
                         | Some (Some dir) => Some dir
                         | _ => None
                         end
                       else Some EmptyString) = Some path).
    { destruct Hpath as [[-> ->]|[Hge ->]]; [done|].
      replace (size commands =? 1) with false by (symmetry; apply Z.eqb_neq; lia).
      by replace (2 <=? size commands) with true by (symmetry; apply Z.leb_le; lia). }
    rewrite Hp. cbn [mbind option_bind].
    apply Nat.ltb_lt in Hlen. rewrite Hlen.
    unfold chdir, printf, emit. cbn [os trace]. rewrite Hch.
    unfold perror, emit. cbn [os trace].
    destruct (ret =? -1); f_equal; f_equal;
      rewrite <- ?app_assoc; cbn [app]; by rewrite ?app_nil_r. }
  by rewrite Hcd.
Qed.

Lemma cd_changes_directory_witness :
  main_iteration "cd /tmp x" (shell_after 0)
  = Continue (with_world (shell_after 0)
                {| os := no_child;
                   trace := [EPrintf NPrompt; EChdir "/tmp" 0] |}).
Proof.
  apply (cd_changes_directory "cd /tmp x" cd_command (shell_after 0)
           "/tmp" no_child 0).
  - reflexivity.
  - reflexivity.
  - right. split; [vm_compute; discriminate|reflexivity].
  - vm_compute. lia.
  - reflexivity.
Defined.

(** X14. A line that is blank, a comment or one of the three built-in
    commands never calls [fork] or [waitpid]: after the prompt the shell
    writes at most the notices of the built-in command, no child is added
    to the registry, and the background children that have ended are not
    looked for until a line with an external command is read. The mode
    flag and the status of the last foreground child stay as they
    were. *)
Theorem builtin_lines_never_fork_or_wait {WM : WaitMacros} {SY : Sys}
    (line : string) (commands : CommandLine) (s s' : Shell) :
  parseLine (pid_to_string sys_getpid) line = Some commands ->
  ~ is_external commands ->
  registry_ok (children s) ->
  main_iteration line s = Continue s' ->
  (exists evs,
      trace (world s') = trace (world s) ++ EPrintf NPrompt :: evs /\
      Forall (fun e => is_fork_or_wait e = false) evs) /\
  (forall p, p ∈ pids (children s') -> p ∈ pids (children s)) /\
  BGAllowed s' = BGAllowed s /\
  lastFGExitMethod s' = lastFGExitMethod s /\
  decoded s' = decoded s.
Proof.
  intros Hparse Hnot Hok Hrun.
  split; [|split; [exact (main_iteration_builtin line s s' commands Hparse Hnot Hok Hrun)|]].
  - unfold main_iteration in Hrun. rewrite Hparse in Hrun.
    assert (Hnil : exists evs : list Event,
               trace (world (with_world s (printf NPrompt (world s))))
               = trace (world s) ++ EPrintf NPrompt :: evs /\
               Forall (fun e => is_fork_or_wait e = false) evs)
      by (exists []; split; [reflexivity|constructor]).
    destruct (size commands =? 0) eqn:Esz; [by injection Hrun as <-|].
    destruct (arr commands !! 0%nat) as [[arr0|]|] eqn:Earr; try discriminate.
    destruct (first_char_is "#" arr0) eqn:Ehash; [by injection Hrun as <-|].
    destruct (String.eqb arr0 "cd") eqn:Ecd.
    { destruct (cdHandle _ _) as [w1|] eqn:E; [|discriminate]. injection Hrun as <-.
      cbn [world with_world].
      apply cdHandle_quiet in E as (evs & -> & Hq). exists evs.
      split; [|done]. unfold printf, emit. cbn [trace]. by rewrite <- app_assoc. }
    destruct (String.eqb arr0 "status") eqn:Est.
    { injection Hrun as <-.
      destruct (statusHandle_quiet (lastFGExitMethod s) (printf NPrompt (world s)))
        as (evs & Ht & Hq).
      exists evs. split; [|done]. cbn [world with_world]. rewrite Ht.
      unfold printf, emit. cbn [trace]. by rewrite <- app_assoc. }
    destruct (String.eqb arr0 "exit") eqn:Eex.
    + destruct (exitHandle _ _) as [[w1 c1]|] eqn:E; [|discriminate].
      injection Hrun as <-. cbn [world].
      destruct (exitHandle_loop_attempts 50 (printf NPrompt (world s)) (children s) 0 Hok)
        as (n & w2 & c2 & Hrun2 & _); [lia|lia|].
      assert (Hrun3 : exitHandle (printf NPrompt (world s)) (children s) = Some (w2, c2))
        by exact Hrun2.
      rewrite Hrun3 in E. injection E as <- <-.
      apply exitHandle_loop_quiet in Hrun2 as (evs & -> & Hq). exists evs.
      split; [|done]. unfold printf, emit. cbn [trace]. by rewrite <- app_assoc.
    + exfalso. apply Hnot. exists arr0.
      apply Z.eqb_neq in Esz. apply String.eqb_neq in Ecd, Est, Eex. done.
  - split; [apply (main_iteration_BGAllowed line s s'); by rewrite Hrun|].
    unfold main_iteration in Hrun. rewrite Hparse in Hrun.
    destruct (size commands =? 0) eqn:Esz; [by injection Hrun as <-|].
    destruct (arr commands !! 0%nat) as [[arr0|]|] eqn:Earr; try discriminate.
    destruct (first_char_is "#" arr0) eqn:Ehash; [by injection Hrun as <-|].
    destruct (String.eqb arr0 "cd") eqn:Ecd.
    { destruct (cdHandle _ _) as [w1|]; [|discriminate]. by injection Hrun as <-. }
    destruct (String.eqb arr0 "status") eqn:Est; [by injection Hrun as <-|].
    destruct (String.eqb arr0 "exit") eqn:Eex.
    + destruct (exitHandle _ _) as [[w1 c1]|]; [|discriminate].
      by injection Hrun as <-.
    + exfalso. apply Hnot. exists arr0.
      apply Z.eqb_neq in Esz. apply String.eqb_neq in Ecd, Est, Eex. done.
Qed.

Lemma builtin_lines_never_fork_or_wait_witness :
  (exists evs,
      trace (world (with_world busy_shell status_answer))
      = trace (world busy_shell) ++ EPrintf NPrompt :: evs /\
      Forall (fun e => is_fork_or_wait e = false) evs) /\
  (forall p, p ∈ pids (children (with_world busy_shell status_answer)) ->
             p ∈ pids (children busy_shell)) /\
  BGAllowed (with_world busy_shell status_answer) = BGAllowed busy_shell /\
  lastFGExitMethod (with_world busy_shell status_answer)
  = lastFGExitMethod busy_shell /\
  decoded (with_world busy_shell status_answer) = decoded busy_shell.
Proof.
  apply (builtin_lines_never_fork_or_wait "status" status_command busy_shell
           (with_world busy_shell status_answer)).
  - reflexivity.
  - intros (arr0 & _ & Harr & _ & _ & Hst & _). injection Harr as <-. by apply Hst.
  - split; [reflexivity|]. vm_compute. discriminate.
  - reflexivity.
Defined.

(** X15. When the system refuses the SIGTERM for the first child of the
    registry and nothing else changes, [exitHandle] asks 50 times for that
    same child, writes its failure message after each refusal, and comes
    back with the registry as it was: the children behind the first are
    never signalled, and the shell ends with the children registered. *)
Theorem exitHandle_gives_up {SY : Sys} (w : World) (children : ChildrenPids)
    (first : Link) (rest : list Link) (r : Z) :
  cp_size children <> 0 ->
  cp_list children = first :: rest ->
  sys_kill (os w) (pidNo first) SIGTERM = (os w, r) ->
  r <> 0 ->
  exists w',
    exitHandle w children = Some (w', children) /\
    os w' = os w /\
    trace w' = trace w
                 ++ concat (replicate 50 [EKill (pidNo first) SIGTERM r;
                                          EPerror "Exit Failure: "]).
Proof.
  intros Hsz Hlist Hkill Hr.
  destruct (exitHandle_loop_refused children first rest (os w) r 50
              Hsz Hlist Hkill Hr w 0) as (w' & Hrun & Hos & Ht); [done|lia|lia|].
  exists w'.
  assert (Hrun2 : exitHandle w children = Some (w', children)) by exact Hrun.
  split; [exact Hrun2|]. split; [exact Hos|exact Ht].
Qed.

Lemma exitHandle_gives_up_witness :
  exists w',
    exitHandle no_child_world (registry_of [100; 200])
    = Some (w', registry_of [100; 200]) /\
    os w' = no_child /\
    trace w' = concat (replicate 50 [EKill 100 SIGTERM (-1);
                                     EPerror "Exit Failure: "]).
Proof.
  apply (exitHandle_gives_up no_child_world (registry_of [100; 200])
           (initLink 100 (sleep_command 1) 1)
           (cp_list (registry_of [200])) (-1)).
  - discriminate.
  - reflexivity.
  - reflexivity.
  - discriminate.
Defined.

(** X16. When every child of the registry is still running, so that each
    [waitpid] with WNOHANG returns 0 and changes nothing, [checkBGChildren]
    comes back, has asked once for each child, in the order of the
    registry, has written no notice, and leaves the registry as it
    was. *)
Theorem sweep_leaves_running_children {WM : WaitMacros} {SY : Sys}
    (w : World) (children : ChildrenPids) :
  registry_ok children ->
  cp_size children <> 0 ->
  (forall p, p ∈ pids children ->
             sys_waitpid (os w) p WNOHANG = (os w, (0, None))) ->
  exists w',
    checkBGChildren w children = Some (w', children) /\
    os w' = os w /\
    trace w' = trace w ++ map (fun p => EWaitpid p WNOHANG 0) (pids children).
Proof.
  intros [Hsz Hmax] Hne Hrun. unfold checkBGChildren.
  apply Z.eqb_neq in Hne. rewrite Hne.
  replace (cp_size children <? 0) with false by (symmetry; apply Z.ltb_ge; lia).
  cbv zeta.
  pose proof (copy_pids_spec (cp_list children) [] (Z.to_nat (cp_size children))
                ltac:(lia)) as Hcopy.
  cbn [length app] in Hcopy. rewrite Hcopy. cbn [mbind option_bind].
  replace (Z.to_nat (cp_size children) - length (cp_list children))%nat
    with 0%nat by lia.
  cbn [replicate]. rewrite app_nil_r.
  destruct (sweep_loop_running children (os w) (map pidNo (cp_list children))
              None None (Z.to_nat (cp_size children))) with (w := w) (i := 0)
    as (w' & Hloop & Hos & Ht); try done; try lia.
  - by rewrite length_map.
  - exists w'. split; [done|]. split; [done|]. by rewrite Ht.
Qed.

Lemma sweep_leaves_running_children_witness :
  exists w',
    checkBGChildren two_running_world (registry_of [100; 200])
    = Some (w', registry_of [100; 200]) /\
    os w' = os two_running_world /\
    trace w' = trace two_running_world
                 ++ map (fun p => EWaitpid p WNOHANG 0)
                        (pids (registry_of [100; 200])).
Proof.
  apply (sweep_leaves_running_children two_running_world (registry_of [100; 200])).
  - split; [reflexivity|]. vm_compute. discriminate.
  - discriminate.
  - intros p Hp. apply elem_of_cons in Hp as [->|Hp]; [reflexivity|].
    apply elem_of_cons in Hp as [->|Hp]; [reflexivity|].
    by apply elem_of_nil in Hp.
Defined.

(** X17. Whenever [checkBGChildren] comes back, the number of [waitpid]
    calls it made is the size of the registry it leaves or one more than
    that, and it removed at most one child per call. So each child it
    removes but one leaves a child of the snapshot unchecked, and a sweep
    of n children leaves at least (n - 1) / 2 of them in the registry,
    however many of them have ended. *)
Theorem sweep_checks_up_to_the_new_size {WM : WaitMacros} {SY : Sys}
    (w w' : World) (children children' : ChildrenPids) :
  registry_ok children ->
  checkBGChildren w children = Some (w', children') ->
  exists evs,
    trace w' = trace w ++ evs /\
    let checks := Z.of_nat (count_events is_wait evs) in
    let removed := cp_size children - cp_size children' in
    0 <= removed <= checks /\
    cp_size children' <= checks <= cp_size children' + 1 /\
    cp_size children <= 2 * cp_size children' + 1.
Proof.
  intros Hok Hrun. unfold checkBGChildren in Hrun.
  destruct (cp_size children =? 0) eqn:E0; [discriminate|].
  destruct (cp_size children <? 0) eqn:Eneg; [discriminate|].
  apply Z.eqb_neq in E0. apply Z.ltb_ge in Eneg. cbv zeta in Hrun.
  destruct (copy_pids _ _ _) as [bgChildren|]; [|discriminate].
  cbn [mbind option_bind] in Hrun.
  apply sweep_loop_checks in Hrun as (evs & Ht & Hle & Hrem & Hlt & _);
    [|done|lia].
  exists evs. split; [done|]. cbv zeta in *.
  specialize (Hlt ltac:(lia)). lia.
Qed.

Lemma sweep_checks_up_to_the_new_size_witness :
  exists evs,
    trace swept_world = trace two_ended_world ++ evs /\
    let checks := Z.of_nat (count_events is_wait evs) in
    let removed := cp_size (registry_of [100; 200]) - cp_size (registry_of [200]) in
    0 <= removed <= checks /\
    cp_size (registry_of [200]) <= checks <= cp_size (registry_of [200]) + 1 /\
    cp_size (registry_of [100; 200]) <= 2 * cp_size (registry_of [200]) + 1.
Proof.
  apply (sweep_checks_up_to_the_new_size two_ended_world swept_world
           (registry_of [100; 200]) (registry_of [200])).
  - split; [reflexivity|]. vm_compute. discriminate.
  - reflexivity.
Defined.

(** X18. In the child, a redirection that fails ends [execHandle]: when an
    [open] or a [dup2] returns -1, it is the last call the child makes,
    every call before it succeeded, the child exits, and [execvp] is never
    called. A command whose input file cannot be opened so leaves its
    output file untouched. *)
Theorem failed_redirection_stops_child {CS : ChildSys}
    (c : CommandLine) (o : COS) :
  Exists failed_redirection (fst (execHandle c o)) ->
  (exists code, snd (execHandle c o) = ChildExit code) /\
  (forall file argv, CEExecvp file argv ∉ fst (execHandle c o)) /\
  exists before bad,
    fst (execHandle c o) = before ++ [bad] /\
    failed_redirection bad /\
    Forall succeeded_redirection before.
Proof.
  intros Hfail.
  destruct (execHandle_shape c o)
    as [(good & bad & code & Hrun & Hgood & Hbad)
       |[(good & file & e & Hrun & Hgood & _)|(good & Hrun & Hgood)]];
    rewrite Hrun in *; cbn [fst snd] in *;
    destruct (succeeded_not_failed good Hgood) as [Hno Hnoexec].
  - split; [by exists code|]. split; [|by exists good, bad].
    intros file argv [Hin|Hin]%elem_of_app; [by apply (Hnoexec file argv)|].
    apply elem_of_cons in Hin as [<-|Hin]; [exact Hbad|by apply elem_of_nil in Hin].
  - exfalso. apply Exists_app in Hfail as [Hfail|Hfail]; [done|].
    apply Exists_cons in Hfail as [Hfail|Hfail]; [exact Hfail|].
    by apply Exists_nil in Hfail.
  - done.
Qed.

Lemma failed_redirection_stops_child_witness :
  (exists code,
      snd (execHandle (CS := files_sys)
             (sort_command (Some "missing"%string) (Some "out.txt"%string))
             some_files) = ChildExit code) /\
  (forall file argv,
      CEExecvp file argv
      ∉ fst (execHandle (CS := files_sys)
               (sort_command (Some "missing"%string) (Some "out.txt"%string))
               some_files)) /\
  exists before bad,
    fst (execHandle (CS := files_sys)
           (sort_command (Some "missing"%string) (Some "out.txt"%string))
           some_files) = before ++ [bad] /\
    failed_redirection bad /\
    Forall succeeded_redirection before.
Proof.
  apply (failed_redirection_stops_child (CS := files_sys)
           (sort_command (Some "missing"%string) (Some "out.txt"%string))
           some_files).
  vm_compute. left. reflexivity.
Defined.

(** X19. Whenever the child calls [execvp], it is its last call, the file
    is the first string of the vector and the argument is the whole vector
    of the command, and before it the child has opened the input file of
    the command for reading and put it in place of descriptor 0, if the
    command has one, then opened the output file for writing, created or
    truncated, and put it in place of descriptor 1, if it has one, with
    every one of these calls successful and no other call made. *)
Theorem program_runs_after_redirections {CS : ChildSys}
    (c : CommandLine) (o : COS) (file : string) (argv : list (option string)) :
  (CEExecvp file argv ∈ fst (execHandle c o)) ->
  arr c !! 0%nat = Some (Some file) /\
  argv = arr c /\
  exists redirections,
    fst (execHandle c o) = redirections ++ [CEExecvp file argv] /\
    Forall succeeded_redirection redirections /\
    opened redirections = expected_opens c /\
    duplicated_onto redirections = expected_targets c.
Proof.
  intros Hin.
  destruct (execHandle_shape c o)
    as [(good & bad & code & Hrun & Hgood & Hbad)
       |[(good & file' & e & Hrun & Hgood & Harr & Hop & Hdup & _)
        |(good & Hrun & Hgood)]];
    rewrite Hrun in *; cbn [fst snd] in *;
    destruct (succeeded_not_failed good Hgood) as [Hno Hnoexec].
  - exfalso. apply elem_of_app in Hin as [Hin|Hin]; [by apply (Hnoexec file argv)|].
    apply elem_of_cons in Hin as [<-|Hin]; [exact Hbad|by apply elem_of_nil in Hin].
  - apply elem_of_app in Hin as [Hin|Hin]; [by destruct (Hnoexec file argv)|].
    apply elem_of_cons in Hin as [Heq|Hin]; [|by apply elem_of_nil in Hin].
    injection Heq as -> ->. split; [done|]. split; [done|]. by exists good.
  - by destruct (Hnoexec file argv).
Qed.

Lemma program_runs_after_redirections_witness :
  arr (sort_command (Some "in.txt"%string) (Some "out.txt"%string)) !! 0%nat
  = Some (Some "sort"%string) /\
  arr (sort_command (Some "in.txt"%string) (Some "out.txt"%string))
  = arr (sort_command (Some "in.txt"%string) (Some "out.txt"%string)) /\
  exists redirections,
    fst (execHandle (CS := files_sys)
           (sort_command (Some "in.txt"%string) (Some "out.txt"%string))
           some_files)
    = redirections
        ++ [CEExecvp "sort"
              (arr (sort_command (Some "in.txt"%string) (Some "out.txt"%string)))] /\
    Forall succeeded_redirection redirections /\
    opened redirections
    = expected_opens (sort_command (Some "in.txt"%string) (Some "out.txt"%string)) /\
    duplicated_onto redirections
    = expected_targets (sort_command (Some "in.txt"%string) (Some "out.txt"%string)).
Proof.
  apply (program_runs_after_redirections (CS := files_sys)
           (sort_command (Some "in.txt"%string) (Some "out.txt"%string))
           some_files "sort"
           (arr (sort_command (Some "in.txt"%string) (Some "out.txt"%string)))).
  vm_compute. repeat constructor.
Defined.
